(** * seneca-app ingestion scripts: text chunking and quote hashing

    A shallow embedding of [scripts/uploadTextsToSupabase.py] (clean-up of
    the fetched text, boundary locator, the five section scanners, chunk
    emitter, router, batched upload) and of
    [scripts/scrapePhilosophicalQuotesSelenium.py] (quote hash, page scraper,
    pagination, quote upload).

    Conventions of the embedding.
    - What lies outside the scripts is data or an oracle of the model: the
      elements a browser page shows, the embedding model, the remote tables.
    - A Python [str] is a [string]; a character is an [ascii] read as the
      code point of the same number (0..255).  The character tables
      ([isspace], [lower], [isupper], ...) are those of CPython on that range.
    - [s.find(sub)] returns an [option nat] ([None] for Python's [-1]).
    - [print] calls are dropped: they do not influence any returned value.
    - [uuid.uuid4()] is a draw from an explicit generator state.
    - [int(s)] raises [ValueError] on more than 4300 digits, CPython's
      default limit.
    - A Python exception is a value of [outcome]. *)

From Stdlib Require Import List String Ascii Bool Arith ZArith Lia.
Import ListNotations.
Open Scope list_scope.
Open Scope string_scope.

(** ** Python string primitives *)

Module PyStr.

Definition chr (n : nat) : string := String (ascii_of_nat n) "".
Definition NL : string := chr 10.
Definition DQ : string := chr 34.

Definition between (lo hi n : nat) : bool := Nat.leb lo n && Nat.leb n hi.

(** [c.isspace()] *)
Definition isspace (c : ascii) : bool :=
  let n := nat_of_ascii c in
  between 9 13 n || between 28 32 n || (Nat.eqb n 133) || (Nat.eqb n 160).

(** [c.isupper()] for one character. *)
Definition char_isupper (c : ascii) : bool :=
  let n := nat_of_ascii c in
  between 65 90 n || (between 192 222 n && negb (Nat.eqb n 215)).

(** [c.islower()] for one character. *)
Definition char_islower (c : ascii) : bool :=
  let n := nat_of_ascii c in
  between 97 122 n || (Nat.eqb n 170) || (Nat.eqb n 181) || (Nat.eqb n 186)
  || (between 223 255 n && negb (Nat.eqb n 247)).

Definition char_lower (c : ascii) : ascii :=
  if char_isupper c then ascii_of_nat (nat_of_ascii c + 32) else c.

(** [c.upper()] for one character; the result can be two characters long.
    The capitals of code points 181 and 255 lie above 255; they are left in
    place, which no caller can observe: [upper] is only searched for words
    made of the letters A to Z. *)
Definition char_upper (c : ascii) : string :=
  let n := nat_of_ascii c in
  if between 97 122 n || (between 224 254 n && negb (Nat.eqb n 247))
  then chr (n - 32)
  else if Nat.eqb n 223 then "SS"
  else String c "".

Definition isdigit (c : ascii) : bool := between 48 57 (nat_of_ascii c).

Fixpoint lower (s : string) : string :=
  match s with
  | "" => ""
  | String c s' => String (char_lower c) (lower s')
  end.

Fixpoint upper (s : string) : string :=
  match s with
  | "" => ""
  | String c s' => char_upper c ++ upper s'
  end.

(** [s.isupper()]: no lowercase character and at least one uppercase one. *)
Fixpoint isupper_from (cased : bool) (s : string) : bool :=
  match s with
  | "" => cased
  | String c s' =>
      if char_islower c then false
      else isupper_from (cased || char_isupper c) s'
  end.

Definition isupper (s : string) : bool := isupper_from false s.

Fixpoint lstrip_by (p : ascii -> bool) (s : string) : string :=
  match s with
  | "" => ""
  | String c s' => if p c then lstrip_by p s' else s
  end.

Fixpoint rstrip_by (p : ascii -> bool) (s : string) : string :=
  match s with
  | "" => ""
  | String c s' =>
      match rstrip_by p s' with
      | "" => if p c then "" else String c ""
      | r => String c r
      end
  end.

(** [s.strip()] *)
Definition strip (s : string) : string := rstrip_by isspace (lstrip_by isspace s).

(** [s.rstrip('.')] *)
Definition rstrip_dot (s : string) : string := rstrip_by (Ascii.eqb ".") s.

(** [s.startswith(p)] *)
Definition startswith (s p : string) : bool := prefix p s.

(** [s.find(sub, start)] *)
Definition find_from (s sub : string) (start : nat) : option nat := index start sub s.

(** [s.find(sub)] *)
Definition find (s sub : string) : option nat := index 0 sub s.

(** [sub in s] *)
Definition contains (sub s : string) : bool :=
  match find s sub with Some _ => true | None => false end.

(** [s[a:b]] for indices [a], [b] that are not negative. *)
Definition slice (a b : nat) (s : string) : string := substring a (b - a) s.

(** [s[a:]] *)
Definition slice_from (a : nat) (s : string) : string := substring a (length s - a) s.

(** [s[:b]] *)
Definition slice_to (b : nat) (s : string) : string := substring 0 b s.

(** [s.split(sep)] for a separator that is not empty.  [skip] counts the
    characters of a separator just matched that are still to be passed. *)
Fixpoint split_go (sep s : string) (skip : nat) (cur : string) : list string :=
  match s with
  | "" => [cur]
  | String c s' =>
      match skip with
      | S k => split_go sep s' k cur
      | O =>
          if prefix sep s
          then cur :: split_go sep s' (length sep - 1) ""
          else split_go sep s' 0 (cur ++ String c "")
      end
  end.

Definition split (sep s : string) : list string := split_go sep s 0 "".

(** [s.split(sep, 1)] for a one-character separator. *)
Fixpoint split1_go (sep : ascii) (s : string) (cur : string) : list string :=
  match s with
  | "" => [cur]
  | String c s' =>
      if Ascii.eqb c sep then [cur; s'] else split1_go sep s' (cur ++ String c "")
  end.

Definition split1 (sep : ascii) (s : string) : list string := split1_go sep s "".

(** [sep.join(l)] *)
Definition join (sep : string) (l : list string) : string := concat sep l.

(** [s.replace(old, new)] for [old] that is not empty. *)
Fixpoint replace_go (old new s : string) (skip : nat) : string :=
  match s with
  | "" => ""
  | String c s' =>
      match skip with
      | S k => replace_go old new s' k
      | O =>
          if prefix old s
          then new ++ replace_go old new s' (length old - 1)
          else String c (replace_go old new s' 0)
      end
  end.

Definition replace (old new s : string) : string := replace_go old new s 0.

(** [x in l] for a list of strings. *)
Definition mem (x : string) (l : list string) : bool := existsb (String.eqb x) l.

(** [any(k in s for k in keys)] *)
Definition any_in (keys : list string) (s : string) : bool :=
  existsb (fun k => contains k s) keys.

(** Truth value of a string, of [None] or a string, and of a list. *)
Definition truthy_str (s : string) : bool := negb (String.eqb s "").

Definition truthy (o : option string) : bool :=
  match o with Some s => truthy_str s | None => false end.

Definition nonempty {A} (l : list A) : bool :=
  match l with [] => false | _ => true end.

(** What an f-string prints for a value that is [None] or a string. *)
Definition fmt (o : option string) : string :=
  match o with Some s => s | None => "None" end.

End PyStr.

Import PyStr.

(** ** Regular expressions of the scripts

    Each pattern is a sequence of literals and greedy classes in which no
    backtracking point has a second way to succeed, so a matcher is a
    function from the text at a position to the text left after the match. *)

Module Re.

Definition matcher := string -> option string.

Definition lit (l : string) : matcher :=
  fun s => if prefix l s then Some (substring (length l) (length s - length l) s) else None.

Definition seq (m1 m2 : matcher) : matcher :=
  fun s => match m1 s with Some r => m2 r | None => None end.

(** [\d+] *)
Definition digits1 : matcher :=
  fun s =>
    match s with
    | String c s' => if isdigit c then Some (lstrip_by isdigit s') else None
    | "" => None
    end.

(** [[^>]*] *)
Definition not_gt_star : matcher :=
  fun s => Some (lstrip_by (fun c => negb (Ascii.eqb c ">")) s).

(** [\[\d+\]] *)
Definition bracket_num : matcher := seq (lit "[") (seq digits1 (lit "]")).

(** [<sup>\[\d+\]</sup>] *)
Definition sup_note : matcher := seq (lit "<sup>") (seq bracket_num (lit "</sup>")).

(** [<a[^>]*><sup>\[\d+\]</sup></a>] *)
Definition anchor_note : matcher :=
  seq (lit "<a") (seq not_gt_star (seq (lit ">") (seq sup_note (lit "</a>")))).

(** [re.match(p, s)] as a truth value. *)
Definition matches (m : matcher) (s : string) : bool :=
  match m s with Some _ => true | None => false end.

(** [re.sub(p, '', s)] for a pattern that matches no empty string. *)
Fixpoint sub_go (m : matcher) (s : string) (skip : nat) : string :=
  match s with
  | "" => ""
  | String c s' =>
      match skip with
      | S k => sub_go m s' k
      | O =>
          match m s with
          | Some r => sub_go m s' (length s - length r - 1)
          | None => String c (sub_go m s' 0)
          end
      end
  end.

Definition sub (m : matcher) (s : string) : string := sub_go m s 0.

End Re.

(** ** Chunk records and the chunk emitter *)

Definition pair_list := list (string * string).

(** [chunks.append((label, text))] *)
Definition append (cs : pair_list) (label text : string) : pair_list :=
  (cs ++ [(label, text)])%list.

Record chunk := mkChunk {
  chunk_id : string;
  chunk_author : string;
  chunk_work : string;
  chunk_section : string;
  chunk_text_body : string;
  chunk_index : nat
}.

Section Emitter.

(** The state of the identifier generator and one draw, [str(uuid.uuid4())]. *)
Variable rng : Type.
Variable uuid4 : rng -> string * rng.

(** The list comprehension over [enumerate(chunks)], from index [i]. *)
Fixpoint create_from (i : nat) (chunks : pair_list) (author work : string) (g : rng)
  : list chunk * rng :=
  match chunks with
  | [] => ([], g)
  | (section, text) :: rest =>
      let (u, g1) := uuid4 g in
      let (cs, g2) := create_from (S i) rest author work g1 in
      (mkChunk u author work section text i :: cs, g2)
  end.

Definition create_chunk_objects (chunks : pair_list) (author work : string) (g : rng)
  : list chunk * rng :=
  create_from 0 chunks author work g.

(** The first [n] draws of the generator from state [g]. *)
Fixpoint draws (n : nat) (g : rng) : list string :=
  match n with
  | O => []
  | S k => let (u, g1) := uuid4 g in u :: draws k g1
  end.

Fixpoint advance (n : nat) (g : rng) : rng :=
  match n with
  | O => g
  | S k => advance k (snd (uuid4 g))
  end.

End Emitter.

Definition labelled (c : chunk) : string * string := (chunk_section c, chunk_text_body c).

(** ** Boundary locator *)

Definition extract_content (text : string) : string :=
  let start_marker := "*** START OF" in
  let end_marker := "*** END OF" in
  let start_idx := find text start_marker in
  let end_idx := find text end_marker in
  let text' :=
    match start_idx, end_idx with
    | Some si, Some ei =>
        match find_from text NL si with
        | Some si' => slice si' ei text
        | None => text
        end
    | _, _ => text
    end in
  strip text'.

(** ** Marcus Aurelius scanner *)

Module Marcus.

Definition roman_numerals : list string :=
  ["I"; "II"; "III"; "IV"; "V"; "VI"; "VII"; "VIII"; "IX"; "X";
   "XI"; "XII"; "XIII"; "XIV"; "XV"; "XVI"; "XVII"; "XVIII"; "XIX"; "XX";
   "XXI"; "XXII"; "XXIII"; "XXIV"; "XXV"; "XXVI"; "XXVII"; "XXVIII"; "XXIX"; "XXX";
   "XXXI"; "XXXII"; "XXXIII"; "XXXIV"; "XXXV"; "XXXVI"; "XXXVII"; "XXXVIII"; "XXXIX"; "XL";
   "XLI"; "XLII"; "XLIII"; "XLIV"; "XLV"; "XLVI"; "XLVII"; "XLVIII"; "XLIX"; "L"; "LI"; "LII"; "LIII";
   "LIV"; "LV"; "LVI"; "LVII"; "LVIII"].

Definition book_words : list string :=
  ["FIRST"; "SECOND"; "THIRD"; "FOURTH"; "FIFTH"; "SIXTH"; "SEVENTH"; "EIGHTH";
   "NINTH"; "TENTH"; "ELEVENTH"; "TWELFTH"].

Definition start_marker : string := "THE FIRST BOOK".
Definition actual_start_marker : string := "I. Of my grandfather".
Definition end_marker : string :=
  "As for thyself; thou hast to do with neither. Go thy ways then well pleased and contented: for so is He that dismisseth thee.".

Record state := mkState {
  current_book : option string;
  chunks : pair_list
}.

(** One turn of [for para in paragraphs]. *)
Definition step (st : state) (para0 : string) : state :=
  let para := strip para0 in
  if negb (truthy_str para) then st else
  let first_line := strip (nth 0 (split NL para) "") in
  let first_line_upper := upper first_line in
  if contains "BOOK" first_line_upper && any_in book_words first_line_upper
  then mkState (Some first_line) (chunks st)
  else if negb (truthy (current_book st)) then st
  else
    let lines := split NL para in
    if Nat.ltb 0 (List.length lines) then
      let first_word := nth 0 (split "." (strip (nth 0 lines ""))) "" in
      if mem first_word roman_numerals
      then
        let section_title := fmt (current_book st) ++ " - Section " ++ first_word in
        mkState (current_book st) (append (chunks st) section_title para)
      else st
    else st.

(** The (label, text) list that [chunk_marcus_meditations] hands to
    [create_chunk_objects]. *)
Definition scan (text : string) : pair_list :=
  match find text start_marker with
  | None => []
  | Some start_pos =>
      match find_from text actual_start_marker start_pos with
      | None => []
      | Some _ =>
          let filtered_text :=
            match find text end_marker with
            | None => slice_from start_pos text
            | Some end_pos => slice start_pos end_pos text
            end in
          let paragraphs := split (NL ++ NL) filtered_text in
          chunks (fold_left step paragraphs (mkState None []))
      end
  end.

End Marcus.

Section ScannersMarcus.
Variable rng : Type.
Variable uuid4 : rng -> string * rng.

Definition chunk_marcus_meditations (text author work : string) (g : rng) : list chunk * rng :=
  create_chunk_objects rng uuid4 (Marcus.scan text) author work g.

End ScannersMarcus.

(** ** Seneca's Morals scanner *)

Module Morals.

Definition start_marker : string := "SENECA OF BENEFITS".
Definition boilerplate : list string := ["project gutenberg"; "table of contents"; "http://"].
Definition min_len : nat := 100.

Record state := mkState {
  current_main_section : option string;
  current_chapter : option string;
  current_chapter_title : option string;
  chapter_content : list string;
  chunks : pair_list
}.

Definition init : state := mkState None None None [] [].

(** The body of [if current_chapter and chapter_content:], which the source
    writes three times: join, strip, compare with the threshold, append. *)
Definition save_chapter (st : state) : pair_list :=
  let full_text := strip (join NL (chapter_content st)) in
  if Nat.ltb min_len (length full_text) then
    let section_name := fmt (current_main_section st) ++ " - " ++ fmt (current_chapter st) in
    let section_name :=
      if truthy (current_chapter_title st)
      then section_name ++ " - " ++ fmt (current_chapter_title st)
      else section_name in
    append (chunks st) section_name full_text
  else chunks st.

Definition flush (st : state) : pair_list :=
  if truthy (current_chapter st) && nonempty (chapter_content st)
  then save_chapter st
  else chunks st.

(** The inner [while j < len(lines)] loop: the title lines found and the
    number of lines passed, [j - (i + 1)]. *)
Fixpoint look_ahead (rest : list string) (title_lines : list string) (passed : nat)
  : list string * nat :=
  match rest with
  | [] => (title_lines, passed)
  | l :: tl =>
      let next_line := strip l in
      if negb (truthy_str next_line) then look_ahead tl title_lines (S passed)
      else if startswith next_line "CHAPTER " then (title_lines, passed)
      else if startswith next_line "SENECA OF " || mem next_line ["TO THE READER."; "CONTENTS"]
      then (title_lines, passed)
      else if isupper next_line then look_ahead tl (title_lines ++ [next_line])%list (S passed)
      else (title_lines, passed)
  end.

Definition is_section_header (line : string) : bool := startswith line "SENECA OF ".

Definition is_chapter_header (line : string) : bool :=
  startswith line "CHAPTER " && contains "." line && Nat.ltb (length line) 20.

(** One pass of the outer [while] body at line [raw], followed by [tl]:
    the new state and the number of following lines the loop jumps over. *)
Definition step (raw : string) (tl : list string) (st : state) : state * nat :=
  let line := strip raw in
  if is_section_header line then
    (mkState (Some line) None None [] (flush st), 0)
  else if is_chapter_header line then
    let chunks' := flush st in
    let chapter := strip (replace "." "" line) in
    let (title_lines, passed) := look_ahead tl [] 0 in
    if nonempty title_lines
    then (mkState (current_main_section st) (Some chapter)
                  (Some (join " " title_lines)) [] chunks', passed)
    else (mkState (current_main_section st) None
                  (current_chapter_title st) [] chunks', 0)
  else if negb (truthy_str line) || Nat.ltb (length line) 10 then
    if nonempty (chapter_content st)
    then (mkState (current_main_section st) (current_chapter st) (current_chapter_title st)
                  (chapter_content st ++ [line])%list (chunks st), 0)
    else (st, 0)
  else if any_in boilerplate (lower line) then (st, 0)
  else if truthy (current_main_section st)
  then (mkState (current_main_section st) (current_chapter st) (current_chapter_title st)
                (chapter_content st ++ [line])%list (chunks st), 0)
  else (st, 0).

(** The outer [while i < len(lines)] loop.  [skip] is the number of lines
    between the current one and the next value of [i]. *)
Fixpoint loop (lines : list string) (skip : nat) (st : state) : state :=
  match lines with
  | [] => st
  | l :: tl =>
      match skip with
      | S k => loop tl k st
      | O => let (st', k) := step l tl st in loop tl k st'
      end
  end.

(** The code after the loop: the last chapter, or the chapterless
    section on clemency. *)
Definition finish (st : state) : pair_list :=
  if truthy (current_chapter st) && nonempty (chapter_content st)
  then save_chapter st
  else if truthy (current_main_section st) && nonempty (chapter_content st)
          && contains "CLEMENCY" (fmt (current_main_section st))
  then
    let full_text := strip (join NL (chapter_content st)) in
    if Nat.ltb min_len (length full_text)
    then append (chunks st) (fmt (current_main_section st)) full_text
    else chunks st
  else chunks st.

Definition scan_lines (lines : list string) : pair_list := finish (loop lines 0 init).

Definition scan (text : string) : pair_list :=
  match find text start_marker with
  | None => []
  | Some start_pos => scan_lines (split NL (slice_from start_pos text))
  end.

End Morals.

(** ** Seneca's Minor Dialogues scanner *)

Module Dialogues.

Definition start_marker : string := "THE FIRST BOOK OF THE DIALOGUES".
Definition end_marker : string := "how what is crooked may be straightened. . . .".
Definition boilerplate : list string := ["project gutenberg"; "table of contents"; "http://"].
Definition min_len : nat := 100.

Definition roman_numerals : list string :=
  ["I"; "II"; "III"; "IV"; "V"; "VI"; "VII"; "VIII"; "IX"; "X";
   "XI"; "XII"; "XIII"; "XIV"; "XV"; "XVI"; "XVII"; "XVIII"; "XIX"; "XX";
   "XXI"; "XXII"; "XXIII"; "XXIV"; "XXV"; "XXVI"; "XXVII"; "XXVIII"; "XXIX"; "XXX";
   "XXXI"; "XXXII"; "XXXIII"; "XXXIV"; "XXXV"; "XXXVI"; "XXXVII"; "XXXVIII"; "XXXIX"; "XL";
   "XLI"; "XLII"; "XLIII"; "XLIV"; "XLV"; "XLVI"; "XLVII"; "XLVIII"; "XLIX"; "L";
   "LI"; "LII"; "LIII"; "LIV"; "LV"; "LVI"; "LVII"; "LVIII"; "LIX"; "LX"].

Definition book_words : list string :=
  ["FIRST"; "SECOND"; "THIRD"; "FOURTH"; "FIFTH"; "SIXTH"; "SEVENTH"; "EIGHTH";
   "NINTH"; "TENTH"; "ELEVENTH"; "TWELFTH"].

(** [re.match(r'THE (FIRST|...|TWELFTH) BOOK OF THE DIALOGUES', line)] *)
Definition book_match (line : string) : bool :=
  existsb (fun w => startswith line ("THE " ++ w ++ " BOOK OF THE DIALOGUES")) book_words.

(** ['BOOK OF THE DIALOGUE OF L. ANNAEUS' in line] *)
Definition special_book (line : string) : bool :=
  contains "BOOK OF THE DIALOGUE OF L. ANNAEUS" line.

(** [re.match(r'^\[\d+\]', line)] *)
Definition footnote_start (line : string) : bool := Re.matches Re.bracket_num line.

(** [line.split('.')[0].strip() if '.' in line else ''] *)
Definition line_start (line : string) : string :=
  if contains "." line then strip (nth 0 (split "." line) "") else "".

(** A Roman-numeral paragraph marker. *)
Definition paragraph_marker (line : string) : bool :=
  mem (line_start line) roman_numerals
  && Nat.ltb (length (line_start line) + 2) (length line).

Record state := mkState {
  current_book : option string;
  current_book_title : option string;
  current_paragraph : list string;
  current_paragraph_num : option string;
  in_footnotes : bool;
  chunks : pair_list
}.

Definition init : state := mkState None None [] None false [].

(** The save block the source writes five times: join, strip, delete
    the bracketed numbers, compare with the threshold, append. *)
Definition save_paragraph (st : state) : pair_list :=
  let para_text := strip (join NL (current_paragraph st)) in
  let para_text := Re.sub Re.bracket_num para_text in
  if Nat.ltb min_len (length para_text) then
    let section_name :=
      fmt (current_book_title st) ++ " - Paragraph " ++ fmt (current_paragraph_num st) in
    append (chunks st) section_name para_text
  else chunks st.

Definition open_paragraph (st : state) : bool :=
  nonempty (current_paragraph st) && truthy (current_paragraph_num st).

(** What both kinds of book header do: save the open paragraph, then
    start the book with no paragraph and footnote mode off. *)
Definition enter_book (line : string) (st : state) : state :=
  let chunks' :=
    if truthy (current_book st) && open_paragraph st
    then save_paragraph st else chunks st in
  mkState (Some line) (Some line) [] None false chunks'.

(** One pass of the [while] body. *)
Definition step (st : state) (raw : string) : state :=
  let line := strip raw in
  if book_match line then enter_book line st
  else if special_book line then enter_book line st
  else if negb (truthy (current_book st)) then st
  else if footnote_start line then
    if open_paragraph st
    then mkState (current_book st) (current_book_title st) [] None true (save_paragraph st)
    else mkState (current_book st) (current_book_title st) (current_paragraph st)
                 (current_paragraph_num st) true (chunks st)
  else if in_footnotes st then st
  else if paragraph_marker line then
    let chunks' := if open_paragraph st then save_paragraph st else chunks st in
    mkState (current_book st) (current_book_title st) [line] (Some (line_start line))
            (in_footnotes st) chunks'
  else if negb (truthy_str line) || Nat.ltb (length line) 10 then
    if nonempty (current_paragraph st)
    then mkState (current_book st) (current_book_title st)
                 (current_paragraph st ++ [line])%list (current_paragraph_num st)
                 (in_footnotes st) (chunks st)
    else st
  else if any_in boilerplate (lower line) then st
  else if nonempty (current_paragraph st)
  then mkState (current_book st) (current_book_title st)
               (current_paragraph st ++ [line])%list (current_paragraph_num st)
               (in_footnotes st) (chunks st)
  else st.

Definition loop (lines : list string) (st : state) : state := fold_left step lines st.

Definition finish (st : state) : pair_list :=
  if truthy (current_book st) && open_paragraph st && negb (in_footnotes st)
  then save_paragraph st
  else chunks st.

Definition scan_lines (lines : list string) : pair_list := finish (loop lines init).

Definition scan (text : string) : pair_list :=
  match find text start_marker with
  | None => []
  | Some start_pos =>
      let filtered_text :=
        match find text end_marker with
        | None => slice_from start_pos text
        | Some end_pos => slice start_pos (end_pos + length end_marker) text
        end in
      let filtered_text := Re.sub Re.anchor_note filtered_text in
      let filtered_text := Re.sub Re.sup_note filtered_text in
      scan_lines (split NL filtered_text)
  end.

End Dialogues.

(** ** Epictetus scanner *)

Module Epictetus.

Definition start_marker : string := "There are things which are within our power".

Definition end_markers : list string :=
  [DQ ++ "Anytus and Melitus may kill me indeed; but hurt me they cannot." ++ DQ;
   DQ ++ "Anytus and Melitus may kill me indeed; but hurt me they cannot." ++ DQ;
   "Anytus and Melitus may kill me indeed; but hurt me they cannot."].

Definition boilerplate : list string := ["project gutenberg"; "contents"; "http://"; "footnote"].
Definition min_len : nat := 50.

Definition roman_numerals : list string :=
  ["I"; "II"; "III"; "IV"; "V"; "VI"; "VII"; "VIII"; "IX"; "X";
   "XI"; "XII"; "XIII"; "XIV"; "XV"; "XVI"; "XVII"; "XVIII"; "XIX"; "XX";
   "XXI"; "XXII"; "XXIII"; "XXIV"; "XXV"; "XXVI"; "XXVII"; "XXVIII"; "XXIX"; "XXX";
   "XXXI"; "XXXII"; "XXXIII"; "XXXIV"; "XXXV"; "XXXVI"; "XXXVII"; "XXXVIII"; "XXXIX"; "XL";
   "XLI"; "XLII"; "XLIII"; "XLIV"; "XLV"; "XLVI"; "XLVII"; "XLVIII"; "XLIX"; "L"; "LI"; "LII"; "LIII";
   "LIV"; "LV"; "LVI"; "LVII"; "LVIII"].

Record state := mkState {
  current_section : string;
  current_section_content : list string;
  chunks : pair_list
}.

Definition init : state := mkState "Section I" [] [].

(** [if current_section and current_section_content:] with its body. *)
Definition flush (st : state) : pair_list :=
  if truthy_str (current_section st) && nonempty (current_section_content st) then
    let full_text := join (NL ++ NL) (current_section_content st) in
    if Nat.ltb min_len (length full_text)
    then append (chunks st) (current_section st) full_text
    else chunks st
  else chunks st.

(** One turn of [for para in paragraphs]. *)
Definition step (st : state) (para0 : string) : state :=
  let para := strip para0 in
  if negb (truthy_str para) then st
  else if any_in boilerplate (lower para) then st
  else if mem para roman_numerals then
    mkState ("Section " ++ para) [] (flush st)
  else if truthy_str (current_section st) && Nat.ltb min_len (length para) then
    mkState (current_section st) (current_section_content st ++ [para])%list (chunks st)
  else st.

(** The [for end_marker in end_markers] loop: cut after the first marker
    of the list that occurs. *)
Fixpoint trim_end (markers : list string) (text : string) : string :=
  match markers with
  | [] => text
  | m :: ms =>
      match find text m with
      | Some end_pos => slice_to (end_pos + length m) text
      | None => trim_end ms text
      end
  end.

Definition scan_paragraphs (paragraphs : list string) : pair_list :=
  flush (fold_left step paragraphs init).

Definition scan (text : string) : pair_list :=
  let text :=
    match find text start_marker with
    | Some start_pos => slice_from start_pos text
    | None => text
    end in
  let text := trim_end end_markers text in
  scan_paragraphs (split (NL ++ NL) text).

End Epictetus.

(** ** Nietzsche scanner *)

Module Nietzsche.

Definition start_marker : string := "I. THE THREE METAMORPHOSES.".
Definition end_marker : string := "coming out of gloomy mountains".
Definition boilerplate : list string := ["project gutenberg"; "table of contents"; "http://"].
Definition min_len : nat := 100.

Definition roman_numerals : list string :=
  ["I"; "II"; "III"; "IV"; "V"; "VI"; "VII"; "VIII"; "IX"; "X";
   "XI"; "XII"; "XIII"; "XIV"; "XV"; "XVI"; "XVII"; "XVIII"; "XIX"; "XX";
   "XXI"; "XXII"; "XXIII"; "XXIV"; "XXV"; "XXVI"; "XXVII"; "XXVIII"; "XXIX"; "XXX";
   "XXXI"; "XXXII"; "XXXIII"; "XXXIV"; "XXXV"; "XXXVI"; "XXXVII"; "XXXVIII"; "XXXIX"; "XL";
   "XLI"; "XLII"; "XLIII"; "XLIV"; "XLV"; "XLVI"; "XLVII"; "XLVIII"; "XLIX"; "L";
   "LI"; "LII"; "LIII"; "LIV"; "LV"; "LVI"; "LVII"; "LVIII"; "LIX"; "LX";
   "LXI"; "LXII"; "LXIII"; "LXIV"; "LXV"; "LXVI"; "LXVII"; "LXVIII"; "LXIX"; "LXX";
   "LXXI"; "LXXII"; "LXXIII"; "LXXIV"; "LXXV"; "LXXVI"; "LXXVII"; "LXXVIII"; "LXXIX"; "LXXX"].

Record state := mkState {
  current_chapter : option string;
  current_chapter_title : option string;
  chapter_content : list string;
  chunks : pair_list
}.

Definition init : state := mkState None None [] [].

(** [if current_chapter and chapter_content:] with its body. *)
Definition flush (st : state) : pair_list :=
  if truthy (current_chapter st) && nonempty (chapter_content st) then
    let full_text := strip (join NL (chapter_content st)) in
    if Nat.ltb min_len (length full_text) then
      let section_name :=
        "Chapter " ++ fmt (current_chapter st) ++ " - " ++ fmt (current_chapter_title st) in
      append (chunks st) section_name full_text
    else chunks st
  else chunks st.

(** The chapter header test: the numeral and the title of the header. *)
Definition chapter_header (line : string) : option (string * string) :=
  if truthy_str line then
    let parts := split1 "." line in
    if Nat.leb 2 (List.length parts) then
      let potential_numeral := strip (nth 0 parts "") in
      if mem potential_numeral roman_numerals
      then Some (potential_numeral, rstrip_dot (strip (nth 1 parts "")))
      else None
    else None
  else None.

(** One pass of the [while] body. *)
Definition step (st : state) (raw : string) : state :=
  let line := strip raw in
  match chapter_header line with
  | Some (numeral, title) => mkState (Some numeral) (Some title) [] (flush st)
  | None =>
      if negb (truthy_str line) || Nat.ltb (length line) 10 then
        if nonempty (chapter_content st)
        then mkState (current_chapter st) (current_chapter_title st)
                     (chapter_content st ++ [line])%list (chunks st)
        else st
      else if any_in boilerplate (lower line) then st
      else if truthy (current_chapter st)
      then mkState (current_chapter st) (current_chapter_title st)
                   (chapter_content st ++ [line])%list (chunks st)
      else st
  end.

Definition scan_lines (lines : list string) : pair_list :=
  flush (fold_left step lines init).

Definition scan (text : string) : pair_list :=
  match find text start_marker with
  | None => []
  | Some start_pos =>
      let filtered_text :=
        match find text end_marker with
        | None => slice_from start_pos text
        | Some end_pos =>
            match find_from text "." end_pos with
            | Some end_pos' => slice start_pos (end_pos' + 1) text
            | None => slice_from start_pos text
            end
        end in
      scan_lines (split NL filtered_text)
  end.

End Nietzsche.

(** ** The chunking functions and the router *)

Inductive exn : Type :=
| NameError (name : string).

Inductive outcome (A : Type) : Type :=
| Returned (a : A)
| Raised (e : exn).

Arguments Returned {A} a.
Arguments Raised {A} e.

Section Router.

Variable rng : Type.
Variable uuid4 : rng -> string * rng.

Definition chunk_seneca_morals (text author work : string) (g : rng) : list chunk * rng :=
  create_chunk_objects rng uuid4 (Morals.scan text) author work g.

Definition chunk_seneca_dialogues (text author work : string) (g : rng) : list chunk * rng :=
  create_chunk_objects rng uuid4 (Dialogues.scan text) author work g.

Definition chunk_epictetus (text author work : string) (g : rng) : list chunk * rng :=
  create_chunk_objects rng uuid4 (Epictetus.scan text) author work g.

Definition chunk_nietzsche (text author work : string) (g : rng) : list chunk * rng :=
  create_chunk_objects rng uuid4 (Nietzsche.scan text) author work g.

(** [chunk_text].  The name [chunk_plato_republic] is bound nowhere in the
    module (no [def], no import), so evaluating that call raises
    [NameError]. *)
Definition chunk_text (text author work : string) (g : rng) : outcome (list chunk * rng) :=
  let text := extract_content text in
  if contains "Meditations" work then
    Returned (chunk_marcus_meditations rng uuid4 text author work g)
  else if contains "Morals" work then
    Returned (chunk_seneca_morals text author work g)
  else if contains "Dialogues" work || contains "Epistles" work then
    Returned (chunk_seneca_dialogues text author work g)
  else if contains "Enchiridion" work then
    Returned (chunk_epictetus text author work g)
  else if contains "Republic" work then
    Raised (NameError "chunk_plato_republic")
  else if contains "Zarathustra" work then
    Returned (chunk_nietzsche text author work g)
  else
    Returned (chunk_seneca_morals text author work g).

(** The (label, text) pairs of the chunks a call returned. *)
Definition labels_of (r : outcome (list chunk * rng)) : option pair_list :=
  match r with
  | Returned (cs, _) => Some (map labelled cs)
  | Raised _ => None
  end.

End Router.

(** ** Quote hash

    [hashlib.md5] is RFC 1321; words are [Z] reduced modulo [2^32]. *)

Module MD5.

Open Scope Z_scope.

Definition w32 (x : Z) : Z := x mod 4294967296.

Definition rotl (x : Z) (c : Z) : Z :=
  w32 (Z.lor (Z.shiftl x c) (Z.shiftr (w32 x) (32 - c))).

Definition shifts : list Z :=
  [7; 12; 17; 22; 7; 12; 17; 22; 7; 12; 17; 22; 7; 12; 17; 22;
   5; 9; 14; 20; 5; 9; 14; 20; 5; 9; 14; 20; 5; 9; 14; 20;
   4; 11; 16; 23; 4; 11; 16; 23; 4; 11; 16; 23; 4; 11; 16; 23;
   6; 10; 15; 21; 6; 10; 15; 21; 6; 10; 15; 21; 6; 10; 15; 21].

Definition sines : list Z :=
  [3614090360; 3905402710; 606105819; 3250441966; 4118548399; 1200080426; 2821735955; 4249261313;
   1770035416; 2336552879; 4294925233; 2304563134; 1804603682; 4254626195; 2792965006; 1236535329;
   4129170786; 3225465664; 643717713; 3921069994; 3593408605; 38016083; 3634488961; 3889429448;
   568446438; 3275163606; 4107603335; 1163531501; 2850285829; 4243563512; 1735328473; 2368359562;
   4294588738; 2272392833; 1839030562; 4259657740; 2763975236; 1272893353; 4139469664; 3200236656;
   681279174; 3936430074; 3572445317; 76029189; 3654602809; 3873151461; 530742520; 3299628645;
   4096336452; 1126891415; 2878612391; 4237533241; 1700485571; 2399980690; 4293915773; 2240044497;
   1873313359; 4264355552; 2734768916; 1309151649; 4149444226; 3174756917; 718787259; 3951481745].

Definition mix (i : nat) (b c d : Z) : Z :=
  if Nat.ltb i 16 then Z.lor (Z.land b c) (Z.land (Z.lxor b 4294967295) d)
  else if Nat.ltb i 32 then Z.lor (Z.land d b) (Z.land (Z.lxor d 4294967295) c)
  else if Nat.ltb i 48 then Z.lxor (Z.lxor b c) d
  else Z.lxor c (Z.lor b (Z.lxor d 4294967295)).

Definition word_index (i : nat) : nat :=
  if Nat.ltb i 16 then i
  else if Nat.ltb i 32 then (5 * i + 1) mod 16
  else if Nat.ltb i 48 then (3 * i + 5) mod 16
  else (7 * i) mod 16.

Definition round (m : list Z) (st : Z * Z * Z * Z) (i : nat) : Z * Z * Z * Z :=
  let '(a, b, c, d) := st in
  let f := w32 (mix i b c d + a + nth i sines 0 + nth (word_index i) m 0) in
  (d, w32 (b + rotl f (nth i shifts 0)), b, c).

(** Four bytes, least significant first, as one word. *)
Definition word_of (bs : list Z) : Z :=
  nth 0 bs 0 + 256 * nth 1 bs 0 + 65536 * nth 2 bs 0 + 16777216 * nth 3 bs 0.

Fixpoint words (n : nat) (bs : list Z) : list Z :=
  match n with
  | O => []
  | S k => word_of (firstn 4 bs) :: words k (skipn 4 bs)
  end.

Definition block (st : Z * Z * Z * Z) (bs : list Z) : Z * Z * Z * Z :=
  let m := words 16 bs in
  let '(a0, b0, c0, d0) := st in
  let '(a, b, c, d) := fold_left (round m) (List.seq 0 64) st in
  (w32 (a0 + a), w32 (b0 + b), w32 (c0 + c), w32 (d0 + d)).

Fixpoint le_bytes (n : nat) (x : Z) : list Z :=
  match n with
  | O => []
  | S k => (x mod 256) :: le_bytes k (x / 256)
  end.

Definition pad (msg : list Z) : list Z :=
  let len := Z.of_nat (List.length msg) in
  let zeros := Z.to_nat ((55 - len) mod 64) in
  (msg ++ [128] ++ repeat 0 zeros ++ le_bytes 8 (w32 (8 * len) + 4294967296 * ((8 * len / 4294967296) mod 4294967296)))%list.

Fixpoint blocks (n : nat) (st : Z * Z * Z * Z) (bs : list Z) : Z * Z * Z * Z :=
  match n with
  | O => st
  | S k => blocks k (block st (firstn 64 bs)) (skipn 64 bs)
  end.

Definition digest (msg : list Z) : list Z :=
  let p := pad msg in
  let '(a, b, c, d) :=
    blocks (List.length p / 64) (1732584193, 4023233417, 2562383102, 271733878) p in
  (le_bytes 4 a ++ le_bytes 4 b ++ le_bytes 4 c ++ le_bytes 4 d)%list.

Close Scope Z_scope.

Definition hex_digit (n : nat) : ascii :=
  nth n ["0"; "1"; "2"; "3"; "4"; "5"; "6"; "7"; "8"; "9"; "a"; "b"; "c"; "d"; "e"; "f"]%char "0"%char.

Fixpoint hex (bs : list Z) : string :=
  match bs with
  | [] => ""
  | b :: rest =>
      String (hex_digit (Z.to_nat b / 16)) (String (hex_digit (Z.to_nat b mod 16)) (hex rest))
  end.

(** [s.encode()]: UTF-8 of code points below 256. *)
Fixpoint encode (s : string) : list Z :=
  match s with
  | "" => []
  | String c s' =>
      let n := Z.of_nat (nat_of_ascii c) in
      if Z.ltb n 128 then n :: encode s'
      else (192 + n / 64)%Z :: (128 + n mod 64)%Z :: encode s'
  end.

(** [hashlib.md5(b).hexdigest()] *)
Definition hexdigest (bs : list Z) : string := hex (digest bs).

End MD5.

Definition generate_quote_hash (quote_text author : string) : string :=
  let combined := lower (strip quote_text) ++ "||" ++ lower (strip author) in
  MD5.hexdigest (MD5.encode combined).

(** ** Quote scraping: one page

    The browser is outside the model.  What the driver returns for an element
    is data: the text of a link, or [None] where the driver raises (the
    element is missing or stale), which the loops answer with [continue]. *)

Module Scraper.

Record quote := mkQuote {
  quote_text : string;
  author : string;
  source_url : string
}.

(** A quote link of the fallback path: its text, the text of the author
    link under its parent, and the text of the first author link after it. *)
Record link := mkLink {
  link_text : option string;
  parent_author : option string;
  following_author : option string
}.

(** A container: the text of its quote link and of its author link. *)
Record container := mkContainer {
  quote_link : option string;
  author_link : option string
}.

(** What the driver finds on a loaded page. *)
Record page := mkPage {
  containers : list container;
  quote_links : list link
}.

Record state := mkState {
  quotes : list quote;
  seen_on_page : list string
}.

Definition init : state := mkState [] [].

Definition share : string := "Share this Quote".

(** [f"{quote_text[:50]}||{author}"] *)
Definition quote_key (quote_text author : string) : string :=
  slice_to 50 quote_text ++ "||" ++ author.

(** [if author and quote_text and len(author) > 2:] with its body, the
    same in both paths. *)
Definition keep (url quote_text author : string) (st : state) : state :=
  if truthy_str author && truthy_str quote_text && Nat.ltb 2 (length author) then
    let key := quote_key quote_text author in
    if negb (mem key (seen_on_page st))
    then mkState (quotes st ++ [mkQuote quote_text author url])%list (key :: seen_on_page st)
    else st
  else st.

(** One turn of [for quote_link in quote_links]. *)
Definition link_step (url : string) (st : state) (l : link) : state :=
  match link_text l with
  | None => st
  | Some t =>
      let quote_text := strip t in
      if negb (truthy_str quote_text) || Nat.ltb (length quote_text) 15
         || contains share quote_text
      then st
      else
        let quote_text := strip (replace share "" quote_text) in
        match parent_author l with
        | Some a => keep url quote_text (strip a) st
        | None =>
            match following_author l with
            | Some a => keep url quote_text (strip a) st
            | None => st
            end
        end
  end.

(** One turn of [for container in containers]. *)
Definition container_step (url : string) (st : state) (c : container) : state :=
  match quote_link c with
  | None => st
  | Some t =>
      let quote_text := strip (replace share "" (strip t)) in
      if negb (truthy_str quote_text) || Nat.ltb (length quote_text) 15 then st
      else
        match author_link c with
        | None => st
        | Some a => keep url quote_text (strip a) st
        end
  end.

(** [scrape_quotes_from_page]; [None] is a page the driver could not load,
    for which the outer [except] returns the empty list. *)
Definition scrape_quotes_from_page (p : option page) (url : string) : list quote :=
  match p with
  | None => []
  | Some pg =>
      if nonempty (containers pg)
      then quotes (fold_left (container_step url) (containers pg) init)
      else quotes (fold_left (link_step url) (quote_links pg) init)
  end.

Definition key_of (q : quote) : string := quote_key (quote_text q) (author q).

End Scraper.

(** ** Quote upload

    The remote table is a state with two operations: the select by hash,
    which says whether a row was found or raises ([None]), and the insert,
    which returns the table and whether it went through ([false]: it raised). *)

Module QuoteUpload.

Record row := mkRow {
  row_quote_text : string;
  row_author : string;
  row_source_url : string;
  row_quote_hash : string
}.

Section Table.

Variable db : Type.
Variable select_hash : db -> string -> option bool.
Variable insert_row : db -> row -> db * bool.

Record state := mkState {
  table : db;
  inserted_count : nat;
  skipped_count : nat
}.

(** One turn of [for quote in quotes]. *)
Definition step (st : state) (q : Scraper.quote) : state :=
  let quote_hash := generate_quote_hash (Scraper.quote_text q) (Scraper.author q) in
  match select_hash (table st) quote_hash with
  | None => st
  | Some true => mkState (table st) (inserted_count st) (S (skipped_count st))
  | Some false =>
      let data := mkRow (Scraper.quote_text q) (Scraper.author q) (Scraper.source_url q)
                        quote_hash in
      let (d, ok) := insert_row (table st) data in
      if ok then mkState d (S (inserted_count st)) (skipped_count st)
      else mkState d (inserted_count st) (skipped_count st)
  end.

Definition upload_quotes_to_supabase (quotes : list Scraper.quote) (d : db) : state :=
  fold_left step quotes (mkState d 0 0).

End Table.

(** A table that never raises: a list of rows. *)
Definition list_select (d : list row) (h : string) : option bool :=
  Some (existsb (fun r => String.eqb (row_quote_hash r) h) d).

Definition list_insert (d : list row) (r : row) : list row * bool := ((d ++ [r])%list, true).

Definition upload_to_list (quotes : list Scraper.quote) (d : list row) : state (list row) :=
  upload_quotes_to_supabase (list row) list_select list_insert quotes d.

End QuoteUpload.

(** ** Chunk upload

    The embedding model and the remote table are outside the model: the
    encoder maps the texts of a batch to embeddings or raises ([None], which
    nothing in [upload_to_supabase] catches), the insert returns the table
    and whether it went through. *)

Module ChunkUpload.

Definition batch_size : nat := 20.

Section Upload.

Variable embedding : Type.
Variable db : Type.
Variable encode : list string -> option (list embedding).

Record record := mkRecord {
  rec_id : string;
  rec_author : string;
  rec_work : string;
  rec_section : string;
  rec_text : string;
  rec_chunk_index : nat;
  rec_embedding : embedding
}.

Variable insert : db -> list record -> db * bool.

(** [range(0, n, batch_size)] *)
Definition batch_starts (n : nat) : list nat :=
  map (fun k => k * batch_size) (List.seq 0 ((n + batch_size - 1) / batch_size)).

(** [chunks[i:i + batch_size]] *)
Definition batch_at {A} (chunks : list A) (i : nat) : list A :=
  firstn batch_size (skipn i chunks).

Definition batches {A} (chunks : list A) : list (list A) :=
  map (batch_at chunks) (batch_starts (List.length chunks)).

(** The records of [for chunk, embedding in zip(batch, embeddings)]. *)
Definition records_of (batch : list chunk) (embeddings : list embedding) : list record :=
  map (fun ce : chunk * embedding =>
         let (c, e) := ce in
         mkRecord (chunk_id c) (chunk_author c) (chunk_work c) (chunk_section c)
                  (chunk_text_body c) (chunk_index c) e)
      (combine batch embeddings).

Inductive result : Type :=
| Uploaded (d : db) (total_uploaded : nat)
| EncoderRaised (d : db) (total_uploaded : nat).

(** The [for] loop over the batches, from table [d] and count [total]. *)
Fixpoint upload_batches (bs : list (list chunk)) (d : db) (total : nat) : result :=
  match bs with
  | [] => Uploaded d total
  | batch :: rest =>
      match encode (map chunk_text_body batch) with
      | None => EncoderRaised d total
      | Some embeddings =>
          let records := records_of batch embeddings in
          let (d', ok) := insert d records in
          if ok then upload_batches rest d' (total + List.length records)
          else upload_batches rest d' total
      end
  end.

Definition upload_to_supabase (chunks : list chunk) (d : db) : result :=
  upload_batches (batches chunks) d 0.

End Upload.

End ChunkUpload.

(** ** Shapes of the chunks each scanner returns *)

Module Shape.

(** A Marcus chunk: the label is a book heading and a listed numeral, and
    the text is a stripped paragraph that begins with that numeral. *)
Definition marcus_chunk (p : string * string) : Prop :=
  exists book n,
    fst p = book ++ " - Section " ++ n
    /\ In n Marcus.roman_numerals
    /\ contains "BOOK" (upper book) = true
    /\ nth 0 (split "." (strip (nth 0 (split NL (snd p)) ""))) "" = n
    /\ strip (snd p) = snd p
    /\ snd p <> "".

Definition marcus_state (st : Marcus.state) : Prop :=
  (forall b, Marcus.current_book st = Some b -> contains "BOOK" (upper b) = true)
  /\ Forall marcus_chunk (Marcus.chunks st).



(** A paragraph the Epictetus scan keeps. *)
Definition epictetus_paragraph (para : string) : Prop :=
  50 < length para
  /\ any_in Epictetus.boilerplate (lower para) = false
  /\ mem para Epictetus.roman_numerals = false
  /\ strip para = para.

(** An Epictetus chunk: "Section" and a listed numeral, over kept
    paragraphs joined by blank lines. *)
Definition epictetus_chunk (p : string * string) : Prop :=
  exists n paras,
    fst p = "Section " ++ n
    /\ In n Epictetus.roman_numerals
    /\ snd p = join (NL ++ NL) paras
    /\ paras <> []
    /\ Forall epictetus_paragraph paras.

Definition epictetus_state (st : Epictetus.state) : Prop :=
  (exists n, Epictetus.current_section st = "Section " ++ n
             /\ In n Epictetus.roman_numerals)
  /\ Forall epictetus_paragraph (Epictetus.current_section_content st)
  /\ Forall epictetus_chunk (Epictetus.chunks st).

(** A Seneca-dialogues chunk: a book header line and a listed numeral. *)
Definition dialogues_chunk (p : string * string) : Prop :=
  exists title n,
    fst p = title ++ " - Paragraph " ++ n
    /\ (Dialogues.book_match title = true \/ Dialogues.special_book title = true)
    /\ In n Dialogues.roman_numerals.

Definition dialogues_state (st : Dialogues.state) : Prop :=
  Dialogues.current_book_title st = Dialogues.current_book st
  /\ (forall b, Dialogues.current_book st = Some b ->
                Dialogues.book_match b = true \/ Dialogues.special_book b = true)
  /\ (Dialogues.current_paragraph st <> [] ->
      (exists n, Dialogues.current_paragraph_num st = Some n
                 /\ In n Dialogues.roman_numerals)
      /\ exists b, Dialogues.current_book st = Some b)
  /\ Forall dialogues_chunk (Dialogues.chunks st).

(** A Seneca-morals label begins with the main section it belongs to. *)
Definition morals_chunk (p : string * string) : Prop :=
  startswith (fst p) "SENECA OF " = true.

Definition morals_state (st : Morals.state) : Prop :=
  (exists s, Morals.current_main_section st = Some s /\ startswith s "SENECA OF " = true)
  /\ Forall morals_chunk (Morals.chunks st).

End Shape.

(** ** Statements about the scraper and the uploads *)

Module Shape2.

(** A quote the page scraper may return for [url]. *)
Definition valid_quote (url : string) (q : Scraper.quote) : Prop :=
  15 <= length (Scraper.quote_text q)
  /\ 2 < length (Scraper.author q)
  /\ Scraper.source_url q = url
  /\ strip (Scraper.quote_text q) = Scraper.quote_text q
  /\ strip (Scraper.author q) = Scraper.author q.

(** What holds of the scraper's state while a page is processed. *)
Definition scraper_state (url : string) (st : Scraper.state) : Prop :=
  (forall k, In k (Scraper.seen_on_page st)
             <-> In k (map Scraper.key_of (Scraper.quotes st)))
  /\ NoDup (map Scraper.key_of (Scraper.quotes st))
  /\ Forall (valid_quote url) (Scraper.quotes st).

(** The hash under which a quote is stored. *)
Definition hash_of (q : Scraper.quote) : string :=
  generate_quote_hash (Scraper.quote_text q) (Scraper.author q).

Definition hashes (d : list QuoteUpload.row) : list string :=
  map QuoteUpload.row_quote_hash d.

(** A lowercase hexadecimal digit. *)
Definition is_hex (c : ascii) : bool :=
  between 48 57 (nat_of_ascii c) || between 97 102 (nat_of_ascii c).

Fixpoint all_hex (s : string) : bool :=
  match s with
  | "" => true
  | String c s' => is_hex c && all_hex s'
  end.

(** A table of chunk records that never raises: a list. *)
Definition list_insert {E : Type} (d rs : list (ChunkUpload.record E))
  : list (ChunkUpload.record E) * bool := ((d ++ rs)%list, true).

(** A table of chunk records that stores the batches it accepts and raises
    on the others. *)
Definition selective_insert {E : Type} (accept : list (ChunkUpload.record E) -> bool)
           (d rs : list (ChunkUpload.record E)) : list (ChunkUpload.record E) * bool :=
  if accept rs then ((d ++ rs)%list, true) else (d, false).

(** The chunk a record was made from. *)
Definition chunk_of {E : Type} (r : ChunkUpload.record E) : chunk :=
  mkChunk (ChunkUpload.rec_id E r) (ChunkUpload.rec_author E r) (ChunkUpload.rec_work E r)
          (ChunkUpload.rec_section E r) (ChunkUpload.rec_text E r)
          (ChunkUpload.rec_chunk_index E r).

End Shape2.

(** ** Pagination of the quote site *)

From Stdlib Require Import DecimalString DecimalNat.
From Stdlib Require DecimalFacts.

Module Pages.

Definition BASE_URL : string :=
  "https://www.brainyquote.com/profession/quotes-by-philosophers".

(** CPython's default limit on the number of digits [int(s)] and [str(n)]
    convert ([sys.int_max_str_digits]); both raise [ValueError] beyond it. *)
Definition max_str_digits : nat := 4300.

(** The decimal digits of [n]: what [str(n)] returns for an [int] that is
    not negative and has at most [max_str_digits] digits. *)
Definition str (n : nat) : string := NilEmpty.string_of_uint (Nat.to_uint n).

(** The number a string of decimal digits denotes. *)
Definition value (s : string) : nat :=
  match NilEmpty.uint_of_string s with
  | Some d => Nat.of_uint d
  | None => 0
  end.

(** [int(s)] for a string of decimal digits that is not empty, the only
    strings it is applied to; [None] is the [ValueError] raised for more
    than [max_str_digits] digits. *)
Definition int (s : string) : option nat :=
  if Nat.ltb max_str_digits (length s) then None else Some (value s).

Fixpoint leading_digits (s : string) : string :=
  match s with
  | String c s' => if isdigit c then String c (leading_digits s') else ""
  | "" => ""
  end.

(** [(\d+)$] at a position: the digits, when they run to the end of the
    string or to a newline that ends it. *)
Definition group_at (s : string) : option string :=
  let ds := leading_digits s in
  let rest := lstrip_by isdigit s in
  if truthy_str ds && (String.eqb rest "" || String.eqb rest NL) then Some ds else None.

(** [re.search(r'_(\d+)$', href)]: group 1 of the leftmost match. *)
Fixpoint search_page (s : string) : option string :=
  match s with
  | "" => None
  | String c s' =>
      if Ascii.eqb c "_" then
        match group_at s' with
        | Some ds => Some ds
        | None => search_page s'
        end
      else search_page s'
  end.

(** [match.group(1)] for a link that reaches [int]; [None] is a link that
    adds nothing: it has no [href], fails the filter, or does not match. *)
Definition page_group (href : option string) : option string :=
  match href with
  | None => None
  | Some h =>
      if truthy_str h && contains "quotes-by-philosophers_" h
      then search_page h
      else None
  end.

(** What one turn of [for link in page_links] does. *)
Inductive appended : Type :=
| Nothing
| Number (n : nat)
| ValueError.

Definition page_number (href : option string) : appended :=
  match page_group href with
  | None => Nothing
  | Some ds =>
      match int ds with
      | Some n => Number n
      | None => ValueError
      end
  end.

(** [page_numbers] when the loop ends; [None] when [int] raised. *)
Fixpoint page_numbers (hrefs : list (option string)) : option (list nat) :=
  match hrefs with
  | [] => Some []
  | href :: rest =>
      match page_number href with
      | ValueError => None
      | Nothing => page_numbers rest
      | Number n => option_map (cons n) (page_numbers rest)
      end
  end.

(** [max(l)] for a list that is not empty. *)
Definition py_max (l : list nat) : nat := fold_left Nat.max (tl l) (hd 0 l).

(** [get_total_pages]; [None] is a page whose pagination the driver could
    not read.  Every exception inside the [try], the [ValueError] of [int]
    included, ends in [return 18]. *)
Definition get_total_pages (links : option (list (option string))) : nat :=
  match links with
  | None => 18
  | Some hrefs =>
      match page_numbers hrefs with
      | None => 18
      | Some numbers => if nonempty numbers then py_max numbers else 1
      end
  end.

(** The digit groups the loop hands to [int], in order. *)
Definition page_groups (hrefs : list (option string)) : list string :=
  flat_map (fun href => match page_group href with Some ds => [ds] | None => [] end) hrefs.

(** The URL [main] requests for page [page_num] of [range(2, total_pages + 1)].
    [page_num] is at most [total_pages], which [get_total_pages] returned,
    so it has at most [max_str_digits] digits and the formatting does not
    raise. *)
Definition page_url (page_num : nat) : string := BASE_URL ++ "_" ++ str page_num.

(** The URLs [main] requests, in order. *)
Definition page_urls (total_pages : nat) : list string :=
  BASE_URL :: map page_url (List.seq 2 (total_pages + 1 - 2)).

End Pages.

(** ** Cleaning of the text taken from the HTML

    The part of [fetch_gutenberg_text] after [soup.get_text(separator=' ')]:
    the two substitutions on the whole text, then the same clean-up line by
    line.  The download and the HTML parser are outside the model. *)

Module Fetch.

(** [re.sub(p, repl, s)] for a pattern that matches no empty string; [repl]
    maps the matched text to what replaces it. *)
Fixpoint sub_with (m : Re.matcher) (repl : string -> string) (s : string) (skip : nat)
  : string :=
  match s with
  | "" => ""
  | String c s' =>
      match skip with
      | S k => sub_with m repl s' k
      | O =>
          match m s with
          | Some r =>
              repl (substring 0 (length s - length r) s)
              ++ sub_with m repl s' (length s - length r - 1)
          | None => String c (sub_with m repl s' 0)
          end
      end
  end.

Definition is_blank (c : ascii) : bool := Ascii.eqb c " ".

Definition is_punct (c : ascii) : bool :=
  existsb (Ascii.eqb c) ["."; ","; ";"; ":"; "!"; "?"]%char.

(** [ +] *)
Definition blanks : Re.matcher :=
  fun s =>
    match s with
    | String c s' => if is_blank c then Some (lstrip_by is_blank s') else None
    | "" => None
    end.

(** [\s+([.,;:!?])] *)
Definition space_punct : Re.matcher :=
  fun s =>
    match s with
    | String c s' =>
        if isspace c then
          match lstrip_by isspace s' with
          | String p r => if is_punct p then Some r else None
          | "" => None
          end
        else None
    | "" => None
    end.

(** The replacement [r'\1']: the group is the last character of the match. *)
Definition group1 (matched : string) : string :=
  substring (length matched - 1) 1 matched.

(** [re.sub(r' +', ' ', s)] *)
Definition collapse_spaces (s : string) : string := sub_with blanks (fun _ => " ") s 0.

(** [re.sub(r'\s+([.,;:!?])', r'\1', s)] *)
Definition tighten_punct (s : string) : string := sub_with space_punct group1 s 0.

(** The body of [for line in lines]. *)
Definition clean_line (line : string) : string :=
  tighten_punct (collapse_spaces (strip line)).

(** From [text = re.sub(r' +', ' ', text)] to the [return] of the [try]. *)
Definition clean_text (text : string) : string :=
  let text := collapse_spaces text in
  let text := tighten_punct text in
  let lines := split NL text in
  join NL (map clean_line lines).

(** The characters of a string that are not whitespace, in order. *)
Fixpoint ink (s : string) : string :=
  match s with
  | "" => ""
  | String c s' => if isspace c then ink s' else String c (ink s')
  end.

(** What a match [a] of [ +] followed by the rest [r] looks like: blanks
    only, and as many as there are. *)
Definition blank_match (a r : string) : Prop :=
  lstrip_by is_blank a = "" /\ lstrip_by is_blank r = r.

(** A match of [\s+([.,;:!?])]: whitespace, then one of the six marks. *)
Definition space_punct_match (a r : string) : Prop :=
  exists w p,
    a = w ++ String p "" /\ w <> "" /\ lstrip_by isspace w = "" /\ is_punct p = true.

(** No blank is followed by a blank. *)
Fixpoint no_double_blank (s : string) : bool :=
  match s with
  | String a (String b _ as s') =>
      negb (is_blank a && is_blank b) && no_double_blank s'
  | _ => true
  end.

(** No whitespace character is followed by one of [.,;:!?]. *)
Fixpoint no_space_before_punct (s : string) : bool :=
  match s with
  | String a (String b _ as s') =>
      negb (isspace a && is_punct b) && no_space_before_punct s'
  | _ => true
  end.

End Fetch.

(** ** Definitions used to state the properties *)

Module Spec.





(** Two characters that are equal or the two cases of one letter: a capital
    and the small letter [lower] gives for it.  The small letters without a
    capital of their own below 256 (code points 170, 181, 186, 223, 255) pair
    with no other character. *)
Inductive same_letter : ascii -> ascii -> Prop :=
| same_char c : same_letter c c
| to_lower c : char_isupper c = true -> same_letter c (char_lower c)
| to_upper c : char_isupper c = true -> same_letter (char_lower c) c.

(** Two strings of the same length that differ, place by place, in letter
    case only. *)
Inductive case_variant : string -> string -> Prop :=
| cv_nil : case_variant "" ""
| cv_cons c d s t : same_letter c d -> case_variant s t ->
                    case_variant (String c s) (String d t).

Fixpoint all_space (s : string) : bool :=
  match s with
  | "" => true
  | String c s' => isspace c && all_space s'
  end.

(** Two strings that differ only by letters changed one for one into their
    other case and by the whitespace around them.  A case change that
    changes the length, as [upper] makes of a sharp s, is not of this kind. *)
Definition variant (s t : string) : Prop :=
  exists l r l' r' core core',
    all_space l = true /\ all_space r = true /\
    all_space l' = true /\ all_space r' = true /\
    case_variant core core' /\
    s = l ++ core ++ r /\ t = l' ++ core' ++ r'.

(** A word with a sharp s (code point 223): [upper] writes SS for it, and
    [lower] does not bring the sharp s back. *)
Definition strasse : string := "Stra" ++ chr 223 ++ "e".

(** The input of the Marcus scenario, and the same lines with a blank
    line after each book heading. *)
Definition scenario_text : string :=
  "PREFACE..." ++ NL ++ "THE FIRST BOOK" ++ NL ++ "I. Of my grandfather, Something." ++ NL
  ++ "More text." ++ NL ++ NL ++ "THE SECOND BOOK" ++ NL ++ "I. Another." ++ NL.

Definition scenario_text_spaced : string :=
  "PREFACE..." ++ NL ++ "THE FIRST BOOK" ++ NL ++ NL ++ "I. Of my grandfather, Something." ++ NL
  ++ "More text." ++ NL ++ NL ++ "THE SECOND BOOK" ++ NL ++ NL ++ "I. Another." ++ NL.

(** A generator that counts: the draw from state [n] is a string of [n] marks. *)
Fixpoint marks (n : nat) : string :=
  match n with O => "" | S k => String "u" (marks k) end.

Definition counter_uuid4 (n : nat) : string * nat := (marks n, S n).

(** [n] copies of [s]. *)
Fixpoint copies (n : nat) (s : string) : string :=
  match n with O => "" | S k => s ++ copies k s end.

(** A pagination link whose page number has 4301 digits. *)
Definition long_page_url : string := Pages.BASE_URL ++ "_" ++ copies 4301 "9".

(** A download with both Gutenberg markers, and one cut before the end marker. *)
Definition with_both_markers : string :=
  "junk" ++ NL ++ "*** START OF THE BOOK ***" ++ NL ++ "body" ++ NL
  ++ "*** END OF THE BOOK ***" ++ NL ++ "licence".

Definition without_end_marker : string :=
  "junk" ++ NL ++ "*** START OF THE BOOK ***" ++ NL ++ "body".

(** Lines of the Seneca-morals scan: a section or chapter marker, and a
    line that is neither. *)
Definition morals_marker (l : string) : Prop :=
  Morals.is_section_header (strip l) = true \/ Morals.is_chapter_header (strip l) = true.

Definition morals_plain (l : string) : Prop :=
  Morals.is_section_header (strip l) = false /\ Morals.is_chapter_header (strip l) = false.

(** The state the Seneca-morals scan is in after a chapter header for
    which the look-ahead found no title. *)
Definition morals_toc_state (st : Morals.state) : Morals.state :=
  Morals.mkState (Morals.current_main_section st) None (Morals.current_chapter_title st)
                 [] (Morals.flush st).

Definition morals_in_benefits : Morals.state :=
  Morals.mkState (Some "SENECA OF BENEFITS") None None [] [].

(** Lines of the Seneca-dialogues scan: a book header of either kind,
    and a line that is not one. *)
Definition dialogues_book (l : string) : Prop :=
  Dialogues.book_match (strip l) = true \/ Dialogues.special_book (strip l) = true.

Definition dialogues_not_book (l : string) : Prop :=
  Dialogues.book_match (strip l) = false /\ Dialogues.special_book (strip l) = false.

(** What holds of every state the Seneca-dialogues scan reaches. *)
Definition dialogues_wf (st : Dialogues.state) : Prop :=
  (nonempty (Dialogues.current_paragraph st) = true ->
   truthy (Dialogues.current_paragraph_num st) = true)
  /\ (Dialogues.in_footnotes st = true -> Dialogues.current_paragraph st = []).

(** A dialogue with a footnote line between paragraphs I and II. *)
Definition dialogue_lines : list string :=
  ["THE FIRST BOOK OF THE DIALOGUES";
   "I. " ++ copies 110 "a";
   "[1] A note on the paragraph.";
   "II. " ++ copies 110 "b";
   copies 40 "c"].

Definition dialogue_text : string := join NL dialogue_lines.


(** A Marcus text whose only section is twenty characters long. *)
Definition short_marcus_text : string :=
  "THE FIRST BOOK" ++ NL ++ NL ++ "I. Of my grandfather".

End Spec.

(** ** Chunk emitter *)

Section EmitterFacts.

Variable rng : Type.
Variable uuid4 : rng -> string * rng.

Lemma create_from_labelled (chunks : pair_list) :
  forall i author work g,
    map labelled (fst (create_from rng uuid4 i chunks author work g)) = chunks.
Proof.
  induction chunks as [|[section text] rest IH]; intros i author work g; simpl.
  - reflexivity.
  - destruct (uuid4 g) as [u g1].
    specialize (IH (S i) author work g1).
    destruct (create_from rng uuid4 (S i) rest author work g1) as [cs g2].
    simpl in *. now rewrite IH.
Qed.

Lemma create_from_index (chunks : pair_list) :
  forall i author work g,
    map chunk_index (fst (create_from rng uuid4 i chunks author work g))
    = List.seq i (List.length chunks).
Proof.
  induction chunks as [|[section text] rest IH]; intros i author work g; simpl.
  - reflexivity.
  - destruct (uuid4 g) as [u g1].
    specialize (IH (S i) author work g1).
    destruct (create_from rng uuid4 (S i) rest author work g1) as [cs g2].
    simpl in *. now rewrite IH.
Qed.

Lemma create_from_ids (chunks : pair_list) :
  forall i author work g,
    map chunk_id (fst (create_from rng uuid4 i chunks author work g))
    = draws rng uuid4 (List.length chunks) g
    /\ snd (create_from rng uuid4 i chunks author work g)
       = advance rng uuid4 (List.length chunks) g.
Proof.
  induction chunks as [|[section text] rest IH]; intros i author work g; simpl.
  - split; reflexivity.
  - destruct (uuid4 g) as [u g1] eqn:E.
    specialize (IH (S i) author work g1).
    destruct (create_from rng uuid4 (S i) rest author work g1) as [cs g2].
    simpl in *. destruct IH as [IH1 IH2]. split.
    + now rewrite IH1.
    + exact IH2.
Qed.

Lemma create_from_owner (chunks : pair_list) :
  forall i author work g,
    Forall (fun c => chunk_author c = author /\ chunk_work c = work)
           (fst (create_from rng uuid4 i chunks author work g)).
Proof.
  induction chunks as [|[section text] rest IH]; intros i author work g; simpl.
  - constructor.
  - destruct (uuid4 g) as [u g1].
    specialize (IH (S i) author work g1).
    destruct (create_from rng uuid4 (S i) rest author work g1) as [cs g2].
    simpl in *. constructor; [split; reflexivity | exact IH].
Qed.

Lemma create_chunk_objects_labelled chunks author work g :
  map labelled (fst (create_chunk_objects rng uuid4 chunks author work g)) = chunks.
Proof. apply create_from_labelled. Qed.

(** C7: [create_chunk_objects] returns one record per input pair, in input
    order, with [chunk_index] running 0, 1, ..., n-1, each record carrying
    the author and work given, and the identifier of the k-th record is the
    k-th draw of the generator, which is left advanced by n draws. *)
Theorem create_chunk_objects_contiguous (chunks : pair_list) (author work : string) (g : rng) :
  let out := create_chunk_objects rng uuid4 chunks author work g in
  List.length (fst out) = List.length chunks
  /\ map labelled (fst out) = chunks
  /\ map chunk_index (fst out) = List.seq 0 (List.length chunks)
  /\ NoDup (map chunk_index (fst out))
  /\ map chunk_id (fst out) = draws rng uuid4 (List.length chunks) g
  /\ snd out = advance rng uuid4 (List.length chunks) g
  /\ Forall (fun c => chunk_author c = author /\ chunk_work c = work) (fst out).
Proof.
  intro out. subst out. unfold create_chunk_objects.
  pose proof (create_from_labelled chunks 0 author work g) as HL.
  pose proof (create_from_index chunks 0 author work g) as HI.
  pose proof (create_from_ids chunks 0 author work g) as [HD HA].
  pose proof (create_from_owner chunks 0 author work g) as HO.
  repeat split; try assumption.
  - rewrite <- (length_map labelled), HL. reflexivity.
  - rewrite HI. apply seq_NoDup.
Qed.

End EmitterFacts.

(** ** Router *)

Section RouterFacts.

Variable rng : Type.
Variable uuid4 : rng -> string * rng.

(** C9: the title "Seneca's Morals" is routed to [chunk_seneca_morals], the
    title "Some Unknown Work" falls through every keyword test to the same
    function, and for every input text the two calls return the same
    (label, text) pairs, those of the Seneca-morals scan of the located
    content, whatever the author and the generator state of either call. *)
Theorem router_morals_and_fallback (text author1 author2 : string) (g1 g2 : rng) :
  chunk_text rng uuid4 text author1 "Seneca's Morals" g1
  = Returned (chunk_seneca_morals rng uuid4 (extract_content text) author1 "Seneca's Morals" g1)
  /\ chunk_text rng uuid4 text author2 "Some Unknown Work" g2
     = Returned (chunk_seneca_morals rng uuid4 (extract_content text) author2 "Some Unknown Work" g2)
  /\ labels_of rng (chunk_text rng uuid4 text author1 "Seneca's Morals" g1)
     = Some (Morals.scan (extract_content text))
  /\ labels_of rng (chunk_text rng uuid4 text author2 "Some Unknown Work" g2)
     = labels_of rng (chunk_text rng uuid4 text author1 "Seneca's Morals" g1).
Proof.
  assert (H1 : chunk_text rng uuid4 text author1 "Seneca's Morals" g1
    = Returned (chunk_seneca_morals rng uuid4 (extract_content text) author1
                  "Seneca's Morals" g1)) by reflexivity.
  assert (H2 : chunk_text rng uuid4 text author2 "Some Unknown Work" g2
    = Returned (chunk_seneca_morals rng uuid4 (extract_content text) author2
                  "Some Unknown Work" g2)) by reflexivity.
  assert (L : forall a w g,
    labels_of rng (Returned (chunk_seneca_morals rng uuid4 (extract_content text) a w g))
    = Some (Morals.scan (extract_content text))).
  { intros a w g. unfold labels_of, chunk_seneca_morals.
    pose proof (create_chunk_objects_labelled rng uuid4
                  (Morals.scan (extract_content text)) a w g) as E.
    destruct (create_chunk_objects rng uuid4 (Morals.scan (extract_content text)) a w g)
      as [cs g'].
    simpl in E. now rewrite E. }
  repeat split; try assumption.
  - rewrite H1. apply L.
  - rewrite H1, H2, !L. reflexivity.
Qed.

(** C5: for the title "The Republic" and every input text, author and
    generator state, [chunk_text] reaches the call of
    [chunk_plato_republic], a name the module never binds, and raises
    [NameError]; no chunk sequence is returned. *)
Theorem router_republic_raises (text author : string) (g : rng) :
  chunk_text rng uuid4 text author "The Republic" g
  = Raised (NameError "chunk_plato_republic")
  /\ labels_of rng (chunk_text rng uuid4 text author "The Republic" g) = None.
Proof. split; reflexivity. Qed.

End RouterFacts.

(** ** Roman-numeral lists *)

Lemma mem_In (x : string) (l : list string) : mem x l = true <-> In x l.
Proof.
  unfold mem. rewrite existsb_exists. split.
  - intros [y [Hy E]]. apply String.eqb_eq in E. now subst.
  - intro H. exists x. split; [assumption | apply String.eqb_refl].
Qed.




(** ** The Marcus scenario *)

(** C1 as stated fails: on the scenario text each book heading shares its
    blank-line-delimited paragraph with the section under it, the paragraph
    only sets the current book, and no chunk is produced. *)
Lemma marcus_scenario_no_chunks :
  Marcus.scan (extract_content Spec.scenario_text) = []
  /\ map fst (Marcus.scan (extract_content Spec.scenario_text))
     <> ["THE FIRST BOOK - Section I"; "THE SECOND BOOK - Section I"].
Proof. split; [reflexivity | discriminate]. Qed.

Section MarcusScenario.

Variable rng : Type.
Variable uuid4 : rng -> string * rng.

(** C1, as the code has it: on the scenario text the scanner returns no
    chunk; with a blank line after each book heading it returns exactly two
    chunks, labelled "THE FIRST BOOK - Section I" and
    "THE SECOND BOOK - Section I" in that order, each holding the paragraph
    that starts at its Roman-numeral marker, indexed 0 and 1, with no preface
    text in either. *)
Theorem marcus_scenario_chunks (author work : string) (g : rng) :
  fst (chunk_marcus_meditations rng uuid4 (extract_content Spec.scenario_text) author work g) = []
  /\ map labelled
       (fst (chunk_marcus_meditations rng uuid4
               (extract_content Spec.scenario_text_spaced) author work g))
     = [("THE FIRST BOOK - Section I", "I. Of my grandfather, Something." ++ NL ++ "More text.");
        ("THE SECOND BOOK - Section I", "I. Another.")]
  /\ map chunk_index
       (fst (chunk_marcus_meditations rng uuid4
               (extract_content Spec.scenario_text_spaced) author work g))
     = [0; 1]
  /\ Forall (fun p => contains "PREFACE" (snd p) = false)
            (Marcus.scan (extract_content Spec.scenario_text_spaced)).
Proof.
  unfold chunk_marcus_meditations.
  assert (E0 : Marcus.scan (extract_content Spec.scenario_text) = []) by reflexivity.
  assert (E1 : Marcus.scan (extract_content Spec.scenario_text_spaced)
    = [("THE FIRST BOOK - Section I", "I. Of my grandfather, Something." ++ NL ++ "More text.");
       ("THE SECOND BOOK - Section I", "I. Another.")]) by reflexivity.
  rewrite E0, E1. split; [reflexivity|]. split.
  - apply create_chunk_objects_labelled.
  - split.
    + unfold create_chunk_objects. apply (create_from_index rng uuid4).
    + repeat constructor.
Qed.

End MarcusScenario.

(** ** Boundary locator *)

Lemma index_ge (s1 s2 : string) :
  forall n m, index n s1 s2 = Some m -> n <= m.
Proof.
  induction s2 as [|b s2' IH]; intros n m H; simpl in H.
  - destruct n; [lia | discriminate].
  - destruct n as [|n'].
    + lia.
    + destruct (index n' s1 s2') as [k|] eqn:E; [|discriminate].
      injection H as <-. apply IH in E. lia.
Qed.

Lemma start_marker_has_no_newline (k : nat) :
  k < 12 -> get k "*** START OF" <> Some (ascii_of_nat 10).
Proof.
  intro H.
  do 12 (destruct k as [|k]; [discriminate|]).
  lia.
Qed.

(** A newline found from the start marker on lies after the whole marker. *)
Lemma newline_after_start_marker (text : string) (si ni : nat) :
  find text "*** START OF" = Some si ->
  find_from text NL si = Some ni ->
  si + 12 <= ni.
Proof.
  unfold find, find_from. intros Hs Hn.
  pose proof (index_ge _ _ _ _ Hn) as Hle.
  destruct (Nat.lt_ge_cases ni (si + 12)) as [Hlt|Hge]; [exfalso | exact Hge].
  apply index_correct1 in Hs. apply index_correct1 in Hn.
  simpl length in Hs, Hn.
  assert (G1 : get (ni - si) "*** START OF" = get ni text).
  { rewrite <- Hs at 1. rewrite substring_correct1 by lia. f_equal. lia. }
  assert (G2 : get ni text = Some (ascii_of_nat 10)).
  { change (get (0 + ni) text = Some (ascii_of_nat 10)).
    rewrite <- substring_correct1 with (m := 1) by lia. now rewrite Hn. }
  apply (start_marker_has_no_newline (ni - si)); [lia | congruence].
Qed.

(** C3, as the code has it: when both markers occur and a newline occurs at
    or after the start marker, the result is the text from the first such
    newline (which lies past the marker) up to the first occurrence of the end
    marker, with surrounding whitespace stripped; in every other case (no
    end marker, no start marker, or no newline from the start marker on) the
    result is the whole text with surrounding whitespace stripped. *)
Theorem extract_content_cases (text : string) :
  (forall si ei ni,
      find text "*** START OF" = Some si ->
      find text "*** END OF" = Some ei ->
      find_from text NL si = Some ni ->
      extract_content text = strip (slice ni ei text) /\ si + 12 <= ni)
  /\ (forall si,
      find text "*** START OF" = Some si ->
      find_from text NL si = None ->
      extract_content text = strip text)
  /\ (find text "*** END OF" = None -> extract_content text = strip text)
  /\ (find text "*** START OF" = None -> extract_content text = strip text).
Proof.
  split; [|split; [|split]].
  - intros si ei ni Hs He Hn. split.
    + unfold extract_content. rewrite Hs, He, Hn. reflexivity.
    + eapply newline_after_start_marker; eassumption.
  - intros si Hs Hn. unfold extract_content. rewrite Hs, Hn.
    destruct (find text "*** END OF"); reflexivity.
  - intro He. unfold extract_content. rewrite He.
    destruct (find text "*** START OF"); reflexivity.
  - intro Hs. unfold extract_content. rewrite Hs. reflexivity.
Qed.

Lemma extract_content_cases_witness :
  find Spec.with_both_markers "*** START OF" = Some 5
  /\ find Spec.with_both_markers "*** END OF" = Some 36
  /\ find_from Spec.with_both_markers NL 5 = Some 30
  /\ extract_content Spec.with_both_markers = "body"
  /\ find Spec.without_end_marker "*** END OF" = None
  /\ extract_content Spec.without_end_marker = Spec.without_end_marker.
Proof.
  destruct (extract_content_cases Spec.with_both_markers) as [H _].
  destruct (H 5 36 30 eq_refl eq_refl eq_refl) as [E _].
  destruct (extract_content_cases Spec.without_end_marker) as [_ [_ [H' _]]].
  do 3 (split; [reflexivity|]).
  split; [rewrite E; reflexivity|].
  split; [reflexivity|].
  rewrite (H' eq_refl). reflexivity.
Defined.

(** C3 as stated fails: a text with the start marker and no end marker is
    returned whole, the part before the start marker included. *)
Lemma extract_content_keeps_text_before_start :
  find Spec.without_end_marker "*** START OF" = Some 5
  /\ find Spec.without_end_marker "*** END OF" = None
  /\ extract_content Spec.without_end_marker = Spec.without_end_marker
  /\ extract_content Spec.without_end_marker <> slice_from 5 Spec.without_end_marker
  /\ extract_content Spec.without_end_marker <> strip (slice_from 5 Spec.without_end_marker)
  /\ startswith (extract_content Spec.without_end_marker) "junk" = true.
Proof. repeat split; try reflexivity; discriminate. Qed.

(** ** Quote hash *)

Ltac each_char c :=
  destruct c as [[] [] [] [] [] [] [] []]; vm_compute; try reflexivity; try discriminate.

Lemma isspace_char_lower (c : ascii) : isspace (char_lower c) = isspace c.
Proof. each_char c. Qed.

Lemma char_lower_idem (c : ascii) : char_lower (char_lower c) = char_lower c.
Proof. each_char c. Qed.

Lemma same_letter_lower (c d : ascii) :
  Spec.same_letter c d -> char_lower c = char_lower d.
Proof.
  intros [x | x _ | x _]; [reflexivity | symmetry |]; apply char_lower_idem.
Qed.

Lemma case_variant_lower (s t : string) :
  Spec.case_variant s t -> lower s = lower t.
Proof.
  induction 1 as [|c d s t Hcd _ IH]; simpl.
  - reflexivity.
  - now rewrite (same_letter_lower c d Hcd), IH.
Qed.

Lemma lstrip_lower (s : string) :
  lstrip_by isspace (lower s) = lower (lstrip_by isspace s).
Proof.
  induction s as [|c s IH]; simpl.
  - reflexivity.
  - rewrite isspace_char_lower. destruct (isspace c); [exact IH | reflexivity].
Qed.

Lemma rstrip_lower (s : string) :
  rstrip_by isspace (lower s) = lower (rstrip_by isspace s).
Proof.
  induction s as [|c s IH]; simpl.
  - reflexivity.
  - rewrite IH, isspace_char_lower.
    destruct (rstrip_by isspace s); simpl.
    + destruct (isspace c); reflexivity.
    + reflexivity.
Qed.

Lemma strip_lower (s : string) : strip (lower s) = lower (strip s).
Proof. unfold strip. now rewrite lstrip_lower, rstrip_lower. Qed.

Lemma lstrip_all_space (r : string) :
  Spec.all_space r = true -> lstrip_by isspace r = "".
Proof.
  induction r as [|c r IH]; simpl; intro H.
  - reflexivity.
  - apply andb_prop in H as [Hc Hr]. rewrite Hc. auto.
Qed.

Lemma rstrip_all_space (r : string) :
  Spec.all_space r = true -> rstrip_by isspace r = "".
Proof.
  induction r as [|c r IH]; simpl; intro H.
  - reflexivity.
  - apply andb_prop in H as [Hc Hr]. rewrite (IH Hr), Hc. reflexivity.
Qed.

Lemma lstrip_app_space (l x : string) :
  Spec.all_space l = true -> lstrip_by isspace (l ++ x) = lstrip_by isspace x.
Proof.
  induction l as [|c l IH]; simpl; intro H.
  - reflexivity.
  - apply andb_prop in H as [Hc Hl]. rewrite Hc. auto.
Qed.

Lemma rstrip_app_space (x r : string) :
  Spec.all_space r = true -> rstrip_by isspace (x ++ r) = rstrip_by isspace x.
Proof.
  intro H. induction x as [|c x IH]; simpl.
  - now apply rstrip_all_space.
  - now rewrite IH.
Qed.

Lemma strip_app_space (x r : string) :
  Spec.all_space r = true -> strip (x ++ r) = strip x.
Proof.
  intro H. unfold strip. induction x as [|c x IH]; simpl.
  - now rewrite (lstrip_all_space r H).
  - destruct (isspace c).
    + exact IH.
    + apply (rstrip_app_space (String c x) r H).
Qed.

(** Whitespace around a string does not change what [strip] returns. *)
Lemma strip_padded (l core r : string) :
  Spec.all_space l = true -> Spec.all_space r = true ->
  strip (l ++ core ++ r) = strip core.
Proof.
  intros Hl Hr. unfold strip at 1. rewrite (lstrip_app_space l _ Hl).
  apply (strip_app_space core r Hr).
Qed.

Lemma variant_normal (s t : string) :
  Spec.variant s t -> lower (strip s) = lower (strip t).
Proof.
  intros (l & r & l' & r' & core & core' & Hl & Hr & Hl' & Hr' & Hc & -> & ->).
  rewrite !strip_padded by assumption.
  rewrite <- !strip_lower. now rewrite (case_variant_lower core core' Hc).
Qed.

(** C8, as the code has it, for strings over code points below 256:
    [generate_quote_hash] gives the same hash for quote texts that differ
    only by letters changed one for one into their other case and by
    surrounding whitespace, with authors that differ in the same way.  Not
    every difference in letter case is of this kind: [upper] turns a sharp
    s into SS, which [lower] does not undo. *)
Theorem generate_quote_hash_invariant (q a q' a' : string) :
  Spec.variant q q' -> Spec.variant a a' ->
  generate_quote_hash q a = generate_quote_hash q' a'.
Proof.
  intros Hq Ha. unfold generate_quote_hash.
  now rewrite (variant_normal q q' Hq), (variant_normal a a' Ha).
Qed.

Lemma variant_quote : Spec.variant "A Quote." " a quote. ".
Proof.
  exists "", "", " ", " ", "A Quote.", "a quote.".
  repeat split; try reflexivity.
  repeat first [ apply Spec.cv_nil
               | apply Spec.cv_cons; [ first [ apply Spec.same_char
                                             | apply (Spec.to_lower "A"); reflexivity
                                             | apply (Spec.to_lower "Q"); reflexivity ] | ] ].
Defined.

Lemma variant_author : Spec.variant "Plato" "  PLATO  ".
Proof.
  exists "", "", "  ", "  ", "Plato", "PLATO".
  repeat split; try reflexivity.
  apply Spec.cv_cons; [apply Spec.same_char|].
  apply Spec.cv_cons; [apply (Spec.to_upper "L"); reflexivity|].
  apply Spec.cv_cons; [apply (Spec.to_upper "A"); reflexivity|].
  apply Spec.cv_cons; [apply (Spec.to_upper "T"); reflexivity|].
  apply Spec.cv_cons; [apply (Spec.to_upper "O"); reflexivity|].
  apply Spec.cv_nil.
Defined.

Lemma generate_quote_hash_invariant_witness :
  Spec.variant "A Quote." " a quote. "
  /\ Spec.variant "Plato" "  PLATO  "
  /\ generate_quote_hash "A Quote." "Plato" = generate_quote_hash " a quote. " "  PLATO  ".
Proof.
  split; [exact variant_quote|]. split; [exact variant_author|].
  apply (generate_quote_hash_invariant "A Quote." "Plato" " a quote. " "  PLATO  ");
    [exact variant_quote | exact variant_author].
Defined.

(** C8 as stated fails: it speaks of all strings that differ only in letter
    case.  A word with a sharp s and its [upper()] differ only in letter
    case; [lower()] leaves the sharp s and gives ss for SS, so the two
    normalised strings differ and so do the hashes, which are the digests
    [hashlib.md5] computes. *)
Lemma generate_quote_hash_sharp_s :
  upper Spec.strasse = "STRASSE"
  /\ lower (strip Spec.strasse) = "stra" ++ chr 223 ++ "e"
  /\ lower (strip "STRASSE") = "strasse"
  /\ generate_quote_hash Spec.strasse "Plato" = "097abf228deef276b3c7863671b4741b"
  /\ generate_quote_hash "STRASSE" "Plato" = "e5deb33a221c5bfeb1decf96e483c1b4"
  /\ generate_quote_hash Spec.strasse "Plato" <> generate_quote_hash "STRASSE" "Plato".
Proof.
  assert (H1 : generate_quote_hash Spec.strasse "Plato" = "097abf228deef276b3c7863671b4741b")
    by (vm_compute; reflexivity).
  assert (H2 : generate_quote_hash "STRASSE" "Plato" = "e5deb33a221c5bfeb1decf96e483c1b4")
    by (vm_compute; reflexivity).
  split; [reflexivity|]. split; [reflexivity|]. split; [reflexivity|].
  split; [exact H1|]. split; [exact H2|].
  rewrite H1, H2. discriminate.
Qed.

(** The hash of the quote of the witness, as [hashlib.md5] computes it. *)
Example generate_quote_hash_value :
  generate_quote_hash "A Quote." "Plato" = "281e02eb87737c6903f99d5bf3305bc3"
  /\ generate_quote_hash " a quote. " "  PLATO  " = "281e02eb87737c6903f99d5bf3305bc3".
Proof. split; vm_compute; reflexivity. Qed.

(** ** Seneca's Morals: table-of-contents entries *)

Lemma chapter_line_not_section (line : string) :
  startswith line "CHAPTER " = true -> startswith line "SENECA OF " = false.
Proof.
  unfold startswith. destruct line as [|c l]; [discriminate|].
  change (prefix "CHAPTER " (String c l))
    with (if ascii_dec "C" c then prefix "HAPTER " l else false).
  change (prefix "SENECA OF " (String c l))
    with (if ascii_dec "S" c then prefix "ENECA OF " l else false).
  destruct (ascii_dec "C" c) as [<-|]; [|discriminate].
  intros _. destruct (ascii_dec "S" "C"); [discriminate | reflexivity].
Qed.

Lemma chapter_header_not_section (line : string) :
  Morals.is_chapter_header line = true -> Morals.is_section_header line = false.
Proof.
  unfold Morals.is_chapter_header, Morals.is_section_header. intro H.
  apply andb_prop in H as [H _]. apply andb_prop in H as [H _].
  now apply chapter_line_not_section.
Qed.

Lemma marker_line_truthy (line : string) :
  startswith line "CHAPTER " = true \/ startswith line "SENECA OF " = true ->
  truthy_str line = true.
Proof. destruct line; [intros [H|H]; discriminate H | reflexivity]. Qed.

(** The look-ahead stops at once, with no title, on a marker line. *)
Lemma look_ahead_marker (m : string) (post : list string) :
  Spec.morals_marker m -> Morals.look_ahead (m :: post) [] 0 = ([], 0).
Proof.
  intro Hm. simpl.
  destruct (startswith (strip m) "CHAPTER ") eqn:Hc.
  - rewrite (marker_line_truthy (strip m)) by (now left). reflexivity.
  - destruct Hm as [Hs | Hch].
    + unfold Morals.is_section_header in Hs.
      rewrite (marker_line_truthy (strip m)) by (now right). simpl. now rewrite Hs.
    + unfold Morals.is_chapter_header in Hch. rewrite Hc in Hch. discriminate Hch.
Qed.

(** A chapter header without a title leaves no chapter open. *)
Lemma step_untitled_header (h : string) (tl : list string) (st : Morals.state) :
  Morals.is_chapter_header (strip h) = true ->
  fst (Morals.look_ahead tl [] 0) = [] ->
  Morals.step h tl st = (Spec.morals_toc_state st, 0).
Proof.
  intros Hh Hl. unfold Morals.step.
  rewrite (chapter_header_not_section _ Hh), Hh.
  destruct (Morals.look_ahead tl [] 0) as [titles passed]. simpl in Hl. subst titles.
  reflexivity.
Qed.

(** With no chapter open, a line that is no marker changes at most the
    content buffer. *)
Lemma step_plain_no_chapter (l : string) (tl : list string) m t c cs :
  Spec.morals_plain l ->
  exists c', Morals.step l tl (Morals.mkState m None t c cs)
             = (Morals.mkState m None t c' cs, 0).
Proof.
  intros [Hs Hc]. unfold Morals.step. rewrite Hs, Hc.
  cbn [Morals.current_main_section Morals.current_chapter Morals.current_chapter_title
       Morals.chapter_content Morals.chunks].
  destruct (negb (truthy_str (strip l)) || Nat.ltb (length (strip l)) 10).
  - destruct (nonempty c); eexists; reflexivity.
  - destruct (any_in Morals.boilerplate (lower (strip l))); [eexists; reflexivity|].
    destruct (truthy m); eexists; reflexivity.
Qed.

Lemma loop_plain_no_chapter (mid rest : list string) m t cs :
  Forall Spec.morals_plain mid ->
  forall c, exists c',
    Morals.loop (mid ++ rest) 0 (Morals.mkState m None t c cs)
    = Morals.loop rest 0 (Morals.mkState m None t c' cs).
Proof.
  induction 1 as [|l mid Hl _ IH]; intro c; simpl.
  - now exists c.
  - destruct (step_plain_no_chapter l (mid ++ rest) m t c cs Hl) as [c1 E].
    rewrite E. apply IH.
Qed.

(** With no chapter open, a marker does the same whatever the buffer holds. *)
Lemma step_marker_no_chapter (l : string) (tl : list string) m t c cs :
  Spec.morals_marker l ->
  Morals.step l tl (Morals.mkState m None t c cs)
  = Morals.step l tl (Morals.mkState m None t [] cs).
Proof.
  intro Hm. unfold Morals.step.
  destruct (Morals.is_section_header (strip l)) eqn:Hs; [reflexivity|].
  destruct (Morals.is_chapter_header (strip l)) eqn:Hc; [reflexivity|].
  destruct Hm as [H|H]; congruence.
Qed.

(** C10: in the Seneca-morals scan, a chapter header after which the
    look-ahead finds no title line resets the open chapter to none; the
    lines between it and the next section or chapter marker reach no chunk:
    from the marker on, the scan runs as if these lines were not there. *)
Theorem morals_toc_entry_discarded
  (st : Morals.state) (h : string) (mid : list string) (m : string) (post : list string) :
  Morals.is_chapter_header (strip h) = true ->
  fst (Morals.look_ahead (mid ++ m :: post) [] 0) = [] ->
  Forall Spec.morals_plain mid ->
  Spec.morals_marker m ->
  Morals.step h (mid ++ m :: post) st = (Spec.morals_toc_state st, 0)
  /\ Morals.current_chapter (Spec.morals_toc_state st) = None
  /\ Morals.loop (h :: mid ++ m :: post) 0 st
     = Morals.loop (m :: post) 0 (Spec.morals_toc_state st)
  /\ Morals.loop (h :: mid ++ m :: post) 0 st = Morals.loop (h :: m :: post) 0 st
  /\ Morals.finish (Morals.loop (h :: mid ++ m :: post) 0 st)
     = Morals.finish (Morals.loop (h :: m :: post) 0 st).
Proof.
  intros Hh Hl Hmid Hm.
  pose proof (step_untitled_header h _ st Hh Hl) as E1.
  assert (E2 : Morals.step h (m :: post) st = (Spec.morals_toc_state st, 0)).
  { apply step_untitled_header; [exact Hh|]. now rewrite look_ahead_marker. }
  assert (E3 : Morals.loop (h :: mid ++ m :: post) 0 st
               = Morals.loop (m :: post) 0 (Spec.morals_toc_state st)).
  { change (Morals.loop (h :: mid ++ m :: post) 0 st)
      with (let (st', k) := Morals.step h (mid ++ m :: post) st in
            Morals.loop (mid ++ m :: post) k st').
    rewrite E1. unfold Spec.morals_toc_state.
    destruct (loop_plain_no_chapter mid (m :: post) (Morals.current_main_section st)
                (Morals.current_chapter_title st) (Morals.flush st) Hmid []) as [c' E].
    rewrite E. simpl. now rewrite (step_marker_no_chapter m post _ _ c' _ Hm). }
  assert (E4 : Morals.loop (h :: m :: post) 0 st
               = Morals.loop (m :: post) 0 (Spec.morals_toc_state st)).
  { change (Morals.loop (h :: m :: post) 0 st)
      with (let (st', k) := Morals.step h (m :: post) st in Morals.loop (m :: post) k st').
    now rewrite E2. }
  repeat split; try assumption; try reflexivity.
  - now rewrite E3, E4.
  - now rewrite E3, E4.
Qed.

Lemma morals_toc_entry_discarded_witness :
  Morals.is_chapter_header (strip "CHAPTER I.") = true
  /\ fst (Morals.look_ahead (["Of benefits in general, page 1"] ++ "CHAPTER II." :: []) [] 0) = []
  /\ Forall Spec.morals_plain ["Of benefits in general, page 1"]
  /\ Spec.morals_marker "CHAPTER II."
  /\ Morals.loop ("CHAPTER I." :: ["Of benefits in general, page 1"] ++ "CHAPTER II." :: [])
                 0 Spec.morals_in_benefits
     = Morals.loop ("CHAPTER I." :: "CHAPTER II." :: []) 0 Spec.morals_in_benefits.
Proof.
  assert (H1 : Morals.is_chapter_header (strip "CHAPTER I.") = true) by reflexivity.
  assert (H2 : fst (Morals.look_ahead
                      (["Of benefits in general, page 1"] ++ "CHAPTER II." :: []) [] 0) = [])
    by reflexivity.
  assert (H3 : Forall Spec.morals_plain ["Of benefits in general, page 1"]).
  { constructor; [split; reflexivity | constructor]. }
  assert (H4 : Spec.morals_marker "CHAPTER II.") by (right; reflexivity).
  do 4 (split; [assumption|]).
  exact (proj1 (proj2 (proj2 (proj2
    (morals_toc_entry_discarded Spec.morals_in_benefits "CHAPTER I."
       ["Of benefits in general, page 1"] "CHAPTER II." [] H1 H2 H3 H4))))).
Defined.

(** ** Seneca's Minor Dialogues: footnote mode *)

Lemma numeral_truthy (x : string) :
  mem x Dialogues.roman_numerals = true -> truthy_str x = true.
Proof. destruct x; [intro H; discriminate H | reflexivity]. Qed.

Lemma nonempty_snoc {A} (l : list A) (x : A) : nonempty (l ++ [x])%list = true.
Proof. destruct l; reflexivity. Qed.

Lemma dialogues_wf_init : Spec.dialogues_wf Dialogues.init.
Proof. split; intro H; [discriminate H | reflexivity]. Qed.

Lemma dialogues_wf_step (st : Dialogues.state) (raw : string) :
  Spec.dialogues_wf st -> Spec.dialogues_wf (Dialogues.step st raw).
Proof.
  intros W. pose proof W as [W1 W2]. unfold Dialogues.step.
  destruct (Dialogues.book_match (strip raw));
    [split; intro H; [discriminate H | reflexivity]|].
  destruct (Dialogues.special_book (strip raw));
    [split; intro H; [discriminate H | reflexivity]|].
  destruct (negb (truthy (Dialogues.current_book st))); [exact W|].
  destruct (Dialogues.footnote_start (strip raw)).
  { destruct (Dialogues.open_paragraph st) eqn:Ho.
    - split; intro H; [discriminate H | reflexivity].
    - split; cbn [Dialogues.current_paragraph Dialogues.current_paragraph_num
                  Dialogues.in_footnotes]; [exact W1|].
      intros _. unfold Dialogues.open_paragraph in Ho.
      destruct (Dialogues.current_paragraph st) as [|x l]; [reflexivity|].
      rewrite (W1 eq_refl) in Ho. discriminate Ho. }
  destruct (Dialogues.in_footnotes st) eqn:Hf; [exact W|].
  destruct (Dialogues.paragraph_marker (strip raw)) eqn:Hp.
  { split; cbn [Dialogues.current_paragraph Dialogues.current_paragraph_num
                Dialogues.in_footnotes].
    - intros _. unfold Dialogues.paragraph_marker in Hp.
      apply andb_prop in Hp as [Hp _]. now apply numeral_truthy.
    - intro H. discriminate H. }
  assert (Grow : Spec.dialogues_wf
            (Dialogues.mkState (Dialogues.current_book st) (Dialogues.current_book_title st)
               (Dialogues.current_paragraph st ++ [strip raw])%list
               (Dialogues.current_paragraph_num st) (Dialogues.in_footnotes st)
               (Dialogues.chunks st)) \/ nonempty (Dialogues.current_paragraph st) = false).
  { destruct (nonempty (Dialogues.current_paragraph st)) eqn:Hn; [left | now right].
    split; cbn [Dialogues.current_paragraph Dialogues.current_paragraph_num
                Dialogues.in_footnotes].
    - intros _. now apply W1.
    - rewrite Hf. intro H. discriminate H. }
  rewrite Hf in Grow.
  destruct (negb (truthy_str (strip raw)) || Nat.ltb (length (strip raw)) 10).
  { destruct Grow as [G|G]; [|rewrite G; exact W].
    destruct (nonempty (Dialogues.current_paragraph st)); [exact G | exact W]. }
  destruct (any_in Dialogues.boilerplate (lower (strip raw))); [exact W|].
  destruct Grow as [G|G]; [|rewrite G; exact W].
  destruct (nonempty (Dialogues.current_paragraph st)); [exact G | exact W].
Qed.

Lemma dialogues_wf_loop (lines : list string) :
  forall st, Spec.dialogues_wf st -> Spec.dialogues_wf (Dialogues.loop lines st).
Proof.
  unfold Dialogues.loop.
  induction lines as [|l lines IH]; intros st W; simpl; [exact W|].
  apply IH, dialogues_wf_step, W.
Qed.

(** In footnote mode a line that is no book header leaves the state as it is. *)
Lemma step_in_footnotes (st : Dialogues.state) (raw : string) :
  Spec.dialogues_wf st ->
  truthy (Dialogues.current_book st) = true ->
  Dialogues.in_footnotes st = true ->
  Spec.dialogues_not_book raw ->
  Dialogues.step st raw = st.
Proof.
  intros [_ W2] Hb Hf [N1 N2]. unfold Dialogues.step.
  rewrite N1, N2, Hb, Hf. cbn [negb].
  destruct (Dialogues.footnote_start (strip raw)); [|reflexivity].
  pose proof (W2 Hf) as Hp. clear W2.
  unfold Dialogues.open_paragraph. rewrite Hp. cbn [nonempty andb].
  destruct st as [b t p n f cs]. simpl in *. subst. reflexivity.
Qed.

Lemma loop_in_footnotes (ls : list string) (st : Dialogues.state) :
  Spec.dialogues_wf st ->
  truthy (Dialogues.current_book st) = true ->
  Dialogues.in_footnotes st = true ->
  Forall Spec.dialogues_not_book ls ->
  Dialogues.loop ls st = st.
Proof.
  intros W Hb Hf H. unfold Dialogues.loop.
  induction H as [|l ls Hl _ IH]; simpl; [reflexivity|].
  now rewrite (step_in_footnotes st l W Hb Hf Hl).
Qed.

(** A footnote line under an open book switches footnote mode on and
    leaves no paragraph open. *)
Lemma step_footnote_start (st : Dialogues.state) (raw : string) :
  Spec.dialogues_wf st ->
  truthy (Dialogues.current_book st) = true ->
  Spec.dialogues_not_book raw ->
  Dialogues.footnote_start (strip raw) = true ->
  Dialogues.in_footnotes (Dialogues.step st raw) = true
  /\ Dialogues.current_paragraph (Dialogues.step st raw) = []
  /\ Dialogues.current_book (Dialogues.step st raw) = Dialogues.current_book st.
Proof.
  intros W Hb [N1 N2] Hfs.
  pose proof (dialogues_wf_step st raw W) as [_ W2'].
  assert (F : Dialogues.in_footnotes (Dialogues.step st raw) = true
              /\ Dialogues.current_book (Dialogues.step st raw) = Dialogues.current_book st).
  { unfold Dialogues.step. rewrite N1, N2, Hb, Hfs. cbn [negb].
    destruct (Dialogues.open_paragraph st); split; reflexivity. }
  destruct F as [F1 F2]. auto.
Qed.

Lemma book_line_truthy (raw : string) :
  Spec.dialogues_book raw -> truthy_str (strip raw) = true.
Proof.
  unfold Spec.dialogues_book. destruct (strip raw); [|reflexivity].
  intros [H|H]; discriminate H.
Qed.

(** C4, as the code has it: once a footnote line is seen under an open
    book, the scan is in footnote mode with no paragraph open; every later
    line that is not a book header, Roman-numeral paragraph markers
    included, leaves the scan state unchanged, and if the input ends there
    nothing more is emitted.  Only a book header of either kind switches
    footnote mode off; it adds no chunk, and a Roman-numeral marker after it
    opens a new paragraph. *)
Theorem dialogues_footnote_suppression
  (pre : list string) (f : string) (ls : list string) (b p : string) :
  truthy (Dialogues.current_book (Dialogues.loop pre Dialogues.init)) = true ->
  Spec.dialogues_not_book f ->
  Dialogues.footnote_start (strip f) = true ->
  Forall Spec.dialogues_not_book ls ->
  Spec.dialogues_book b ->
  Spec.dialogues_not_book p ->
  Dialogues.footnote_start (strip p) = false ->
  Dialogues.paragraph_marker (strip p) = true ->
  let st1 := Dialogues.step (Dialogues.loop pre Dialogues.init) f in
  let st2 := Dialogues.loop (pre ++ f :: ls ++ [b]) Dialogues.init in
  Dialogues.in_footnotes st1 = true
  /\ Dialogues.current_paragraph st1 = []
  /\ Dialogues.loop (pre ++ f :: ls) Dialogues.init = st1
  /\ Dialogues.finish (Dialogues.loop (pre ++ f :: ls) Dialogues.init) = Dialogues.chunks st1
  /\ Dialogues.in_footnotes st2 = false
  /\ Dialogues.chunks st2 = Dialogues.chunks st1
  /\ Dialogues.current_paragraph (Dialogues.step st2 p) = [strip p]
  /\ Dialogues.chunks (Dialogues.step st2 p) = Dialogues.chunks st1.
Proof.
  intros Hb Nf Hf Hls Hbk Np Hpf Hp st1 st2.
  set (st := Dialogues.loop pre Dialogues.init) in *.
  assert (W : Spec.dialogues_wf st) by apply dialogues_wf_loop, dialogues_wf_init.
  pose proof (dialogues_wf_step st f W) as W1.
  destruct (step_footnote_start st f W Hb Nf Hf) as (F1 & F2 & F3).
  fold st1 in W1, F1, F2, F3.
  assert (Hb1 : truthy (Dialogues.current_book st1) = true) by now rewrite F3.
  assert (E : Dialogues.loop (pre ++ f :: ls) Dialogues.init = st1).
  { unfold Dialogues.loop. rewrite fold_left_app. simpl.
    apply (loop_in_footnotes ls st1 W1 Hb1 F1 Hls). }
  assert (E2 : st2 = Dialogues.enter_book (strip b) st1).
  { unfold st2, Dialogues.loop.
    change (pre ++ f :: ls ++ [b])%list with (pre ++ (f :: ls) ++ [b])%list.
    rewrite app_assoc, fold_left_app. simpl fold_left at 1.
    change (fold_left Dialogues.step (pre ++ f :: ls) Dialogues.init)
      with (Dialogues.loop (pre ++ f :: ls) Dialogues.init).
    rewrite E. unfold Dialogues.step.
    destruct Hbk as [H|H]; rewrite H; [reflexivity|].
    destruct (Dialogues.book_match (strip b)); reflexivity. }
  assert (C2 : Dialogues.chunks st2 = Dialogues.chunks st1).
  { rewrite E2. unfold Dialogues.enter_book, Dialogues.open_paragraph.
    cbn [Dialogues.chunks]. rewrite F2. cbn [nonempty]. now rewrite andb_false_r. }
  assert (S2 : Dialogues.step st2 p
    = Dialogues.mkState (Some (strip b)) (Some (strip b)) [strip p]
        (Some (Dialogues.line_start (strip p))) false (Dialogues.chunks st2)).
  { destruct Np as [N1 N2]. rewrite E2. unfold Dialogues.step. rewrite N1, N2, Hpf, Hp.
    unfold Dialogues.enter_book, Dialogues.open_paragraph.
    cbn [Dialogues.current_book Dialogues.in_footnotes Dialogues.current_book_title
         Dialogues.current_paragraph Dialogues.current_paragraph_num Dialogues.chunks
         truthy nonempty andb].
    rewrite (book_line_truthy b Hbk). cbn [negb]. reflexivity. }
  repeat split; try assumption.
  - rewrite E. unfold Dialogues.finish. rewrite F1.
    now rewrite andb_false_r.
  - now rewrite E2.
  - now rewrite S2.
  - now rewrite S2.
Qed.

Lemma dialogues_footnote_suppression_witness :
  truthy (Dialogues.current_book
            (Dialogues.loop (firstn 2 Spec.dialogue_lines) Dialogues.init)) = true
  /\ Dialogues.footnote_start (strip (nth 2 Spec.dialogue_lines "")) = true
  /\ Forall Spec.dialogues_not_book (skipn 3 Spec.dialogue_lines)
  /\ Dialogues.paragraph_marker (strip "II. Another paragraph begins here.") = true
  /\ Dialogues.loop (firstn 2 Spec.dialogue_lines
                     ++ nth 2 Spec.dialogue_lines "" :: skipn 3 Spec.dialogue_lines)
                    Dialogues.init
     = Dialogues.step (Dialogues.loop (firstn 2 Spec.dialogue_lines) Dialogues.init)
                      (nth 2 Spec.dialogue_lines "").
Proof.
  assert (H1 : truthy (Dialogues.current_book
                 (Dialogues.loop (firstn 2 Spec.dialogue_lines) Dialogues.init)) = true)
    by reflexivity.
  assert (H2 : Spec.dialogues_not_book (nth 2 Spec.dialogue_lines ""))
    by (split; reflexivity).
  assert (H3 : Dialogues.footnote_start (strip (nth 2 Spec.dialogue_lines "")) = true)
    by reflexivity.
  assert (H4 : Forall Spec.dialogues_not_book (skipn 3 Spec.dialogue_lines))
    by (repeat constructor).
  assert (H5 : Spec.dialogues_book "THE SECOND BOOK OF THE DIALOGUES") by (left; reflexivity).
  assert (H6 : Spec.dialogues_not_book "II. Another paragraph begins here.")
    by (split; reflexivity).
  assert (H7 : Dialogues.footnote_start (strip "II. Another paragraph begins here.") = false)
    by reflexivity.
  assert (H8 : Dialogues.paragraph_marker (strip "II. Another paragraph begins here.") = true)
    by reflexivity.
  do 4 (split; [assumption|]).
  exact (proj1 (proj2 (proj2
    (dialogues_footnote_suppression (firstn 2 Spec.dialogue_lines)
       (nth 2 Spec.dialogue_lines "") (skipn 3 Spec.dialogue_lines)
       "THE SECOND BOOK OF THE DIALOGUES"
       "II. Another paragraph begins here." H1 H2 H3 H4 H5 H6 H7 H8)))).
Defined.

(** C4 as stated fails: a Roman-numeral marker after a footnote line does
    not end the suppression.  In the sample the line "II. ..." is a paragraph
    marker, yet after it the scan is still in footnote mode with no paragraph
    open, and the scan returns the chunk of paragraph I alone. *)
Lemma dialogues_numeral_does_not_end_footnotes :
  Dialogues.paragraph_marker (strip (nth 3 Spec.dialogue_lines "")) = true
  /\ Dialogues.in_footnotes (Dialogues.loop (firstn 4 Spec.dialogue_lines) Dialogues.init) = true
  /\ Dialogues.current_paragraph
       (Dialogues.loop (firstn 4 Spec.dialogue_lines) Dialogues.init) = []
  /\ Dialogues.scan Spec.dialogue_text
     = [("THE FIRST BOOK OF THE DIALOGUES - Paragraph I", "I. " ++ Spec.copies 110 "a")]
  /\ mem "THE FIRST BOOK OF THE DIALOGUES - Paragraph II"
         (map fst (Dialogues.scan Spec.dialogue_text)) = false.
Proof. repeat split; vm_compute; reflexivity. Qed.

(** ** Minimum chunk length *)

Ltac split_ifs :=
  repeat match goal with
         | |- context [if ?b then _ else _] => destruct b eqn:?
         end.



(** *** Seneca's Morals *)









(** *** Seneca's Minor Dialogues *)







(** *** Epictetus *)






(** *** Nietzsche *)






(** *** Marcus Aurelius: no minimum length *)

Lemma split_go_nonempty (sep s : string) :
  forall skip cur, 0 < List.length (split_go sep s skip cur).
Proof.
  induction s as [|c s IH]; intros skip cur; cbn [split_go List.length]; [lia|].
  destruct skip; [|apply IH].
  destruct (prefix sep (String c s)); [cbn [List.length]; lia | apply IH].
Qed.






(** ** The scanners on small documents *)

(** The emitter with the counting generator: the identifiers are the
    first draws, in order. *)
Example create_chunk_objects_counter :
  create_chunk_objects nat Spec.counter_uuid4 [("A", "x"); ("B", "y")] "Seneca" "Morals" 3
  = ([mkChunk "uuu" "Seneca" "Morals" "A" "x" 0; mkChunk "uuuu" "Seneca" "Morals" "B" "y" 1], 5).
Proof. reflexivity. Qed.

(** A chapter with a two-line title, and a table-of-contents entry before it. *)
Example morals_chapter_with_title :
  Morals.scan (join NL ["front matter"; "SENECA OF BENEFITS"; "CHAPTER I."; "CHAPTER II.";
                        "CHAPTER I."; ""; "OF BENEFITS"; "IN GENERAL."; "";
                        Spec.copies 60 "a"; "short"; Spec.copies 60 "b"])
  = [("SENECA OF BENEFITS - CHAPTER I - OF BENEFITS IN GENERAL.",
      Spec.copies 60 "a" ++ NL ++ "short" ++ NL ++ Spec.copies 60 "b")].
Proof. vm_compute. reflexivity. Qed.

(** The chapterless section on clemency is emitted by the final step. *)
Example morals_clemency :
  Morals.scan (join NL ["SENECA OF BENEFITS"; "SENECA OF CLEMENCY."; Spec.copies 120 "c"])
  = [("SENECA OF CLEMENCY.", Spec.copies 120 "c")].
Proof. vm_compute. reflexivity. Qed.

(** Without a footnote line both paragraphs are emitted, and the
    bracketed numbers are deleted from the text. *)
Example dialogues_two_paragraphs :
  Dialogues.scan (join NL ["THE FIRST BOOK OF THE DIALOGUES";
                           "I. " ++ Spec.copies 110 "a" ++ "[12]";
                           "II. " ++ Spec.copies 110 "b"])
  = [("THE FIRST BOOK OF THE DIALOGUES - Paragraph I", "I. " ++ Spec.copies 110 "a");
     ("THE FIRST BOOK OF THE DIALOGUES - Paragraph II", "II. " ++ Spec.copies 110 "b")].
Proof. vm_compute. reflexivity. Qed.

Example epictetus_two_sections :
  Epictetus.scan (join (NL ++ NL)
                    ["There are things which are within our power, " ++ Spec.copies 20 "a";
                     "II"; Spec.copies 51 "b"; Spec.copies 50 "c"])
  = [("Section I", "There are things which are within our power, " ++ Spec.copies 20 "a");
     ("Section II", Spec.copies 51 "b")].
Proof. vm_compute. reflexivity. Qed.

Example nietzsche_two_chapters :
  Nietzsche.scan (join NL ["I. THE THREE METAMORPHOSES."; Spec.copies 101 "a";
                           "II. THE ACADEMIC CHAIRS OF VIRTUE."; Spec.copies 100 "b"])
  = [("Chapter I - THE THREE METAMORPHOSES", Spec.copies 101 "a")].
Proof. vm_compute. reflexivity. Qed.

(** ** Strings as character lists *)

Lemma chars_inj (s t : string) :
  list_ascii_of_string s = list_ascii_of_string t -> s = t.
Proof.
  intro H. rewrite <- (string_of_list_ascii_of_string s), <- (string_of_list_ascii_of_string t).
  now rewrite H.
Qed.

Lemma chars_length (s : string) : List.length (list_ascii_of_string s) = length s.
Proof. induction s; simpl; congruence. Qed.

Lemma chars_app (s t : string) :
  list_ascii_of_string (s ++ t) = (list_ascii_of_string s ++ list_ascii_of_string t)%list.
Proof. induction s; simpl; congruence. Qed.

Lemma chars_substring (s : string) :
  forall n m, list_ascii_of_string (substring n m s)
              = firstn m (skipn n (list_ascii_of_string s)).
Proof.
  induction s as [|c s IH]; intros n m.
  - destruct n, m; reflexivity.
  - destruct n as [|n].
    + destruct m as [|m]; [reflexivity|]. simpl. now rewrite IH.
    + simpl. apply IH.
Qed.

Lemma substring_of_chars (x s : string) (n m : nat) :
  list_ascii_of_string x = firstn m (skipn n (list_ascii_of_string s)) ->
  x = substring n m s.
Proof. intro H. apply chars_inj. now rewrite chars_substring. Qed.

Lemma length_substring_le (s : string) (n m : nat) : length (substring n m s) <= m.
Proof. rewrite <- chars_length, chars_substring. apply firstn_le_length. Qed.

Lemma lstrip_is_suffix (p : ascii -> bool) (s : string) :
  exists k, list_ascii_of_string (lstrip_by p s) = skipn k (list_ascii_of_string s).
Proof.
  induction s as [|c s [k IH]]; simpl.
  - now exists 0.
  - destruct (p c); [now exists (S k) | now exists 0].
Qed.

Lemma rstrip_is_prefix (p : ascii -> bool) (s : string) :
  exists k, list_ascii_of_string (rstrip_by p s) = firstn k (list_ascii_of_string s).
Proof.
  induction s as [|c s [k IH]]; simpl.
  - now exists 0.
  - destruct (rstrip_by p s) as [|d r] eqn:E.
    + destruct (p c); [now exists 0 | now exists 1].
    + exists (S k). simpl in *. now rewrite IH.
Qed.

(** [strip] returns a substring of its argument. *)
Lemma strip_is_substring (s : string) : exists a b, strip s = substring a b s.
Proof.
  unfold strip.
  destruct (lstrip_is_suffix isspace s) as [a Ha].
  destruct (rstrip_is_prefix isspace (lstrip_by isspace s)) as [b Hb].
  exists a, b. apply substring_of_chars. now rewrite Hb, Ha.
Qed.

Lemma substring_substring (s : string) (a b a' b' : nat) :
  substring a' b' (substring a b s) = substring (a + a') (Nat.min b' (b - a')) s.
Proof.
  apply chars_inj. rewrite !chars_substring.
  rewrite skipn_firstn_comm, firstn_firstn, skipn_skipn.
  now rewrite (Nat.add_comm a' a).
Qed.

(** An occurrence inside a substring is an occurrence in the whole string. *)
Lemma occurrence_in_substring (m s : string) (a b k : nat) :
  m <> "" ->
  index 0 m (substring a b s) = Some k ->
  substring (a + k) (length m) s = m /\ k + length m <= b.
Proof.
  intros Hm H. apply index_correct1 in H.
  rewrite substring_substring in H.
  assert (L : length m <= Nat.min (length m) (b - k)).
  { rewrite <- H at 1. apply length_substring_le. }
  assert (Hpos : 0 < length m) by (destruct m; [congruence | simpl; lia]).
  assert (E : Nat.min (length m) (b - k) = length m) by lia.
  rewrite E in H. split; [exact H | lia].
Qed.

Lemma not_found_in_substring (m s : string) (a b : nat) :
  m <> "" -> find s m = None -> find (substring a b s) m = None.
Proof.
  unfold find. intros Hm H.
  destruct (index 0 m (substring a b s)) as [k|] eqn:E; [|reflexivity].
  destruct (occurrence_in_substring m s a b k Hm E) as [Hocc _].
  exfalso. apply (index_correct3 0 (a + k) m s H Hm); [lia | exact Hocc].
Qed.

(** ** Boundary locator: what the result is made of *)

Lemma extract_content_is_substring (text : string) :
  exists a b, extract_content text = substring a b text.
Proof.
  unfold extract_content.
  destruct (find text "*** START OF") as [si|];
    [destruct (find text "*** END OF") as [ei|];
       [destruct (find_from text NL si) as [ni|]|]|];
    try apply strip_is_substring.
  unfold slice.
  destruct (strip_is_substring (substring ni (ei - ni) text)) as (a & b & E).
  rewrite E, substring_substring. eauto.
Qed.

Lemma rstrip_idem (p : ascii -> bool) (s : string) :
  rstrip_by p (rstrip_by p s) = rstrip_by p s.
Proof.
  induction s as [|c s IH]; simpl; [reflexivity|].
  destruct (rstrip_by p s) as [|d r] eqn:E.
  - destruct (p c) eqn:Hc; simpl; [reflexivity | now rewrite Hc].
  - simpl in *. now rewrite IH.
Qed.

Lemma lstrip_fixed (p : ascii -> bool) (s : string) :
  lstrip_by p (lstrip_by p s) = lstrip_by p s.
Proof.
  induction s as [|c s IH]; simpl; [reflexivity|].
  destruct (p c) eqn:Hc; [exact IH | simpl; now rewrite Hc].
Qed.

(** Stripping on the right does not uncover whitespace on the left. *)
Lemma lstrip_rstrip (p : ascii -> bool) (s : string) :
  lstrip_by p s = s -> lstrip_by p (rstrip_by p s) = rstrip_by p s.
Proof.
  destruct s as [|c s]; simpl; [reflexivity|].
  destruct (p c) eqn:Hc.
  - intro H. exfalso.
    assert (L : length (lstrip_by p s) <= length s).
    { clear. induction s as [|d s IH]; simpl; [lia|]. destruct (p d); simpl; lia. }
    rewrite H in L. simpl in L. lia.
  - intros _. destruct (rstrip_by p s); simpl; now rewrite Hc.
Qed.

Lemma strip_idem (s : string) : strip (strip s) = strip s.
Proof.
  unfold strip.
  rewrite (lstrip_rstrip isspace (lstrip_by isspace s) (lstrip_fixed isspace s)).
  apply rstrip_idem.
Qed.

(** X1: the result of [extract_content] is a contiguous piece of the input,
    never longer than the input, and has no whitespace left at either end. *)
Theorem extract_content_shape (text : string) :
  (exists a b, extract_content text = substring a b text)
  /\ length (extract_content text) <= length text
  /\ strip (extract_content text) = extract_content text.
Proof.
  split; [apply extract_content_is_substring|]. split.
  - destruct (extract_content_is_substring text) as (a & b & E). rewrite E.
    rewrite <- !chars_length, chars_substring, length_firstn, length_skipn. lia.
  - unfold extract_content. apply strip_idem.
Qed.

(** X2: when [extract_content] trims (both markers found, and a newline from
    the start marker on), the end marker does not occur in the result: nothing
    from the end marker on reaches the scanners. *)
Theorem extract_content_excludes_end_marker (text : string) (si ei ni : nat) :
  find text "*** START OF" = Some si ->
  find text "*** END OF" = Some ei ->
  find_from text NL si = Some ni ->
  find (extract_content text) "*** END OF" = None.
Proof.
  intros Hs He Hn. unfold extract_content. rewrite Hs, He, Hn. unfold slice.
  destruct (strip_is_substring (substring ni (ei - ni) text)) as (a & b & E).
  rewrite E, substring_substring. unfold find.
  destruct (index 0 "*** END OF" (substring (ni + a) (Nat.min b (ei - ni - a)) text))
    as [k|] eqn:F; [|reflexivity].
  exfalso.
  destruct (occurrence_in_substring "*** END OF" text _ _ k ltac:(discriminate) F)
    as [Hocc Hk].
  simpl length in *.
  apply (index_correct2 0 ei "*** END OF" text He (ni + a + k)); [lia | lia | exact Hocc].
Qed.

Lemma extract_content_excludes_end_marker_witness :
  find Spec.with_both_markers "*** START OF" = Some 5
  /\ find Spec.with_both_markers "*** END OF" = Some 36
  /\ find_from Spec.with_both_markers NL 5 = Some 30
  /\ find (extract_content Spec.with_both_markers) "*** END OF" = None.
Proof.
  do 3 (split; [reflexivity|]).
  exact (extract_content_excludes_end_marker Spec.with_both_markers 5 36 30
           eq_refl eq_refl eq_refl).
Defined.

(** ** Router: errors, missing markers, and the records returned *)

Section RouterMore.

Variable rng : Type.
Variable uuid4 : rng -> string * rng.

Lemma create_chunk_objects_result (pairs : pair_list) (author work : string) (g : rng)
      (cs : list chunk) (g' : rng) :
  create_chunk_objects rng uuid4 pairs author work g = (cs, g') ->
  map labelled cs = pairs
  /\ map chunk_index cs = List.seq 0 (List.length cs)
  /\ map chunk_id cs = draws rng uuid4 (List.length cs) g
  /\ g' = advance rng uuid4 (List.length cs) g
  /\ Forall (fun c => chunk_author c = author /\ chunk_work c = work) cs.
Proof.
  intro H. unfold create_chunk_objects in H.
  pose proof (create_from_labelled rng uuid4 pairs 0 author work g) as HL.
  pose proof (create_from_index rng uuid4 pairs 0 author work g) as HI.
  pose proof (create_from_ids rng uuid4 pairs 0 author work g) as [HD HA].
  pose proof (create_from_owner rng uuid4 pairs 0 author work g) as HO.
  rewrite H in *. simpl in *.
  assert (L : List.length cs = List.length pairs)
    by (rewrite <- HL; now rewrite length_map).
  rewrite L. repeat split; auto.
Qed.

(** X4: whichever scanner the router picks, the records a call of
    [chunk_text] returns are indexed 0, 1, ..., n-1 in order, all carry the
    author and work passed in, and their identifiers are the next n draws of
    the generator. *)
Theorem chunk_text_records (text author work : string) (g : rng)
        (cs : list chunk) (g' : rng) :
  chunk_text rng uuid4 text author work g = Returned (cs, g') ->
  map chunk_index cs = List.seq 0 (List.length cs)
  /\ Forall (fun c => chunk_author c = author /\ chunk_work c = work) cs
  /\ map chunk_id cs = draws rng uuid4 (List.length cs) g
  /\ g' = advance rng uuid4 (List.length cs) g.
Proof.
  unfold chunk_text, chunk_marcus_meditations, chunk_seneca_morals, chunk_seneca_dialogues,
    chunk_epictetus, chunk_nietzsche.
  intro H.
  assert (E : exists pairs,
             create_chunk_objects rng uuid4 pairs author work g = (cs, g')).
  { repeat match type of H with
           | (if ?b then _ else _) = _ => destruct b
           end;
      try discriminate H; injection H as H; eexists; exact H. }
  destruct E as [pairs E].
  destruct (create_chunk_objects_result pairs author work g cs g' E)
    as (_ & HI & HD & HA & HO).
  auto.
Qed.

Lemma extract_content_keeps_absence (text m : string) :
  m <> "" -> find text m = None -> find (extract_content text) m = None.
Proof.
  intros Hm H. destruct (extract_content_is_substring text) as (a & b & E).
  rewrite E. now apply not_found_in_substring.
Qed.

(** X5: a document in which the start marker of the Marcus, Seneca-morals,
    Seneca-dialogues or Nietzsche scanner does not occur yields no chunk
    from that scanner after [extract_content]; in particular a title with
    none of the routing keywords and a text without "SENECA OF BENEFITS"
    gives an empty result and draws no identifier. *)
Theorem missing_start_marker_gives_no_chunks (text author work : string) (g : rng) :
  (find text Marcus.start_marker = None -> Marcus.scan (extract_content text) = [])
  /\ (find text Morals.start_marker = None -> Morals.scan (extract_content text) = [])
  /\ (find text Dialogues.start_marker = None -> Dialogues.scan (extract_content text) = [])
  /\ (find text Nietzsche.start_marker = None -> Nietzsche.scan (extract_content text) = [])
  /\ (find text Morals.start_marker = None ->
      any_in ["Meditations"; "Morals"; "Dialogues"; "Epistles"; "Enchiridion"; "Republic";
              "Zarathustra"] work = false ->
      chunk_text rng uuid4 text author work g = Returned ([], g)).
Proof.
  assert (A : forall m, m <> "" -> find text m = None -> find (extract_content text) m = None)
    by (intros m; apply extract_content_keeps_absence).
  assert (M : find text Morals.start_marker = None -> Morals.scan (extract_content text) = []).
  { intro H. unfold Morals.scan. rewrite (A Morals.start_marker); [reflexivity | | exact H].
    discriminate. }
  split; [|split; [exact M | split; [|split]]].
  - intro H. unfold Marcus.scan. rewrite (A Marcus.start_marker); [reflexivity | | exact H].
    discriminate.
  - intro H. unfold Dialogues.scan.
    rewrite (A Dialogues.start_marker); [reflexivity | | exact H]. discriminate.
  - intro H. unfold Nietzsche.scan.
    rewrite (A Nietzsche.start_marker); [reflexivity | | exact H]. discriminate.
  - intros H K. unfold any_in in K. cbn [existsb] in K.
    repeat (apply orb_false_elim in K; destruct K as [?K K]).
    unfold chunk_text, chunk_seneca_morals.
    rewrite K0, K1, K2, K3, K4, K5, K6. cbn [orb]. rewrite (M H). reflexivity.
Qed.

End RouterMore.

Lemma chunk_text_records_witness :
  chunk_text nat Spec.counter_uuid4 Spec.short_marcus_text "Marcus Aurelius" "Meditations" 7
  = Returned ([mkChunk "uuuuuuu" "Marcus Aurelius" "Meditations"
                 "THE FIRST BOOK - Section I" "I. Of my grandfather" 0], 8)
  /\ map chunk_id [mkChunk "uuuuuuu" "Marcus Aurelius" "Meditations"
                     "THE FIRST BOOK - Section I" "I. Of my grandfather" 0]
     = draws nat Spec.counter_uuid4 1 7.
Proof.
  assert (E : chunk_text nat Spec.counter_uuid4 Spec.short_marcus_text "Marcus Aurelius"
                "Meditations" 7
              = Returned ([mkChunk "uuuuuuu" "Marcus Aurelius" "Meditations"
                             "THE FIRST BOOK - Section I" "I. Of my grandfather" 0], 8))
    by reflexivity.
  split; [exact E|].
  exact (proj1 (proj2 (proj2 (chunk_text_records nat Spec.counter_uuid4 _ _ _ _ _ _ E)))).
Defined.

Lemma missing_start_marker_gives_no_chunks_witness :
  find "A text about something else." Morals.start_marker = None
  /\ chunk_text nat Spec.counter_uuid4 "A text about something else." "Nobody"
       "Some Unknown Work" 3
     = Returned ([], 3).
Proof.
  split; [reflexivity|].
  exact (proj2 (proj2 (proj2 (proj2
    (missing_start_marker_gives_no_chunks nat Spec.counter_uuid4
       "A text about something else." "Nobody" "Some Unknown Work" 3)))) eq_refl eq_refl).
Defined.

(** ** What the scanners' chunks look like *)

Lemma fold_left_invariant {S A : Type} (P : S -> Prop) (f : S -> A -> S) :
  (forall s a, P s -> P (f s a)) ->
  forall l s, P s -> P (fold_left f l s).
Proof.
  intros Hf l. induction l as [|a l IH]; intros s Hs; simpl; auto.
Qed.

Lemma truthy_str_neq (s : string) : truthy_str s = true -> s <> "".
Proof. destruct s; [discriminate | discriminate]. Qed.

Lemma truthy_Some (o : option string) :
  truthy o = true -> exists s, o = Some s /\ truthy_str s = true.
Proof. destruct o as [s|]; [eauto | discriminate]. Qed.

Lemma Forall_append (P : string * string -> Prop) (cs : pair_list) (label text : string) :
  Forall P cs -> P (label, text) -> Forall P (append cs label text).
Proof.
  intros H Hp. unfold append. apply Forall_app. split; [exact H|].
  constructor; [exact Hp | constructor].
Qed.

(** *** Marcus Aurelius *)

Lemma marcus_step_shape (st : Marcus.state) (para0 : string) :
  Shape.marcus_state st -> Shape.marcus_state (Marcus.step st para0).
Proof.
  intros [Hb Hc]. unfold Marcus.step.
  destruct (negb (truthy_str (strip para0))) eqn:Hp; [now split|].
  apply negb_false_iff in Hp.
  destruct (contains "BOOK" (upper (strip (nth 0 (split NL (strip para0)) "")))
            && any_in Marcus.book_words (upper (strip (nth 0 (split NL (strip para0)) ""))))
    eqn:Hh.
  { apply andb_prop in Hh as [Hh _]. split; cbn [Marcus.current_book Marcus.chunks].
    - intros b E. injection E as <-. exact Hh.
    - exact Hc. }
  destruct (truthy (Marcus.current_book st)) eqn:Ht; cbn [negb]; [|now split].
  destruct (Nat.ltb 0 (List.length (split NL (strip para0)))); [|now split].
  destruct (mem (nth 0 (split "." (strip (nth 0 (split NL (strip para0)) ""))) "")
                Marcus.roman_numerals) eqn:Hm; [|now split].
  destruct (truthy_Some _ Ht) as (b & Eb & _).
  split; cbn [Marcus.current_book Marcus.chunks]; [exact Hb|].
  apply Forall_append; [exact Hc|].
  exists b, (nth 0 (split "." (strip (nth 0 (split NL (strip para0)) ""))) "").
  cbn [fst snd]. rewrite Eb. cbn [fmt].
  repeat split.
  - now apply mem_In.
  - now apply Hb.
  - apply strip_idem.
  - now apply truthy_str_neq.
Qed.

(** X6: every chunk of the Marcus scan is labelled with a book heading (a
    line with "BOOK" in it) followed by " - Section " and a numeral of the
    list; its text is a stripped, non-empty paragraph whose first token, up
    to the first full stop of its first line, is that numeral. *)
Theorem marcus_chunks_shape (text : string) : Forall Shape.marcus_chunk (Marcus.scan text).
Proof.
  unfold Marcus.scan.
  destruct (find text Marcus.start_marker) as [p|]; [|constructor].
  destruct (find_from text Marcus.actual_start_marker p); [|constructor].
  match goal with |- context [fold_left Marcus.step ?l ?s] =>
    assert (H : Shape.marcus_state (fold_left Marcus.step l s))
  end.
  { apply fold_left_invariant; [apply marcus_step_shape|].
    split; [intros b E; discriminate E | constructor]. }
  exact (proj2 H).
Qed.

(** *** Nietzsche *)





(** *** Epictetus *)

Lemma epictetus_flush_shape (st : Epictetus.state) :
  Shape.epictetus_state st -> Forall Shape.epictetus_chunk (Epictetus.flush st).
Proof.
  intros ((n & En & Hn) & Hp & Hf). unfold Epictetus.flush.
  destruct (truthy_str (Epictetus.current_section st)); cbn [andb]; [|exact Hf].
  destruct (nonempty (Epictetus.current_section_content st)) eqn:Hne; [|exact Hf].
  destruct (Nat.ltb _ _); [|exact Hf].
  apply Forall_append; [exact Hf|].
  exists n, (Epictetus.current_section_content st). cbn [fst snd].
  repeat split; try assumption.
  intro E. rewrite E in Hne. discriminate Hne.
Qed.

Lemma epictetus_step_shape (st : Epictetus.state) (para0 : string) :
  Shape.epictetus_state st -> Shape.epictetus_state (Epictetus.step st para0).
Proof.
  intro H. pose proof (epictetus_flush_shape st H) as HF.
  destruct H as (Hs & Hp & Hf). unfold Epictetus.step.
  destruct (negb (truthy_str (strip para0))); [now repeat split|].
  destruct (any_in Epictetus.boilerplate (lower (strip para0))) eqn:Hb; [now repeat split|].
  destruct (mem (strip para0) Epictetus.roman_numerals) eqn:Hm.
  { split; [|split];
      cbn [Epictetus.current_section Epictetus.current_section_content Epictetus.chunks].
    - exists (strip para0). split; [reflexivity | now apply mem_In].
    - constructor.
    - exact HF. }
  destruct (truthy_str (Epictetus.current_section st)); cbn [andb]; [|now repeat split].
  destruct (Nat.ltb Epictetus.min_len (length (strip para0))) eqn:Hl; [|now repeat split].
  split; [|split];
    cbn [Epictetus.current_section Epictetus.current_section_content Epictetus.chunks];
    try assumption.
  apply Forall_app. split; [exact Hp|]. constructor; [|constructor].
  apply Nat.ltb_lt in Hl. repeat split; try assumption. apply strip_idem.
Qed.

(** X8: every chunk of the Epictetus scan is labelled "Section " and a
    numeral of the list, and its text is one or more paragraphs joined by
    blank lines, each of them stripped, longer than 50 characters, free of
    the boilerplate keywords and not itself a numeral. *)
Theorem epictetus_chunks_shape (text : string) :
  Forall Shape.epictetus_chunk (Epictetus.scan text).
Proof.
  unfold Epictetus.scan, Epictetus.scan_paragraphs. apply epictetus_flush_shape.
  apply fold_left_invariant; [apply epictetus_step_shape|].
  split; [|split]; [|constructor|constructor].
  exists "I". split; [reflexivity | now apply mem_In].
Qed.

(** *** Seneca's Minor Dialogues *)

Lemma nonempty_neq {A} (l : list A) : nonempty l = true -> l <> [].
Proof. destruct l; [discriminate | discriminate]. Qed.

Lemma dialogues_save_shape (st : Dialogues.state) :
  Shape.dialogues_state st ->
  Dialogues.open_paragraph st = true ->
  Forall Shape.dialogues_chunk (Dialogues.save_paragraph st).
Proof.
  intros (Ht & Hb & Hp & Hf) Ho. unfold Dialogues.save_paragraph.
  destruct (Nat.ltb _ _); [|exact Hf].
  unfold Dialogues.open_paragraph in Ho. apply andb_prop in Ho as [Hne _].
  destruct (Hp (nonempty_neq _ Hne)) as ((n & En & Hn) & (b & Eb)).
  apply Forall_append; [exact Hf|]. exists b, n. rewrite Ht, Eb, En. cbn [fmt fst].
  repeat split; auto.
Qed.

Lemma dialogues_enter_shape (line : string) (st : Dialogues.state) :
  Shape.dialogues_state st ->
  Dialogues.book_match line = true \/ Dialogues.special_book line = true ->
  Shape.dialogues_state (Dialogues.enter_book line st).
Proof.
  intros H Hl. pose proof (dialogues_save_shape st H) as HS.
  destruct H as (Ht & Hb & Hp & Hf). unfold Dialogues.enter_book.
  split; [|split; [|split]];
    cbn [Dialogues.current_book Dialogues.current_book_title Dialogues.current_paragraph
         Dialogues.current_paragraph_num Dialogues.chunks].
  - reflexivity.
  - intros b E. injection E as <-. exact Hl.
  - intro E. now contradiction E.
  - destruct (truthy (Dialogues.current_book st)); cbn [andb]; [|exact Hf].
    destruct (Dialogues.open_paragraph st); [now apply HS | exact Hf].
Qed.

Lemma dialogues_step_shape (st : Dialogues.state) (raw : string) :
  Shape.dialogues_state st -> Shape.dialogues_state (Dialogues.step st raw).
Proof.
  intro H. pose proof (dialogues_save_shape st H) as HS.
  pose proof H as (Ht & Hb & Hp & Hf). unfold Dialogues.step.
  destruct (Dialogues.book_match (strip raw)) eqn:B1;
    [apply dialogues_enter_shape; auto|].
  destruct (Dialogues.special_book (strip raw)) eqn:B2;
    [apply dialogues_enter_shape; auto|].
  destruct (truthy (Dialogues.current_book st)) eqn:Tb; cbn [negb]; [|exact H].
  destruct (truthy_Some _ Tb) as (b & Eb & _).
  destruct (Dialogues.footnote_start (strip raw)).
  { destruct (Dialogues.open_paragraph st).
    - split; [|split; [|split]];
        cbn [Dialogues.current_book Dialogues.current_book_title Dialogues.current_paragraph
             Dialogues.current_paragraph_num Dialogues.chunks]; auto.
      intro E. now contradiction E.
    - split; [|split; [|split]];
        cbn [Dialogues.current_book Dialogues.current_book_title Dialogues.current_paragraph
             Dialogues.current_paragraph_num Dialogues.chunks]; auto. }
  destruct (Dialogues.in_footnotes st); [exact H|].
  destruct (Dialogues.paragraph_marker (strip raw)) eqn:Pm.
  { unfold Dialogues.paragraph_marker in Pm. apply andb_prop in Pm as [Pm _].
    split; [|split; [|split]];
      cbn [Dialogues.current_book Dialogues.current_book_title Dialogues.current_paragraph
           Dialogues.current_paragraph_num Dialogues.chunks]; auto.
    - intros _. split; [|eauto].
      exists (Dialogues.line_start (strip raw)). split; [reflexivity | now apply mem_In].
    - destruct (Dialogues.open_paragraph st); [now apply HS | exact Hf]. }
  assert (Grow : nonempty (Dialogues.current_paragraph st) = true ->
                 Shape.dialogues_state
                   (Dialogues.mkState (Dialogues.current_book st)
                      (Dialogues.current_book_title st)
                      (Dialogues.current_paragraph st ++ [strip raw])%list
                      (Dialogues.current_paragraph_num st) false (Dialogues.chunks st))).
  { intro Hne. split; [|split; [|split]];
      cbn [Dialogues.current_book Dialogues.current_book_title Dialogues.current_paragraph
           Dialogues.current_paragraph_num Dialogues.chunks]; auto.
    intros _. apply Hp. now apply nonempty_neq. }
  destruct (negb (truthy_str (strip raw)) || Nat.ltb (length (strip raw)) 10).
  { destruct (nonempty (Dialogues.current_paragraph st)); [now apply Grow | exact H]. }
  destruct (any_in Dialogues.boilerplate (lower (strip raw))); [exact H|].
  destruct (nonempty (Dialogues.current_paragraph st)); [now apply Grow | exact H].
Qed.

(** X9: every chunk of the Seneca-dialogues scan is labelled with a book
    header line (of either kind), " - Paragraph " and a numeral of the list;
    no label is built from an unset book or an unset paragraph numeral. *)
Theorem dialogues_chunks_shape (text : string) :
  Forall Shape.dialogues_chunk (Dialogues.scan text).
Proof.
  unfold Dialogues.scan.
  destruct (find text Dialogues.start_marker) as [p|]; [|constructor].
  unfold Dialogues.scan_lines, Dialogues.loop.
  match goal with |- context [fold_left Dialogues.step ?l Dialogues.init] =>
    assert (H : Shape.dialogues_state (fold_left Dialogues.step l Dialogues.init))
  end.
  { apply fold_left_invariant; [apply dialogues_step_shape|].
    split; [|split; [|split]]; [reflexivity | intros b E; discriminate E | | constructor].
    intro E. now contradiction E. }
  unfold Dialogues.finish.
  destruct (truthy _); cbn [andb]; [|exact (proj2 (proj2 (proj2 H)))].
  destruct (Dialogues.open_paragraph _) eqn:Ho; cbn [andb];
    [|exact (proj2 (proj2 (proj2 H)))].
  destruct (negb _); [now apply dialogues_save_shape | exact (proj2 (proj2 (proj2 H)))].
Qed.

(** *** Seneca's Morals *)

Lemma prefix_cons (a b : ascii) (s t : string) :
  prefix (String a s) (String b t) = if ascii_dec a b then prefix s t else false.
Proof. reflexivity. Qed.

Lemma prefix_split (a : string) : forall s, prefix a s = true -> exists r, s = a ++ r.
Proof.
  induction a as [|c a IH]; intros s H.
  - now exists s.
  - destruct s as [|d s]; [discriminate H|].
    rewrite prefix_cons in H. destruct (ascii_dec c d) as [<-|]; [|discriminate H].
    destruct (IH s H) as [r ->]. now exists r.
Qed.

Lemma prefix_app_r (a : string) : forall s x, prefix a s = true -> prefix a (s ++ x) = true.
Proof.
  induction a as [|c a IH]; intros s x H.
  - destruct (s ++ x); reflexivity.
  - destruct s as [|d s]; [discriminate H|].
    change (String d s ++ x) with (String d (s ++ x)).
    rewrite prefix_cons in *. destruct (ascii_dec c d); [now apply IH | discriminate H].
Qed.

Lemma append_nil_r (s : string) : s ++ "" = s.
Proof. induction s; simpl; congruence. Qed.

Lemma append_assoc (s t u : string) : (s ++ t) ++ u = s ++ (t ++ u).
Proof. induction s; simpl; congruence. Qed.

(** The marker found by [find] begins the text cut at that position. *)
Lemma found_marker_begins_slice (text m : string) (p : nat) :
  find text m = Some p -> prefix m (slice_from p text) = true.
Proof.
  unfold find, slice_from. intro H. apply index_correct1 in H.
  apply prefix_correct. rewrite substring_substring, Nat.add_0_r, Nat.sub_0_r.
  assert (L : length m <= length text - p).
  { rewrite <- H at 1. rewrite <- chars_length, chars_substring, length_firstn, length_skipn,
      chars_length. lia. }
  now rewrite Nat.min_l.
Qed.

(** The first piece of a split begins with what was accumulated. *)
Lemma split_go_first (sep s : string) :
  forall cur, exists r l, split_go sep s 0 cur = (cur ++ r) :: l.
Proof.
  induction s as [|c s IH]; intro cur; cbn [split_go].
  - exists "", []. now rewrite append_nil_r.
  - destruct (prefix sep (String c s)).
    + exists "". eexists. now rewrite append_nil_r.
    + destruct (IH (cur ++ String c "")) as (r & l & E). rewrite E.
      exists (String c r), l. now rewrite append_assoc.
Qed.

Lemma rstrip_keeps_prefix (p : ascii -> bool) (a : string) :
  rstrip_by p a = a -> a <> "" -> forall r, exists r', rstrip_by p (a ++ r) = a ++ r'.
Proof.
  induction a as [|c a IH]; intros Ha Hne r; [congruence|].
  destruct a as [|d a].
  - simpl in Ha. destruct (p c) eqn:Hc; [discriminate Ha|].
    exists (rstrip_by p r). simpl. rewrite Hc. destruct (rstrip_by p r); reflexivity.
  - assert (Ha' : rstrip_by p (String d a) = String d a).
    { cbn [rstrip_by] in Ha. fold (rstrip_by p (String d a)) in Ha.
      change (match rstrip_by p (String d a) with
              | "" => if p c then "" else String c ""
              | String a0 s0 => String c (String a0 s0)
              end = String c (String d a)) in Ha.
      destruct (rstrip_by p (String d a)) as [|e q].
      - destruct (p c); discriminate Ha.
      - congruence. }
    destruct (IH Ha' ltac:(discriminate) r) as [r' E].
    exists r'.
    change (String c (String d a) ++ r) with (String c (String d a ++ r)).
    change (rstrip_by p (String c (String d a ++ r)))
      with (match rstrip_by p (String d a ++ r) with
            | "" => if p c then "" else String c ""
            | String a0 s0 => String c (String a0 s0)
            end).
    rewrite E. reflexivity.
Qed.

(** The first line of the text cut at "SENECA OF BENEFITS" is a main
    section header. *)
Lemma morals_first_line (text : string) (p : nat) :
  find text Morals.start_marker = Some p ->
  exists l tl,
    split NL (slice_from p text) = l :: tl
    /\ Morals.is_section_header (strip l) = true.
Proof.
  intro H. apply found_marker_begins_slice in H.
  destruct (prefix_split _ _ H) as [rest E]. rewrite E. unfold split.
  assert (E1 : split_go NL (Morals.start_marker ++ rest) 0 ""
               = split_go NL rest 0 Morals.start_marker) by reflexivity.
  rewrite E1. destruct (split_go_first NL rest Morals.start_marker) as (r & l & E2).
  rewrite E2. exists (Morals.start_marker ++ r), l. split; [reflexivity|].
  unfold strip.
  assert (E3 : lstrip_by isspace (Morals.start_marker ++ r) = Morals.start_marker ++ r)
    by reflexivity.
  rewrite E3.
  destruct (rstrip_keeps_prefix isspace Morals.start_marker eq_refl ltac:(discriminate) r)
    as [r' E4].
  rewrite E4. reflexivity.
Qed.

Lemma morals_save_shape (st : Morals.state) :
  Shape.morals_state st -> Forall Shape.morals_chunk (Morals.save_chapter st).
Proof.
  intros ((s & Es & Hs) & Hf). unfold Morals.save_chapter.
  destruct (Nat.ltb _ _); [|exact Hf].
  apply Forall_append; [exact Hf|]. unfold Shape.morals_chunk, startswith in *.
  cbn [fst]. rewrite Es. cbn [fmt].
  destruct (truthy (Morals.current_chapter_title st)).
  - apply prefix_app_r. now apply prefix_app_r.
  - now apply prefix_app_r.
Qed.

Lemma morals_flush_shape (st : Morals.state) :
  Shape.morals_state st -> Forall Shape.morals_chunk (Morals.flush st).
Proof.
  intro H. unfold Morals.flush.
  destruct (_ && _); [now apply morals_save_shape | exact (proj2 H)].
Qed.

Lemma morals_step_shape (l : string) (tl : list string) (st : Morals.state) :
  Shape.morals_state st -> Shape.morals_state (fst (Morals.step l tl st)).
Proof.
  intro H. pose proof (morals_flush_shape st H) as HF. destruct H as [Hm Hf].
  unfold Morals.step.
  destruct (Morals.is_section_header (strip l)) eqn:Hs.
  { split; cbn [fst Morals.current_main_section Morals.chunks]; [|exact HF].
    exists (strip l). split; [reflexivity | exact Hs]. }
  destruct (Morals.look_ahead tl [] 0) as [titles passed].
  split_ifs; split; cbn [fst Morals.current_main_section Morals.chunks]; assumption.
Qed.

Lemma morals_loop_shape (lines : list string) :
  forall skip st, Shape.morals_state st -> Shape.morals_state (Morals.loop lines skip st).
Proof.
  induction lines as [|l tl IH]; intros skip st H; simpl; [exact H|].
  destruct skip as [|k]; [|now apply IH].
  pose proof (morals_step_shape l tl st H) as HS.
  destruct (Morals.step l tl st) as [st' k]. now apply IH.
Qed.

(** X10: every chunk label of the Seneca-morals scan begins with
    "SENECA OF ": the text is cut at "SENECA OF BENEFITS", so the first line
    scanned opens a main section, and no label is built from an unset main
    section. *)
Theorem morals_chunks_shape (text : string) : Forall Shape.morals_chunk (Morals.scan text).
Proof.
  unfold Morals.scan.
  destruct (find text Morals.start_marker) as [p|] eqn:F; [|constructor].
  destruct (morals_first_line text p F) as (l & tl & E & Hl). rewrite E.
  unfold Morals.scan_lines.
  assert (H : Shape.morals_state (Morals.loop (l :: tl) 0 Morals.init)).
  { cbn [Morals.loop].
    assert (S1 : Morals.step l tl Morals.init
                 = (Morals.mkState (Some (strip l)) None None [] [], 0)).
    { unfold Morals.step. rewrite Hl. reflexivity. }
    rewrite S1. apply morals_loop_shape.
    split; [exists (strip l); split; [reflexivity | exact Hl] | constructor]. }
  set (st := Morals.loop (l :: tl) 0 Morals.init) in *.
  unfold Morals.finish.
  destruct (truthy (Morals.current_chapter st) && nonempty (Morals.chapter_content st));
    [now apply morals_save_shape|].
  destruct (_ && _ && _); [|exact (proj2 H)].
  destruct (Nat.ltb _ _); [|exact (proj2 H)].
  destruct H as ((s & Es & Hs) & Hf).
  apply Forall_append; [exact Hf|]. unfold Shape.morals_chunk. cbn [fst].
  rewrite Es. exact Hs.
Qed.

(** ** Quote scraping: one page *)

(** Replacing a string that does not occur changes nothing. *)
Lemma replace_absent (old new : string) :
  forall s, find s old = None -> replace old new s = s.
Proof.
  unfold find, replace. induction s as [|c s IH]; intro H; [reflexivity|].
  cbn [replace_go]. cbn [index] in H.
  destruct (prefix old (String c s)); [discriminate H|].
  destruct (index 0 old s); [discriminate H|]. now rewrite IH.
Qed.

Lemma contains_false_find (m s : string) : contains m s = false -> find s m = None.
Proof. unfold contains. destruct (find s m); [discriminate | reflexivity]. Qed.

Lemma mem_false_not_In (x : string) (l : list string) : mem x l = false -> ~ In x l.
Proof. intros H K. apply mem_In in K. congruence. Qed.

(** [keep] on a quote text that is stripped and long enough, with a
    stripped author. *)
Lemma keep_shape (url qt a : string) (st : Scraper.state) :
  Shape2.scraper_state url st ->
  15 <= length qt -> strip qt = qt ->
  Shape2.scraper_state url (Scraper.keep url qt (strip a) st).
Proof.
  intros H Hl Hq. pose proof H as (Hs & Hn & Hv). unfold Scraper.keep.
  destruct (truthy_str (strip a) && truthy_str qt && Nat.ltb 2 (length (strip a))) eqn:C;
    [|exact H].
  apply andb_prop in C as [_ C]. apply Nat.ltb_lt in C.
  destruct (mem (Scraper.quote_key qt (strip a)) (Scraper.seen_on_page st)) eqn:M;
    cbn [negb]; [exact H|].
  apply mem_false_not_In in M.
  split; [|split]; cbn [Scraper.quotes Scraper.seen_on_page].
  - intro k. rewrite map_app, in_app_iff. cbn [map In Scraper.key_of Scraper.quote_text
      Scraper.author]. rewrite <- Hs. unfold Scraper.key_of. tauto.
  - rewrite map_app. cbn [map]. apply NoDup_app; [exact Hn | repeat constructor; auto |].
    intros k Hk [<-|[]]. apply M, Hs, Hk.
  - apply Forall_app. split; [exact Hv|]. constructor; [|constructor].
    repeat split; cbn [Scraper.quote_text Scraper.author Scraper.source_url];
      auto using strip_idem.
Qed.

Lemma link_step_shape (url : string) (st : Scraper.state) (l : Scraper.link) :
  Shape2.scraper_state url st -> Shape2.scraper_state url (Scraper.link_step url st l).
Proof.
  intro H. unfold Scraper.link_step.
  destruct (Scraper.link_text l) as [t|]; [|exact H].
  destruct (negb (truthy_str (strip t))); cbn [orb]; [exact H|].
  destruct (Nat.ltb (length (strip t)) 15) eqn:L; cbn [orb]; [exact H|].
  destruct (contains Scraper.share (strip t)) eqn:C; [exact H|].
  apply Nat.ltb_ge in L.
  rewrite (replace_absent _ _ _ (contains_false_find _ _ C)), strip_idem.
  destruct (Scraper.parent_author l) as [a|];
    [apply keep_shape; auto using strip_idem|].
  destruct (Scraper.following_author l) as [a|];
    [apply keep_shape; auto using strip_idem | exact H].
Qed.

Lemma container_step_shape (url : string) (st : Scraper.state) (c : Scraper.container) :
  Shape2.scraper_state url st -> Shape2.scraper_state url (Scraper.container_step url st c).
Proof.
  intro H. unfold Scraper.container_step.
  destruct (Scraper.quote_link c) as [t|]; [|exact H].
  destruct (negb (truthy_str (strip (replace Scraper.share "" (strip t))))); cbn [orb];
    [exact H|].
  destruct (Nat.ltb (length (strip (replace Scraper.share "" (strip t)))) 15) eqn:L;
    [exact H|].
  apply Nat.ltb_ge in L.
  destruct (Scraper.author_link c) as [a|]; [|exact H].
  apply keep_shape; auto using strip_idem.
Qed.

Lemma scraper_init_shape (url : string) : Shape2.scraper_state url Scraper.init.
Proof. split; [intro k; reflexivity | split; constructor]. Qed.

(** X11: whatever the page holds, the quotes [scrape_quotes_from_page]
    returns are valid (text of at least 15 characters, author of more than 2,
    both stripped, the page's URL as source) and no two of them have the same
    key (first 50 characters of the text, "||", author); a page the driver
    cannot load gives the empty list. *)
Theorem scraped_quotes_valid_and_distinct (p : option Scraper.page) (url : string) :
  Forall (Shape2.valid_quote url) (Scraper.scrape_quotes_from_page p url)
  /\ NoDup (map Scraper.key_of (Scraper.scrape_quotes_from_page p url))
  /\ Scraper.scrape_quotes_from_page None url = [].
Proof.
  assert (H : exists st, Shape2.scraper_state url st
                         /\ Scraper.quotes st = Scraper.scrape_quotes_from_page p url).
  { unfold Scraper.scrape_quotes_from_page. destruct p as [pg|].
    - destruct (nonempty (Scraper.containers pg)).
      + eexists. split; [|reflexivity].
        apply fold_left_invariant; [apply container_step_shape | apply scraper_init_shape].
      + eexists. split; [|reflexivity].
        apply fold_left_invariant; [apply link_step_shape | apply scraper_init_shape].
    - exists Scraper.init. split; [apply scraper_init_shape | reflexivity]. }
  destruct H as (st & (_ & Hn & Hv) & E).
  rewrite <- E. auto.
Qed.

(** X12: on the fallback path (no container found) no quote returned
    contains the text "Share this Quote". *)
Theorem fallback_quotes_without_share (pg : Scraper.page) (url : string) :
  Scraper.containers pg = [] ->
  Forall (fun q => contains Scraper.share (Scraper.quote_text q) = false)
         (Scraper.scrape_quotes_from_page (Some pg) url).
Proof.
  intro Hc. unfold Scraper.scrape_quotes_from_page. rewrite Hc. cbn [nonempty].
  apply (fold_left_invariant
           (fun st => Forall (fun q => contains Scraper.share (Scraper.quote_text q) = false)
                             (Scraper.quotes st))); [|constructor].
  intros st l H. unfold Scraper.link_step.
  destruct (Scraper.link_text l) as [t|]; [|exact H].
  destruct (negb (truthy_str (strip t))); cbn [orb]; [exact H|].
  destruct (Nat.ltb (length (strip t)) 15); cbn [orb]; [exact H|].
  destruct (contains Scraper.share (strip t)) eqn:C; [exact H|].
  rewrite (replace_absent _ _ _ (contains_false_find _ _ C)), strip_idem.
  assert (K : forall a, Forall (fun q => contains Scraper.share (Scraper.quote_text q) = false)
                               (Scraper.quotes (Scraper.keep url (strip t) a st))).
  { intro a. unfold Scraper.keep. split_ifs; try exact H.
    cbn [Scraper.quotes]. apply Forall_app. split; [exact H|].
    constructor; [exact C | constructor]. }
  destruct (Scraper.parent_author l); [apply K|].
  destruct (Scraper.following_author l); [apply K | exact H].
Qed.

Lemma fallback_quotes_without_share_witness :
  Scraper.containers
    (Scraper.mkPage [] [Scraper.mkLink (Some " The unexamined life is not worth living. ")
                          None (Some "Socrates")]) = []
  /\ Forall (fun q => contains Scraper.share (Scraper.quote_text q) = false)
       (Scraper.scrape_quotes_from_page
          (Some (Scraper.mkPage [] [Scraper.mkLink
                                      (Some " The unexamined life is not worth living. ")
                                      None (Some "Socrates")])) "u").
Proof.
  split; [reflexivity|].
  exact (fallback_quotes_without_share
           (Scraper.mkPage [] [Scraper.mkLink
                                 (Some " The unexamined life is not worth living. ")
                                 None (Some "Socrates")]) "u" eq_refl).
Defined.

Lemma keep_seen_grows (url qt a k : string) (st : Scraper.state) :
  In k (Scraper.seen_on_page st) -> In k (Scraper.seen_on_page (Scraper.keep url qt a st)).
Proof.
  intro H. unfold Scraper.keep. split_ifs; try exact H.
  cbn [Scraper.seen_on_page]. now right.
Qed.

Lemma container_step_seen_grows (url k : string) (st : Scraper.state) (c : Scraper.container) :
  In k (Scraper.seen_on_page st) ->
  In k (Scraper.seen_on_page (Scraper.container_step url st c)).
Proof.
  intro H. unfold Scraper.container_step.
  destruct (Scraper.quote_link c); [|exact H].
  destruct (_ || _); [exact H|].
  destruct (Scraper.author_link c); [now apply keep_seen_grows | exact H].
Qed.

Lemma truthy_of_length (s : string) (n : nat) : n < length s -> truthy_str s = true.
Proof. destruct s; simpl; [lia | reflexivity]. Qed.

Lemma container_step_sees (url t a : string) (st : Scraper.state) (c : Scraper.container) :
  Scraper.quote_link c = Some t ->
  Scraper.author_link c = Some a ->
  15 <= length (strip (replace Scraper.share "" (strip t))) ->
  2 < length (strip a) ->
  In (Scraper.quote_key (strip (replace Scraper.share "" (strip t))) (strip a))
     (Scraper.seen_on_page (Scraper.container_step url st c)).
Proof.
  intros Hq Ha Hl Hla. unfold Scraper.container_step. rewrite Hq, Ha.
  rewrite (truthy_of_length _ 14) by lia.
  assert (L : Nat.ltb (length (strip (replace Scraper.share "" (strip t)))) 15 = false)
    by (apply Nat.ltb_ge; lia).
  rewrite L. cbn [negb orb]. unfold Scraper.keep.
  rewrite (truthy_of_length (strip a) 2) by lia.
  rewrite (truthy_of_length _ 14) by lia.
  assert (L2 : Nat.ltb 2 (length (strip a)) = true) by (apply Nat.ltb_lt; lia).
  rewrite L2. cbn [andb].
  destruct (mem _ (Scraper.seen_on_page st)) eqn:M; cbn [negb Scraper.seen_on_page].
  - now apply mem_In.
  - now left.
Qed.

(** X13: the dedup of a page loses no valid quote: for every container
    whose cleaned quote text has at least 15 characters and whose author has
    more than 2, the key of that quote is the key of one of the quotes
    returned. *)
Theorem scraped_containers_all_represented
        (pg : Scraper.page) (url : string) (c : Scraper.container) (t a : string) :
  In c (Scraper.containers pg) ->
  Scraper.quote_link c = Some t ->
  Scraper.author_link c = Some a ->
  15 <= length (strip (replace Scraper.share "" (strip t))) ->
  2 < length (strip a) ->
  In (Scraper.quote_key (strip (replace Scraper.share "" (strip t))) (strip a))
     (map Scraper.key_of (Scraper.scrape_quotes_from_page (Some pg) url)).
Proof.
  intros Hin Hq Ha Hl Hla. unfold Scraper.scrape_quotes_from_page.
  assert (Hne : nonempty (Scraper.containers pg) = true)
    by (destruct (Scraper.containers pg); [contradiction Hin | reflexivity]).
  rewrite Hne.
  assert (Inv : Shape2.scraper_state url
                  (fold_left (Scraper.container_step url) (Scraper.containers pg) Scraper.init))
    by (apply fold_left_invariant; [apply container_step_shape | apply scraper_init_shape]).
  apply (proj1 Inv).
  generalize Scraper.init. revert Hin. generalize (Scraper.containers pg).
  induction l as [|c' l IH]; intros Hin st; [contradiction Hin|].
  cbn [fold_left]. destruct Hin as [->|Hin]; [|now apply IH].
  assert (G : forall l' s, In (Scraper.quote_key (strip (replace Scraper.share "" (strip t)))
                                 (strip a)) (Scraper.seen_on_page s) ->
              In (Scraper.quote_key (strip (replace Scraper.share "" (strip t))) (strip a))
                 (Scraper.seen_on_page (fold_left (Scraper.container_step url) l' s))).
  { induction l' as [|x l' IH']; intros s Hs; [exact Hs|].
    cbn [fold_left]. apply IH'. now apply container_step_seen_grows. }
  apply G. now apply container_step_sees.
Qed.

Lemma scraped_containers_all_represented_witness :
  In (Scraper.mkContainer (Some "Know thyself and all will follow.") (Some "Thales"))
     [Scraper.mkContainer (Some "Know thyself and all will follow.") (Some "Thales");
      Scraper.mkContainer (Some " Know thyself and all will follow. ") (Some "Thales ")]
  /\ In (Scraper.quote_key "Know thyself and all will follow." "Thales")
        (map Scraper.key_of
           (Scraper.scrape_quotes_from_page
              (Some (Scraper.mkPage
                       [Scraper.mkContainer (Some "Know thyself and all will follow.")
                                            (Some "Thales");
                        Scraper.mkContainer (Some " Know thyself and all will follow. ")
                                            (Some "Thales ")] [])) "u"))
  /\ List.length
       (Scraper.scrape_quotes_from_page
          (Some (Scraper.mkPage
                   [Scraper.mkContainer (Some "Know thyself and all will follow.")
                                        (Some "Thales");
                    Scraper.mkContainer (Some " Know thyself and all will follow. ")
                                        (Some "Thales ")] [])) "u") = 1.
Proof.
  split; [now left|]. split; [|reflexivity].
  apply (scraped_containers_all_represented
           (Scraper.mkPage
              [Scraper.mkContainer (Some "Know thyself and all will follow.") (Some "Thales");
               Scraper.mkContainer (Some " Know thyself and all will follow. ")
                                   (Some "Thales ")] [])
           "u" (Scraper.mkContainer (Some "Know thyself and all will follow.") (Some "Thales"))
           "Know thyself and all will follow." "Thales");
    [now left | reflexivity | reflexivity | vm_compute; lia | vm_compute; lia].
Defined.

(** ** Quote upload *)

Section UploadCounts.

Variable db : Type.
Variable select_hash : db -> string -> option bool.
Variable insert_row : db -> QuoteUpload.row -> db * bool.

Local Abbreviation step := (QuoteUpload.step db select_hash insert_row).

Lemma quote_step_counts (st : QuoteUpload.state db) (q : Scraper.quote) :
  QuoteUpload.inserted_count db (step st q) + QuoteUpload.skipped_count db (step st q)
  <= S (QuoteUpload.inserted_count db st + QuoteUpload.skipped_count db st)
  /\ ((forall d h, select_hash d h <> None) ->
      (forall d r, snd (insert_row d r) = true) ->
      QuoteUpload.inserted_count db (step st q) + QuoteUpload.skipped_count db (step st q)
      = S (QuoteUpload.inserted_count db st + QuoteUpload.skipped_count db st)).
Proof.
  unfold QuoteUpload.step.
  set (h := generate_quote_hash (Scraper.quote_text q) (Scraper.author q)).
  set (r := QuoteUpload.mkRow _ _ _ _).
  destruct (select_hash (QuoteUpload.table db st) h) as [[|]|] eqn:E.
  - cbn. split; intros; lia.
  - destruct (insert_row (QuoteUpload.table db st) r) as [d ok] eqn:EI. destruct ok; cbn.
    + split; intros; lia.
    + split; [lia|]. intros _ Hi. specialize (Hi (QuoteUpload.table db st) r).
      rewrite EI in Hi. discriminate Hi.
  - split; [lia|]. intros Hs _. exfalso. exact (Hs _ _ E).
Qed.

(** X14: [upload_quotes_to_supabase] counts each quote at most once: inserted
    plus skipped never exceeds the number of quotes, whatever the table does,
    and equals it when neither the select nor the insert ever raises. *)
Theorem upload_quotes_counts (quotes : list Scraper.quote) (d : db) :
  let r := QuoteUpload.upload_quotes_to_supabase db select_hash insert_row quotes d in
  QuoteUpload.inserted_count db r + QuoteUpload.skipped_count db r <= List.length quotes
  /\ ((forall d h, select_hash d h <> None) ->
      (forall d r, snd (insert_row d r) = true) ->
      QuoteUpload.inserted_count db r + QuoteUpload.skipped_count db r = List.length quotes).
Proof.
  cbv zeta. unfold QuoteUpload.upload_quotes_to_supabase.
  assert (G : forall qs st,
    QuoteUpload.inserted_count db (fold_left step qs st)
    + QuoteUpload.skipped_count db (fold_left step qs st)
    <= QuoteUpload.inserted_count db st + QuoteUpload.skipped_count db st + List.length qs
    /\ ((forall d h, select_hash d h <> None) ->
        (forall d r, snd (insert_row d r) = true) ->
        QuoteUpload.inserted_count db (fold_left step qs st)
        + QuoteUpload.skipped_count db (fold_left step qs st)
        = QuoteUpload.inserted_count db st + QuoteUpload.skipped_count db st
          + List.length qs)).
  { induction qs as [|q qs IH]; intro st; cbn [fold_left List.length].
    - split; intros; lia.
    - destruct (IH (step st q)) as [I1 I2].
      destruct (quote_step_counts st q) as [S1 S2].
      split; [lia|]. intros Hs Hi. specialize (I2 Hs Hi). specialize (S2 Hs Hi). lia. }
  destruct (G quotes (QuoteUpload.mkState db d 0 0)) as [G1 G2].
  cbn in G1, G2. split; [exact G1 | exact G2].
Qed.

End UploadCounts.

Lemma upload_quotes_counts_witness :
  (forall (d : list QuoteUpload.row) h, QuoteUpload.list_select d h <> None)
  /\ (forall (d : list QuoteUpload.row) r, snd (QuoteUpload.list_insert d r) = true)
  /\ QuoteUpload.inserted_count _
       (QuoteUpload.upload_to_list
          [Scraper.mkQuote "Know thyself and all will follow." "Thales" "u";
           Scraper.mkQuote "KNOW THYSELF AND ALL WILL FOLLOW." "thales" "u"] [])
     + QuoteUpload.skipped_count _
         (QuoteUpload.upload_to_list
            [Scraper.mkQuote "Know thyself and all will follow." "Thales" "u";
             Scraper.mkQuote "KNOW THYSELF AND ALL WILL FOLLOW." "thales" "u"] [])
     = 2.
Proof.
  assert (H1 : forall (d : list QuoteUpload.row) h, QuoteUpload.list_select d h <> None)
    by (intros d h; discriminate).
  assert (H2 : forall (d : list QuoteUpload.row) r, snd (QuoteUpload.list_insert d r) = true)
    by reflexivity.
  split; [exact H1|]. split; [exact H2|].
  exact (proj2 (upload_quotes_counts (list QuoteUpload.row) QuoteUpload.list_select
                  QuoteUpload.list_insert
                  [Scraper.mkQuote "Know thyself and all will follow." "Thales" "u";
                   Scraper.mkQuote "KNOW THYSELF AND ALL WILL FOLLOW." "thales" "u"] [])
               H1 H2).
Defined.

(** *** A table that never raises *)

Lemma hash_found (d : list QuoteUpload.row) (h : string) :
  existsb (fun r => String.eqb (QuoteUpload.row_quote_hash r) h) d = true
  <-> In h (Shape2.hashes d).
Proof.
  unfold Shape2.hashes. rewrite existsb_exists, in_map_iff. split.
  - intros (r & Hr & E). apply String.eqb_eq in E. eauto.
  - intros (r & E & Hr). exists r. split; [exact Hr | now apply String.eqb_eq].
Qed.

Lemma list_step_cases (st : QuoteUpload.state (list QuoteUpload.row)) (q : Scraper.quote) :
  let step := QuoteUpload.step _ QuoteUpload.list_select QuoteUpload.list_insert in
  (In (Shape2.hash_of q) (Shape2.hashes (QuoteUpload.table _ st))
   /\ step st q = QuoteUpload.mkState _ (QuoteUpload.table _ st)
                    (QuoteUpload.inserted_count _ st) (S (QuoteUpload.skipped_count _ st)))
  \/ (~ In (Shape2.hash_of q) (Shape2.hashes (QuoteUpload.table _ st))
      /\ step st q
         = QuoteUpload.mkState _
             (QuoteUpload.table _ st
              ++ [QuoteUpload.mkRow (Scraper.quote_text q) (Scraper.author q)
                    (Scraper.source_url q) (Shape2.hash_of q)])%list
             (S (QuoteUpload.inserted_count _ st)) (QuoteUpload.skipped_count _ st)).
Proof.
  intro step. subst step. unfold QuoteUpload.step, QuoteUpload.list_select.
  fold (Shape2.hash_of q).
  destruct (existsb _ (QuoteUpload.table _ st)) eqn:E.
  - left. split; [now apply hash_found | reflexivity].
  - right. split; [|reflexivity]. intro K. apply hash_found in K. congruence.
Qed.

Lemma hashes_app (d e : list QuoteUpload.row) :
  Shape2.hashes (d ++ e) = (Shape2.hashes d ++ Shape2.hashes e)%list.
Proof. apply map_app. Qed.

(** What one run over a reliable table does, from any state. *)
Lemma list_upload_from (quotes : list Scraper.quote) :
  forall st : QuoteUpload.state (list QuoteUpload.row),
    NoDup (Shape2.hashes (QuoteUpload.table _ st)) ->
    let r := fold_left (QuoteUpload.step _ QuoteUpload.list_select QuoteUpload.list_insert)
                       quotes st in
    NoDup (Shape2.hashes (QuoteUpload.table _ r))
    /\ (exists new, QuoteUpload.table _ r = (QuoteUpload.table _ st ++ new)%list
                    /\ List.length new + QuoteUpload.inserted_count _ st
                       = QuoteUpload.inserted_count _ r
                    /\ Forall (fun row => exists q, In q quotes
                                 /\ QuoteUpload.row_quote_text row = Scraper.quote_text q
                                 /\ QuoteUpload.row_author row = Scraper.author q
                                 /\ QuoteUpload.row_source_url row = Scraper.source_url q
                                 /\ QuoteUpload.row_quote_hash row = Shape2.hash_of q) new)
    /\ (forall q, In q quotes -> In (Shape2.hash_of q) (Shape2.hashes (QuoteUpload.table _ r))).
Proof.
  induction quotes as [|q quotes IH]; intros st Hn; cbn [fold_left].
  - split; [exact Hn|]. split; [|intros q []].
    exists []. rewrite app_nil_r. repeat split. constructor.
  - destruct (list_step_cases st q) as [[Hin E] | [Hout E]]; cbv zeta in E; rewrite E.
    + destruct (IH (QuoteUpload.mkState _ (QuoteUpload.table _ st)
                      (QuoteUpload.inserted_count _ st)
                      (S (QuoteUpload.skipped_count _ st))) Hn)
        as (R1 & (new & R2 & R3 & R4) & R5).
      cbn [QuoteUpload.table QuoteUpload.inserted_count] in *.
      split; [exact R1|]. split.
      * exists new. repeat split; auto.
        eapply Forall_impl; [|exact R4]. intros row (q' & Hq' & K). exists q'. split; auto.
        now right.
      * intros q' [<-|Hq']; [|now apply R5].
        rewrite R2, hashes_app. apply in_or_app. now left.
    + match goal with |- context [fold_left _ quotes ?s] => set (st1 := s) end.
      assert (Hn1 : NoDup (Shape2.hashes (QuoteUpload.table _ st1))).
      { subst st1. cbn [QuoteUpload.table]. rewrite hashes_app.
        apply NoDup_app; [exact Hn | repeat constructor; auto |].
        intros k Hk [<-|[]]. exact (Hout Hk). }
      destruct (IH st1 Hn1) as (R1 & (new & R2 & R3 & R4) & R5).
      subst st1. cbn [QuoteUpload.table QuoteUpload.inserted_count] in *.
      split; [exact R1|]. split.
      * eexists. split; [rewrite R2, <- app_assoc; reflexivity|]. split.
        -- rewrite length_app. cbn [List.length]. lia.
        -- apply Forall_app. split.
           ++ constructor; [|constructor]. exists q. cbn. repeat split. now left.
           ++ eapply Forall_impl; [|exact R4]. intros row (q' & Hq' & K). exists q'.
              split; auto. now right.
      * intros q' [<-|Hq']; [|now apply R5].
        rewrite R2, !hashes_app. apply in_or_app. left. apply in_or_app. right. now left.
Qed.

(** X15: over a table that never raises (a list of rows with pairwise
    distinct hashes), [upload_quotes_to_supabase] only appends rows; the rows
    added are as many as were counted inserted, each is one of the quotes
    with its hash; the hashes stay pairwise distinct; and afterwards the hash
    of every quote of the run is in the table. *)
Theorem upload_quotes_keeps_hashes_distinct
        (quotes : list Scraper.quote) (d : list QuoteUpload.row) :
  NoDup (Shape2.hashes d) ->
  let r := QuoteUpload.upload_to_list quotes d in
  NoDup (Shape2.hashes (QuoteUpload.table _ r))
  /\ (exists new, QuoteUpload.table _ r = (d ++ new)%list
                  /\ List.length new = QuoteUpload.inserted_count _ r
                  /\ Forall (fun row => exists q, In q quotes
                               /\ QuoteUpload.row_quote_text row = Scraper.quote_text q
                               /\ QuoteUpload.row_author row = Scraper.author q
                               /\ QuoteUpload.row_source_url row = Scraper.source_url q
                               /\ QuoteUpload.row_quote_hash row = Shape2.hash_of q) new)
  /\ (forall q, In q quotes -> In (Shape2.hash_of q) (Shape2.hashes (QuoteUpload.table _ r))).
Proof.
  intros Hn r. subst r. unfold QuoteUpload.upload_to_list, QuoteUpload.upload_quotes_to_supabase.
  destruct (list_upload_from quotes (QuoteUpload.mkState _ d 0 0) Hn)
    as (R1 & (new & R2 & R3 & R4) & R5).
  cbn [QuoteUpload.table QuoteUpload.inserted_count] in *.
  split; [exact R1|]. split; [|exact R5].
  exists new. repeat split; auto. lia.
Qed.

Lemma upload_quotes_keeps_hashes_distinct_witness :
  NoDup (Shape2.hashes [])
  /\ NoDup (Shape2.hashes
              (QuoteUpload.table _
                 (QuoteUpload.upload_to_list
                    [Scraper.mkQuote "Know thyself and all will follow." "Thales" "u";
                     Scraper.mkQuote "KNOW THYSELF AND ALL WILL FOLLOW." "thales" "u"] []))).
Proof.
  assert (H : NoDup (Shape2.hashes [])) by constructor.
  split; [exact H|].
  exact (proj1 (upload_quotes_keeps_hashes_distinct
                  [Scraper.mkQuote "Know thyself and all will follow." "Thales" "u";
                   Scraper.mkQuote "KNOW THYSELF AND ALL WILL FOLLOW." "thales" "u"] [] H)).
Defined.

Lemma list_upload_covers (quotes : list Scraper.quote) :
  forall st : QuoteUpload.state (list QuoteUpload.row),
    let r := fold_left (QuoteUpload.step _ QuoteUpload.list_select QuoteUpload.list_insert)
                       quotes st in
    (forall h, In h (Shape2.hashes (QuoteUpload.table _ st)) ->
               In h (Shape2.hashes (QuoteUpload.table _ r)))
    /\ (forall q, In q quotes -> In (Shape2.hash_of q) (Shape2.hashes (QuoteUpload.table _ r))).
Proof.
  induction quotes as [|q quotes IH]; intro st; cbn [fold_left]; cbv zeta.
  - split; [auto | intros q []].
  - destruct (list_step_cases st q) as [[Hin E] | [Hout E]]; cbv zeta in E; rewrite E;
      match goal with |- context [fold_left _ quotes ?s] =>
        destruct (IH s) as [I1 I2] end;
      cbn [QuoteUpload.table] in *.
    + split; [exact I1|]. intros q' [<-|Hq']; [now apply I1 | now apply I2].
    + assert (K : forall h, In h (Shape2.hashes (QuoteUpload.table _ st)) ->
                            In h (Shape2.hashes
                                    (QuoteUpload.table _ st
                                     ++ [QuoteUpload.mkRow (Scraper.quote_text q)
                                           (Scraper.author q) (Scraper.source_url q)
                                           (Shape2.hash_of q)]))).
      { intros h Hh. rewrite hashes_app. apply in_or_app. now left. }
      split; [intros h Hh; apply I1, K, Hh|].
      intros q' [<-|Hq']; [|now apply I2].
      apply I1. rewrite hashes_app. apply in_or_app. right. now left.
Qed.

Lemma list_upload_all_known (quotes : list Scraper.quote) (d : list QuoteUpload.row) :
  (forall q, In q quotes -> In (Shape2.hash_of q) (Shape2.hashes d)) ->
  forall i s,
    fold_left (QuoteUpload.step _ QuoteUpload.list_select QuoteUpload.list_insert) quotes
              (QuoteUpload.mkState _ d i s)
    = QuoteUpload.mkState _ d i (s + List.length quotes).
Proof.
  induction quotes as [|q quotes IH]; intros H i s; cbn [fold_left List.length].
  - now rewrite Nat.add_0_r.
  - destruct (list_step_cases (QuoteUpload.mkState _ d i s) q) as [[_ E] | [Hout _]];
      cbv zeta in *; cbn [QuoteUpload.table QuoteUpload.inserted_count
                          QuoteUpload.skipped_count] in *.
    + rewrite E, IH by (intros q' Hq'; apply H; now right). f_equal. lia.
    + exfalso. apply Hout, H. now left.
Qed.

(** X16: over a table that never raises the upload is idempotent: running
    [upload_quotes_to_supabase] again with the same quotes on the table the
    first run left inserts nothing, skips every quote and leaves the table as
    it is. *)
Theorem upload_quotes_idempotent (quotes : list Scraper.quote) (d : list QuoteUpload.row) :
  QuoteUpload.upload_to_list quotes (QuoteUpload.table _ (QuoteUpload.upload_to_list quotes d))
  = QuoteUpload.mkState _ (QuoteUpload.table _ (QuoteUpload.upload_to_list quotes d))
                        0 (List.length quotes).
Proof.
  unfold QuoteUpload.upload_to_list at 1. unfold QuoteUpload.upload_quotes_to_supabase.
  apply list_upload_all_known.
  exact (proj2 (list_upload_covers quotes (QuoteUpload.mkState _ d 0 0))).
Qed.



(** ** Chunk upload: batches *)

Lemma concat_slices {A : Type} (m : nat) :
  forall l : list A,
    List.length l <= m * 20 ->
    List.concat (map (fun k => firstn 20 (skipn (k * 20) l)) (List.seq 0 m)) = l.
Proof.
  induction m as [|m IH]; intros l H.
  - destruct l; [reflexivity | simpl in H; lia].
  - cbn [List.seq map List.concat]. rewrite <- seq_shift, map_map.
    change (skipn (0 * 20) l) with l.
    transitivity (firstn 20 l ++ skipn 20 l)%list; [|apply firstn_skipn]. f_equal.
    etransitivity; [|apply (IH (skipn 20 l)); rewrite length_skipn; lia].
    f_equal. apply map_ext. intro k. rewrite skipn_skipn.
    replace (S k * 20) with (k * 20 + 20) by lia. reflexivity.
Qed.

Lemma batches_unfold {A : Type} (chunks : list A) :
  ChunkUpload.batches chunks
  = map (fun k => firstn 20 (skipn (k * 20) chunks))
        (List.seq 0 ((List.length chunks + 19) / 20)).
Proof.
  unfold ChunkUpload.batches, ChunkUpload.batch_starts, ChunkUpload.batch_at,
    ChunkUpload.batch_size.
  rewrite map_map. replace (List.length chunks + 20 - 1) with (List.length chunks + 19) by lia.
  reflexivity.
Qed.

Lemma batches_concat {A : Type} (chunks : list A) :
  List.concat (ChunkUpload.batches chunks) = chunks.
Proof.
  rewrite batches_unfold. apply concat_slices.
  pose proof (Nat.div_mod_eq (List.length chunks + 19) 20) as D.
  pose proof (Nat.mod_upper_bound (List.length chunks + 19) 20 ltac:(lia)) as U. lia.
Qed.

(** X18: the batches of [upload_to_supabase] cut the chunk list into
    consecutive pieces: put end to end they give the list back, there are
    ceil(n / 20) of them, none is empty or longer than 20, and every batch
    but the last has exactly 20 chunks. *)
Theorem batches_partition {A : Type} (chunks : list A) :
  List.concat (ChunkUpload.batches chunks) = chunks
  /\ List.length (ChunkUpload.batches chunks) = (List.length chunks + 19) / 20
  /\ Forall (fun b => 1 <= List.length b <= 20) (ChunkUpload.batches chunks)
  /\ (forall i, S i < List.length (ChunkUpload.batches chunks) ->
                List.length (nth i (ChunkUpload.batches chunks) []) = 20).
Proof.
  rewrite batches_unfold.
  set (n := List.length chunks). set (m := (n + 19) / 20).
  assert (Hm : n <= m * 20 /\ (m = 0 \/ (m - 1) * 20 < n)).
  { subst m. pose proof (Nat.div_mod_eq (n + 19) 20) as D.
    pose proof (Nat.mod_upper_bound (n + 19) 20 ltac:(lia)) as U. lia. }
  destruct Hm as [Hm1 Hm2].
  split; [apply concat_slices; exact Hm1|].
  split; [now rewrite length_map, length_seq|].
  split.
  - apply Forall_forall. intros b Hb. apply in_map_iff in Hb as (k & <- & Hk).
    apply in_seq in Hk. rewrite length_firstn, length_skipn. fold n. lia.
  - intros i Hi. rewrite length_map, length_seq in Hi.
    rewrite (nth_indep _ [] (firstn 20 (skipn (0 * 20) chunks)))
      by (rewrite length_map, length_seq; lia).
    rewrite (map_nth (fun k => firstn 20 (skipn (k * 20) chunks))).
    rewrite seq_nth by lia. rewrite length_firstn, length_skipn. fold n. lia.
Qed.

(** ** Chunk upload: what reaches the table *)

Lemma chunk_of_records {E : Type} (batch : list chunk) (es : list E) :
  List.length es = List.length batch ->
  map Shape2.chunk_of (ChunkUpload.records_of E batch es) = batch.
Proof.
  revert es. induction batch as [|c batch IH]; intros es H.
  - reflexivity.
  - destruct es as [|e es]; [discriminate H|].
    cbn [ChunkUpload.records_of combine map]. injection H as H.
    unfold ChunkUpload.records_of in IH. rewrite IH by exact H.
    destruct c. reflexivity.
Qed.

Lemma records_of_length {E : Type} (batch : list chunk) (es : list E) :
  List.length (ChunkUpload.records_of E batch es) <= List.length batch.
Proof.
  unfold ChunkUpload.records_of. rewrite length_map, length_combine. lia.
Qed.

Section UploadTotals.

Variable embedding : Type.
Variable db : Type.
Variable encode : list string -> option (list embedding).
Variable insert : db -> list (ChunkUpload.record embedding) -> db * bool.

Lemma upload_batches_bound (bs : list (list chunk)) :
  forall d total,
    match ChunkUpload.upload_batches embedding db encode insert bs d total with
    | ChunkUpload.Uploaded _ _ t | ChunkUpload.EncoderRaised _ _ t =>
        total <= t <= total + List.length (List.concat bs)
    end.
Proof.
  induction bs as [|b bs IH]; intros d total; cbn [ChunkUpload.upload_batches List.concat].
  - cbn. lia.
  - rewrite length_app.
    destruct (encode (map chunk_text_body b)) as [es|]; [|lia].
    pose proof (records_of_length b es) as L.
    destruct (insert d (ChunkUpload.records_of embedding b es)) as [d' ok].
    destruct ok.
    + specialize (IH d' (total + List.length (ChunkUpload.records_of embedding b es))).
      destruct (ChunkUpload.upload_batches _ _ _ _ bs d' _); lia.
    + specialize (IH d' total).
      destruct (ChunkUpload.upload_batches _ _ _ _ bs d' _); lia.
Qed.

(** Over a table that stores what it accepts, the count grows by the records
    stored and by nothing else. *)
Lemma upload_batches_selective
      (accept : list (ChunkUpload.record embedding) -> bool) (bs : list (list chunk)) :
  forall d0 total,
    match ChunkUpload.upload_batches embedding _ encode (Shape2.selective_insert accept)
            bs d0 total with
    | ChunkUpload.Uploaded _ d' t | ChunkUpload.EncoderRaised _ d' t =>
        exists rs, d' = (d0 ++ rs)%list /\ t = total + List.length rs
    end.
Proof.
  induction bs as [|b bs IH]; intros d0 total; cbn [ChunkUpload.upload_batches].
  - exists []. now rewrite app_nil_r, Nat.add_0_r.
  - destruct (encode (map chunk_text_body b)) as [es|].
    + unfold Shape2.selective_insert at 1.
      destruct (accept (ChunkUpload.records_of embedding b es)).
      * specialize (IH (d0 ++ ChunkUpload.records_of embedding b es)%list
                       (total + List.length (ChunkUpload.records_of embedding b es))).
        destruct (ChunkUpload.upload_batches _ _ _ _ bs _ _) as [d' t|d' t];
          destruct IH as (rs & -> & ->);
          exists (ChunkUpload.records_of embedding b es ++ rs)%list;
          rewrite app_assoc, length_app; (split; [reflexivity | lia]).
      * apply IH.
    + exists []. now rewrite app_nil_r, Nat.add_0_r.
Qed.

(** X19: [upload_to_supabase] never counts more chunks uploaded than it
    was given, whatever the encoder and the table do; when the encoder
    returns one embedding per text and no insert raises, it counts all of
    them; and over a table that stores the batches it accepts and raises on
    the others, the count is the number of records stored, whatever the
    encoder does: a failed insert adds nothing to the count. *)
Theorem upload_to_supabase_total (chunks : list chunk) (d : db) :
  match ChunkUpload.upload_to_supabase embedding db encode insert chunks d with
  | ChunkUpload.Uploaded _ _ t | ChunkUpload.EncoderRaised _ _ t =>
      t <= List.length chunks
  end
  /\ ((forall texts, exists es, encode texts = Some es
                                /\ List.length es = List.length texts) ->
      (forall d rs, snd (insert d rs) = true) ->
      exists d', ChunkUpload.upload_to_supabase embedding db encode insert chunks d
                 = ChunkUpload.Uploaded db d' (List.length chunks))
  /\ (forall accept (d0 : list (ChunkUpload.record embedding)),
        match ChunkUpload.upload_to_supabase embedding _ encode
                (Shape2.selective_insert accept) chunks d0 with
        | ChunkUpload.Uploaded _ d' t | ChunkUpload.EncoderRaised _ d' t =>
            exists rs, d' = (d0 ++ rs)%list /\ t = List.length rs
        end).
Proof.
  unfold ChunkUpload.upload_to_supabase. split; [|split].
  - pose proof (upload_batches_bound (ChunkUpload.batches chunks) d 0) as B.
    rewrite (batches_concat chunks) in B.
    destruct (ChunkUpload.upload_batches _ _ _ _ _ d 0); lia.
  - intros He Hi.
    assert (G : forall bs d total,
      exists d', ChunkUpload.upload_batches embedding db encode insert bs d total
                 = ChunkUpload.Uploaded db d'
                     (total + List.length (List.concat bs))).
    { induction bs as [|b bs IH]; intros d0 total;
        cbn [ChunkUpload.upload_batches List.concat].
      - exists d0. cbn. now rewrite Nat.add_0_r.
      - destruct (He (map chunk_text_body b)) as (es & Ee & Le). rewrite Ee.
        rewrite length_map in Le.
        pose proof (Hi d0 (ChunkUpload.records_of embedding b es)) as Ok.
        destruct (insert d0 (ChunkUpload.records_of embedding b es)) as [d1 ok].
        cbn in Ok. subst ok.
        destruct (IH d1 (total + List.length (ChunkUpload.records_of embedding b es)))
          as [d' E].
        exists d'. rewrite E. f_equal. rewrite length_app.
        rewrite <- (length_map Shape2.chunk_of), (chunk_of_records b es Le). lia. }
    destruct (G (ChunkUpload.batches chunks) d 0) as [d' E]. exists d'.
    rewrite E, (batches_concat chunks). reflexivity.
  - intros accept d0. exact (upload_batches_selective accept (ChunkUpload.batches chunks) d0 0).
Qed.

End UploadTotals.

Lemma upload_to_supabase_total_witness :
  (forall texts : list string,
      exists es, (fun ts => Some (map length ts)) texts = Some es
                 /\ List.length es = List.length texts)
  /\ (forall (d : list (ChunkUpload.record nat)) rs, snd (Shape2.list_insert d rs) = true)
  /\ exists d',
       ChunkUpload.upload_to_supabase nat (list (ChunkUpload.record nat))
         (fun ts => Some (map length ts)) Shape2.list_insert
         [mkChunk "id" "a" "w" "s" "text" 0] []
       = ChunkUpload.Uploaded _ d' 1.
Proof.
  assert (H1 : forall texts : list string,
             exists es, (fun ts => Some (map length ts)) texts = Some es
                        /\ List.length es = List.length texts).
  { intro texts. exists (map length texts). split; [reflexivity | apply length_map]. }
  assert (H2 : forall (d : list (ChunkUpload.record nat)) rs,
             snd (Shape2.list_insert d rs) = true) by reflexivity.
  split; [exact H1|]. split; [exact H2|].
  exact (proj1 (proj2 (upload_to_supabase_total nat (list (ChunkUpload.record nat))
                         (fun ts => Some (map length ts)) Shape2.list_insert
                         [mkChunk "id" "a" "w" "s" "text" 0] [])) H1 H2).
Defined.

Section UploadToList.

Variable embedding : Type.
Variable encode : list string -> option (list embedding).

(** X20: into a table that never raises, with an encoder that returns one
    embedding per text, [upload_to_supabase] appends one record per chunk, in
    the order of the chunks, each with the identifier, author, work, section,
    text and index of its chunk. *)
Theorem upload_to_supabase_records
        (chunks : list chunk) (d : list (ChunkUpload.record embedding)) :
  (forall texts, exists es, encode texts = Some es
                            /\ List.length es = List.length texts) ->
  exists rs,
    ChunkUpload.upload_to_supabase embedding _ encode Shape2.list_insert chunks d
    = ChunkUpload.Uploaded _ (d ++ rs)%list (List.length chunks)
    /\ map Shape2.chunk_of rs = chunks.
Proof.
  intro He. unfold ChunkUpload.upload_to_supabase.
  assert (G : forall bs d0 total,
    exists rs,
      ChunkUpload.upload_batches embedding _ encode Shape2.list_insert bs d0 total
      = ChunkUpload.Uploaded _ (d0 ++ rs)%list
          (total + List.length (List.concat bs))
      /\ map Shape2.chunk_of rs = List.concat bs).
  { induction bs as [|b bs IH]; intros d0 total;
      cbn [ChunkUpload.upload_batches List.concat].
    - exists []. rewrite app_nil_r. cbn. now rewrite Nat.add_0_r.
    - destruct (He (map chunk_text_body b)) as (es & Ee & Le). rewrite Ee.
      rewrite length_map in Le. cbn [Shape2.list_insert].
      destruct (IH (d0 ++ ChunkUpload.records_of embedding b es)%list
                   (total + List.length (ChunkUpload.records_of embedding b es)))
        as (rs & E & M).
      exists (ChunkUpload.records_of embedding b es ++ rs)%list.
      rewrite E. split.
      + rewrite <- app_assoc. f_equal. rewrite length_app.
        rewrite <- (length_map Shape2.chunk_of (ChunkUpload.records_of embedding b es)),
          (chunk_of_records b es Le). lia.
      + now rewrite map_app, M, (chunk_of_records b es Le). }
  destruct (G (ChunkUpload.batches chunks) d 0) as (rs & E & M).
  exists rs. rewrite E, (batches_concat chunks) in *. auto.
Qed.

End UploadToList.

Lemma upload_to_supabase_records_witness :
  (forall texts : list string,
      exists es, (fun ts => Some (map length ts)) texts = Some es
                 /\ List.length es = List.length texts)
  /\ exists rs,
       ChunkUpload.upload_to_supabase nat _ (fun ts => Some (map length ts))
         Shape2.list_insert [mkChunk "id" "a" "w" "s" "text" 0] []
       = ChunkUpload.Uploaded _ ([] ++ rs)%list 1
       /\ map Shape2.chunk_of rs = [mkChunk "id" "a" "w" "s" "text" 0].
Proof.
  assert (H1 : forall texts : list string,
             exists es, (fun ts => Some (map length ts)) texts = Some es
                        /\ List.length es = List.length texts).
  { intro texts. exists (map length texts). split; [reflexivity | apply length_map]. }
  split; [exact H1|].
  exact (upload_to_supabase_records nat (fun ts => Some (map length ts))
           [mkChunk "id" "a" "w" "s" "text" 0] [] H1).
Defined.

(** ** The form of the quote hash *)

Lemma hex_digit_is_hex (n : nat) : n < 16 -> Shape2.is_hex (MD5.hex_digit n) = true.
Proof.
  intro H. do 16 (destruct n as [|n]; [reflexivity|]). lia.
Qed.

Lemma hex_shape (bs : list Z) :
  Forall (fun b => (0 <= b < 256)%Z) bs ->
  length (MD5.hex bs) = 2 * List.length bs /\ Shape2.all_hex (MD5.hex bs) = true.
Proof.
  induction 1 as [|b bs Hb _ [IH1 IH2]]; [split; reflexivity|].
  cbn [MD5.hex length List.length Shape2.all_hex]. split; [lia|].
  assert (L : Z.to_nat b < 256) by lia.
  rewrite !hex_digit_is_hex, IH2; [reflexivity | |].
  - apply Nat.mod_upper_bound. lia.
  - apply Nat.Div0.div_lt_upper_bound. lia.
Qed.

Lemma le_bytes_bounded (n : nat) :
  forall x, Forall (fun b => (0 <= b < 256)%Z) (MD5.le_bytes n x).
Proof.
  induction n as [|n IH]; intro x; cbn [MD5.le_bytes]; constructor; [|apply IH].
  apply Z.mod_pos_bound. lia.
Qed.

Lemma le_bytes_length (n : nat) : forall x, List.length (MD5.le_bytes n x) = n.
Proof. induction n as [|n IH]; intro x; cbn [MD5.le_bytes List.length]; auto. Qed.

Lemma digest_shape (msg : list Z) :
  List.length (MD5.digest msg) = 16
  /\ Forall (fun b => (0 <= b < 256)%Z) (MD5.digest msg).
Proof.
  unfold MD5.digest.
  destruct (MD5.blocks _ _ _) as [[[a b] c] d].
  split.
  - rewrite !length_app, !le_bytes_length. reflexivity.
  - repeat (apply Forall_app; split); apply le_bytes_bounded.
Qed.

(** X21: the hash [generate_quote_hash] returns is always 32 characters
    long and made of the digits 0-9 and the letters a-f only. *)
Theorem generate_quote_hash_format (quote_text author : string) :
  length (generate_quote_hash quote_text author) = 32
  /\ Shape2.all_hex (generate_quote_hash quote_text author) = true.
Proof.
  unfold generate_quote_hash, MD5.hexdigest.
  destruct (digest_shape (MD5.encode (lower (strip quote_text) ++ "||" ++ lower (strip author))))
    as [L B].
  destruct (hex_shape _ B) as [H1 H2]. rewrite H1, L. split; [reflexivity | exact H2].
Qed.

(** ** Pagination *)

Lemma uint_digits (d : Decimal.uint) :
  Pages.leading_digits (NilEmpty.string_of_uint d) = NilEmpty.string_of_uint d
  /\ lstrip_by isdigit (NilEmpty.string_of_uint d) = "".
Proof.
  induction d as [|d [I1 I2]|d [I1 I2]|d [I1 I2]|d [I1 I2]|d [I1 I2]|d [I1 I2]
                  |d [I1 I2]|d [I1 I2]|d [I1 I2]|d [I1 I2]];
    [split; reflexivity|..];
    (split; [cbn [NilEmpty.string_of_uint Pages.leading_digits];
             change (isdigit _) with true; cbv iota; now rewrite I1
            | cbn [NilEmpty.string_of_uint lstrip_by];
              change (isdigit _) with true; cbv iota; exact I2]).
Qed.

Lemma value_str (n : nat) : Pages.value (Pages.str n) = n.
Proof.
  unfold Pages.value, Pages.str. rewrite NilEmpty.usu. apply DecimalNat.Unsigned.of_to.
Qed.

Lemma int_str (n : nat) :
  Pages.int (Pages.str n)
  = if Nat.ltb Pages.max_str_digits (length (Pages.str n)) then None else Some n.
Proof. unfold Pages.int. now rewrite value_str. Qed.

Lemma str_truthy (n : nat) : truthy_str (Pages.str n) = true.
Proof.
  destruct n as [|n]; [reflexivity|].
  destruct (Pages.str (S n)) eqn:E; [|reflexivity].
  pose proof (value_str (S n)) as H. rewrite E in H. discriminate H.
Qed.

Lemma group_at_str (n : nat) : Pages.group_at (Pages.str n) = Some (Pages.str n).
Proof.
  unfold Pages.group_at.
  destruct (uint_digits (Nat.to_uint n)) as [H1 H2]. fold (Pages.str n) in H1, H2.
  now rewrite H1, H2, str_truthy.
Qed.

Lemma index_app_found (m a x : string) :
  forall k, index 0 m a = Some k -> exists k', index 0 m (a ++ x) = Some k'.
Proof.
  induction a as [|b a IH]; intros k H.
  - cbn [index] in H. destruct m; [|discriminate H].
    cbn [append]. destruct x; cbn [index]; eauto.
  - cbn [index] in H. change (String b a ++ x) with (String b (a ++ x)). cbn [index].
    destruct (prefix m (String b a)) eqn:P.
    + change (String b (a ++ x)) with (String b a ++ x).
      rewrite (prefix_app_r m _ x P). eauto.
    + destruct (index 0 m a) as [j|] eqn:Ej; [|discriminate H].
      destruct (IH j eq_refl) as [k' E]. rewrite E.
      destruct (prefix m (String b (a ++ x))); eauto.
Qed.

Lemma contains_app_l (m a x : string) : contains m a = true -> contains m (a ++ x) = true.
Proof.
  unfold contains, find. destruct (index 0 m a) as [k|] eqn:E; [|discriminate].
  intros _. destruct (index_app_found m a x k E) as [k' E']. now rewrite E'.
Qed.

Lemma page_group_of_page_url (n : nat) :
  Pages.search_page (Pages.page_url n) = Some (Pages.str n)
  /\ Pages.page_group (Some (Pages.page_url n)) = Some (Pages.str n).
Proof.
  assert (S1 : Pages.search_page (Pages.page_url n) = Some (Pages.str n)).
  { unfold Pages.page_url.
    change (Pages.search_page (Pages.BASE_URL ++ "_" ++ Pages.str n))
      with (match Pages.group_at (Pages.str n) with
            | Some ds => Some ds
            | None => Pages.search_page (Pages.str n)
            end).
    now rewrite group_at_str. }
  split; [exact S1|].
  unfold Pages.page_group. rewrite S1.
  assert (T : truthy_str (Pages.page_url n) = true) by reflexivity.
  assert (C : contains "quotes-by-philosophers_" (Pages.page_url n) = true).
  { unfold Pages.page_url. rewrite <- append_assoc. apply contains_app_l. reflexivity. }
  now rewrite T, C.
Qed.

(** X22: the page number [get_total_pages] reads from a link is the one
    [main] writes into a page URL: for every page number n, the URL
    BASE_URL + "_" + str(n) passes the link filter and the regular expression
    finds the digits of n in it; they denote n, and [int] returns n for them
    when they are at most 4300, the only case in which [str] can have
    written them; for more digits [int] raises [ValueError]. *)
Theorem page_number_of_page_url (n : nat) :
  Pages.search_page (Pages.page_url n) = Some (Pages.str n)
  /\ Pages.value (Pages.str n) = n
  /\ Pages.int (Pages.str n)
     = (if Nat.ltb Pages.max_str_digits (length (Pages.str n)) then None else Some n)
  /\ Pages.page_number (Some (Pages.page_url n))
     = (if Nat.ltb Pages.max_str_digits (length (Pages.str n))
        then Pages.ValueError else Pages.Number n).
Proof.
  destruct (page_group_of_page_url n) as [S1 G].
  split; [exact S1|]. split; [apply value_str|]. split; [apply int_str|].
  unfold Pages.page_number. rewrite G, int_str.
  now destruct (Nat.ltb Pages.max_str_digits (length (Pages.str n))).
Qed.

Lemma fold_max_bounds (l : list nat) :
  forall a, a <= fold_left Nat.max l a
            /\ (forall x, In x l -> x <= fold_left Nat.max l a)
            /\ In (fold_left Nat.max l a) (a :: l).
Proof.
  induction l as [|y l IH]; intro a; cbn [fold_left].
  - split; [lia|]. split; [intros x []| now left].
  - destruct (IH (Nat.max a y)) as (I1 & I2 & I3).
    split; [lia|]. split.
    + intros x [<-|Hx]; [lia | now apply I2].
    + destruct I3 as [I3|I3]; [|right; now right].
      destruct (Nat.max_spec a y) as [[_ E]|[_ E]]; rewrite E in *.
      * right. now left.
      * now left.
Qed.

(** The loop over the links raises exactly when one of the digit groups is
    longer than the limit; otherwise it collects their values in order. *)
Lemma page_numbers_of_groups (hrefs : list (option string)) :
  Pages.page_numbers hrefs
  = if existsb (fun ds => Nat.ltb Pages.max_str_digits (length ds)) (Pages.page_groups hrefs)
    then None
    else Some (map Pages.value (Pages.page_groups hrefs)).
Proof.
  induction hrefs as [|href hrefs IH]; [reflexivity|].
  unfold Pages.page_groups in *. cbn [Pages.page_numbers flat_map].
  unfold Pages.page_number.
  destruct (Pages.page_group href) as [ds|]; cbn [app existsb map].
  - unfold Pages.int.
    destruct (Nat.ltb Pages.max_str_digits (length ds)); cbn [orb]; [reflexivity|].
    rewrite IH. now destruct (existsb _ _).
  - exact IH.
Qed.

Lemma too_long_exists (groups : list string) :
  Exists (fun ds => Pages.max_str_digits < length ds) groups ->
  existsb (fun ds => Nat.ltb Pages.max_str_digits (length ds)) groups = true.
Proof.
  intro H. apply existsb_exists. apply Exists_exists in H. destruct H as (ds & Hd & Hl).
  exists ds. split; [exact Hd | now apply Nat.ltb_lt].
Qed.

Lemma none_too_long (groups : list string) :
  Forall (fun ds => length ds <= Pages.max_str_digits) groups ->
  existsb (fun ds => Nat.ltb Pages.max_str_digits (length ds)) groups = false.
Proof.
  intro H. destruct (existsb _ groups) eqn:E; [|reflexivity].
  apply existsb_exists in E. destruct E as (ds & Hd & Hl).
  rewrite Forall_forall in H. specialize (H ds Hd). apply Nat.ltb_lt in Hl. lia.
Qed.

Lemma get_total_pages_of_groups (hrefs : list (option string)) :
  (Exists (fun ds => Pages.max_str_digits < length ds) (Pages.page_groups hrefs) ->
   Pages.get_total_pages (Some hrefs) = 18)
  /\ (Forall (fun ds => length ds <= Pages.max_str_digits) (Pages.page_groups hrefs) ->
      Pages.page_numbers hrefs = Some (map Pages.value (Pages.page_groups hrefs))
      /\ (Pages.page_groups hrefs = [] -> Pages.get_total_pages (Some hrefs) = 1)
      /\ (Pages.page_groups hrefs <> [] ->
          In (Pages.get_total_pages (Some hrefs)) (map Pages.value (Pages.page_groups hrefs))
          /\ forall ds, In ds (Pages.page_groups hrefs) ->
                        Pages.value ds <= Pages.get_total_pages (Some hrefs))).
Proof.
  unfold Pages.get_total_pages. rewrite page_numbers_of_groups. split.
  - intro H. now rewrite (too_long_exists _ H).
  - intro H. rewrite (none_too_long _ H). split; [reflexivity|]. split.
    + intros ->. reflexivity.
    + intro N. destruct (Pages.page_groups hrefs) as [|g gs]; [congruence|].
      cbn [map nonempty Pages.py_max hd tl].
      destruct (fold_max_bounds (map Pages.value gs) (Pages.value g)) as (B1 & B2 & B3).
      split; [exact B3|]. intros ds [<-|Hd]; [exact B1|].
      apply B2. now apply in_map.
Qed.

Lemma leading_digits_idem (s : string) :
  Pages.leading_digits (Pages.leading_digits s) = Pages.leading_digits s.
Proof.
  induction s as [|c s IH]; [reflexivity|]. cbn [Pages.leading_digits].
  destruct (isdigit c) eqn:E; [|reflexivity].
  cbn [Pages.leading_digits]. now rewrite E, IH.
Qed.

Lemma group_at_digits (s ds : string) :
  Pages.group_at s = Some ds -> ds <> "" /\ Pages.leading_digits ds = ds.
Proof.
  unfold Pages.group_at.
  destruct (truthy_str (Pages.leading_digits s)) eqn:T; [|discriminate].
  destruct (String.eqb (lstrip_by isdigit s) "" || String.eqb (lstrip_by isdigit s) NL);
    [|discriminate].
  intros [= <-]. split; [|apply leading_digits_idem].
  intro E. rewrite E in T. discriminate T.
Qed.

Lemma search_page_digits (s ds : string) :
  Pages.search_page s = Some ds -> ds <> "" /\ Pages.leading_digits ds = ds.
Proof.
  induction s as [|c s IH]; [discriminate|]. cbn [Pages.search_page].
  destruct (Ascii.eqb c "_"); [|exact IH].
  destruct (Pages.group_at s) as [g|] eqn:G; [|exact IH].
  intros [= <-]. exact (group_at_digits s g G).
Qed.

(** [int] is applied to nothing but strings of decimal digits that are not
    empty. *)
Lemma page_groups_digits (hrefs : list (option string)) :
  Forall (fun ds => ds <> "" /\ Pages.leading_digits ds = ds) (Pages.page_groups hrefs).
Proof.
  unfold Pages.page_groups. induction hrefs as [|href hrefs IH]; [constructor|].
  cbn [flat_map]. destruct (Pages.page_group href) as [ds|] eqn:G; [|exact IH].
  cbn [app]. constructor; [|exact IH].
  unfold Pages.page_group in G. destruct href as [h|]; [|discriminate].
  destruct (truthy_str h && contains "quotes-by-philosophers_" h); [|discriminate].
  exact (search_page_digits h ds G).
Qed.

(** X23: when the pagination could be read, [get_total_pages] looks at the
    digit groups the regular expression finds in the links that pass the
    filter, each a string of decimal digits that is not empty.  If one of
    them has more than 4300 digits, [int] raises and the function answers
    18.  Otherwise every group is converted: the function returns 1 if there
    is none, and else the largest of the numbers they denote, which is one
    of them and not below any. *)
Theorem get_total_pages_is_max (hrefs : list (option string)) :
  Forall (fun ds => ds <> "" /\ Pages.leading_digits ds = ds) (Pages.page_groups hrefs)
  /\ (Exists (fun ds => Pages.max_str_digits < length ds) (Pages.page_groups hrefs) ->
   Pages.get_total_pages (Some hrefs) = 18)
  /\ (Forall (fun ds => length ds <= Pages.max_str_digits) (Pages.page_groups hrefs) ->
      Pages.page_numbers hrefs = Some (map Pages.value (Pages.page_groups hrefs))
      /\ (Pages.page_groups hrefs = [] -> Pages.get_total_pages (Some hrefs) = 1)
      /\ (Pages.page_groups hrefs <> [] ->
          In (Pages.get_total_pages (Some hrefs)) (map Pages.value (Pages.page_groups hrefs))
          /\ forall ds, In ds (Pages.page_groups hrefs) ->
                        Pages.value ds <= Pages.get_total_pages (Some hrefs))).
Proof. split; [apply page_groups_digits | apply get_total_pages_of_groups]. Qed.

Lemma get_total_pages_is_max_witness :
  (Exists (fun ds => Pages.max_str_digits < length ds)
          (Pages.page_groups [Some (Pages.page_url 2); Some Spec.long_page_url])
   /\ Pages.get_total_pages (Some [Some (Pages.page_url 2); Some Spec.long_page_url]) = 18)
  /\ (Forall (fun ds => length ds <= Pages.max_str_digits)
             (Pages.page_groups
                [Some (Pages.page_url 2); None; Some (Pages.page_url 18); Some "x_99";
                 Some (Pages.BASE_URL ++ "_007")])
      /\ Pages.page_groups
           [Some (Pages.page_url 2); None; Some (Pages.page_url 18); Some "x_99";
            Some (Pages.BASE_URL ++ "_007")] <> []
      /\ In (Pages.get_total_pages
               (Some [Some (Pages.page_url 2); None; Some (Pages.page_url 18); Some "x_99";
                      Some (Pages.BASE_URL ++ "_007")]))
            [2; 18; 7])
  /\ (Forall (fun ds => length ds <= Pages.max_str_digits)
             (Pages.page_groups [None; Some "x_99"])
      /\ Pages.page_groups [None; Some "x_99"] = []
      /\ Pages.get_total_pages (Some [None; Some "x_99"]) = 1).
Proof.
  assert (G1 : Pages.page_groups [Some (Pages.page_url 2); Some Spec.long_page_url]
               = ["2"; Spec.copies 4301 "9"]) by (vm_compute; reflexivity).
  assert (E1 : Exists (fun ds => Pages.max_str_digits < length ds)
                      (Pages.page_groups [Some (Pages.page_url 2); Some Spec.long_page_url])).
  { rewrite G1. apply Exists_cons_tl, Exists_cons_hd.
    apply Nat.ltb_lt. vm_compute. reflexivity. }
  assert (G2 : Pages.page_groups
                 [Some (Pages.page_url 2); None; Some (Pages.page_url 18); Some "x_99";
                  Some (Pages.BASE_URL ++ "_007")]
               = ["2"; "18"; "007"]) by (vm_compute; reflexivity).
  assert (F2 : Forall (fun ds => length ds <= Pages.max_str_digits)
                 (Pages.page_groups
                    [Some (Pages.page_url 2); None; Some (Pages.page_url 18); Some "x_99";
                     Some (Pages.BASE_URL ++ "_007")])).
  { rewrite G2. repeat constructor; apply Nat.leb_le; vm_compute; reflexivity. }
  assert (N2 : Pages.page_groups
                 [Some (Pages.page_url 2); None; Some (Pages.page_url 18); Some "x_99";
                  Some (Pages.BASE_URL ++ "_007")] <> [])
    by (rewrite G2; discriminate).
  assert (F3 : Forall (fun ds => length ds <= Pages.max_str_digits)
                 (Pages.page_groups [None; Some "x_99"])) by constructor.
  split; [|split].
  - split; [exact E1|].
    exact (proj1 (proj2 (get_total_pages_is_max
                           [Some (Pages.page_url 2); Some Spec.long_page_url])) E1).
  - split; [exact F2|]. split; [exact N2|].
    exact (proj1 (proj2 (proj2 (proj2 (proj2 (get_total_pages_is_max _)) F2)) N2)).
  - split; [exact F3|]. split; [reflexivity|].
    exact (proj1 (proj2 (proj2 (proj2 (get_total_pages_is_max [None; Some "x_99"])) F3))
                 eq_refl).
Defined.

(** *** The digits of the numbers involved *)

Lemma string_of_uint_length (d : Decimal.uint) :
  length (NilEmpty.string_of_uint d) = Decimal.nb_digits d.
Proof. induction d; cbn [NilEmpty.string_of_uint length Decimal.nb_digits]; congruence. Qed.

Lemma succ_digits (d : Decimal.uint) :
  Decimal.nb_digits d <= Decimal.nb_digits (Decimal.Little.succ d).
Proof. induction d; cbn [Decimal.Little.succ Decimal.nb_digits]; lia. Qed.

Lemma str_length (n : nat) :
  length (Pages.str n) = Decimal.nb_digits (DecimalNat.Unsigned.to_lu n).
Proof.
  unfold Pages.str.
  now rewrite string_of_uint_length, DecimalNat.Unsigned.to_uint_alt, DecimalFacts.nb_digits_rev.
Qed.

(** A smaller number has no more digits. *)
Lemma str_length_mono (n m : nat) : n <= m -> length (Pages.str n) <= length (Pages.str m).
Proof.
  induction 1 as [|m _ IH]; [lia|].
  rewrite (str_length (S m)), DecimalNat.Unsigned.to_lu_succ.
  pose proof (succ_digits (DecimalNat.Unsigned.to_lu m)) as S1.
  rewrite <- str_length in S1. lia.
Qed.

(** The number a digit string denotes has no more digits than the string. *)
Lemma str_value_length (ds : string) :
  length (Pages.str (Pages.value ds)) <= Nat.max 1 (length ds).
Proof.
  unfold Pages.value. destruct (NilEmpty.uint_of_string ds) as [d|] eqn:E.
  - apply NilEmpty.sus in E. subst ds. unfold Pages.str.
    rewrite DecimalNat.Unsigned.to_of, !string_of_uint_length.
    destruct d as [|d|d|d|d|d|d|d|d|d|d];
      [cbn; lia
      | match goal with
        | |- context [Decimal.unorm ?u] =>
            pose proof (DecimalFacts.nb_digits_unorm u ltac:(discriminate))
        end; lia ..].
  - change (length (Pages.str 0)) with 1. lia.
Qed.

(** Whatever the page holds, the number [get_total_pages] returns has at
    most 4300 digits. *)
Lemma get_total_pages_digits (links : option (list (option string))) :
  length (Pages.str (Pages.get_total_pages links)) <= Pages.max_str_digits.
Proof.
  assert (S1 : forall n, n <= 18 -> length (Pages.str n) <= Pages.max_str_digits).
  { intros n Hn. pose proof (str_length_mono n 18 Hn) as M.
    assert (L : length (Pages.str 18) = 2) by reflexivity.
    assert (B : 2 <= Pages.max_str_digits) by (apply Nat.leb_le; vm_compute; reflexivity).
    lia. }
  destruct links as [hrefs|]; [|apply S1; cbn; lia].
  unfold Pages.get_total_pages. rewrite page_numbers_of_groups.
  destruct (existsb _ (Pages.page_groups hrefs)) eqn:E; [apply S1; lia|].
  destruct (Pages.page_groups hrefs) as [|g gs] eqn:G; [apply S1; cbn; lia|].
  cbn [map nonempty]. unfold Pages.py_max. cbn [hd tl].
  destruct (fold_max_bounds (map Pages.value gs) (Pages.value g)) as (_ & _ & B3).
  change (Pages.value g :: map Pages.value gs) with (map Pages.value (g :: gs)) in B3.
  apply in_map_iff in B3. destruct B3 as (ds & <- & Hd).
  assert (L : length ds <= Pages.max_str_digits).
  { destruct (Nat.ltb Pages.max_str_digits (length ds)) eqn:T.
    - assert (X : existsb (fun ds => Nat.ltb Pages.max_str_digits (length ds)) (g :: gs) = true)
        by (apply existsb_exists; exists ds; split; assumption).
      congruence.
    - apply Nat.ltb_ge in T. exact T. }
  pose proof (str_value_length ds) as V.
  assert (B : 1 <= Pages.max_str_digits) by (apply Nat.leb_le; vm_compute; reflexivity).
  lia.
Qed.

Lemma page_groups_of_urls (l : list nat) :
  Pages.page_groups (map Some (map Pages.page_url l)) = map Pages.str l.
Proof.
  induction l as [|n l IH]; [reflexivity|].
  cbn [map]. unfold Pages.page_groups in *. cbn [flat_map].
  rewrite (proj2 (page_group_of_page_url n)), IH. reflexivity.
Qed.

(** X24: [main] requests max(1, total_pages) URLs, the base URL and then
    one per page number from 2 to total_pages.  Read back as pagination
    links, the digit groups found are those of 2 to total_pages.  When
    total_pages has at most 4300 digits, as every number [get_total_pages]
    returns has, the numbers read back are 2 to total_pages and
    [get_total_pages] gives max(1, total_pages) again; with more digits
    [int] raises on the last link and the answer is 18. *)
Theorem page_urls_round_trip (total_pages : nat) :
  List.length (Pages.page_urls total_pages) = Nat.max 1 total_pages
  /\ Pages.page_groups (map Some (Pages.page_urls total_pages))
     = map Pages.str (List.seq 2 (total_pages - 1))
  /\ (if Nat.ltb Pages.max_str_digits (length (Pages.str total_pages))
      then Pages.get_total_pages (Some (map Some (Pages.page_urls total_pages))) = 18
      else Pages.page_numbers (map Some (Pages.page_urls total_pages))
           = Some (List.seq 2 (total_pages - 1))
           /\ Pages.get_total_pages (Some (map Some (Pages.page_urls total_pages)))
              = Nat.max 1 total_pages)
  /\ (forall links,
        Nat.ltb Pages.max_str_digits (length (Pages.str (Pages.get_total_pages links)))
        = false).
Proof.
  assert (G : Pages.page_groups (map Some (Pages.page_urls total_pages))
              = map Pages.str (List.seq 2 (total_pages - 1))).
  { unfold Pages.page_urls.
    replace (total_pages + 1 - 2) with (total_pages - 1) by lia.
    cbn [map]. unfold Pages.page_groups. cbn [flat_map].
    assert (B : Pages.page_group (Some Pages.BASE_URL) = None) by reflexivity.
    rewrite B. cbn [app]. apply page_groups_of_urls. }
  split.
  { unfold Pages.page_urls. cbn [List.length]. rewrite length_map, length_seq. lia. }
  split; [exact G|]. split.
  - destruct (get_total_pages_of_groups (map Some (Pages.page_urls total_pages))) as [R F].
    rewrite G in R, F.
    destruct (Nat.ltb Pages.max_str_digits (length (Pages.str total_pages))) eqn:T.
    + apply R. apply Exists_exists. exists (Pages.str total_pages). split.
      * apply in_map. apply in_seq.
        destruct total_pages as [|[|n]]; [| |lia].
        -- apply Nat.ltb_lt in T. change (length (Pages.str 0)) with 1 in T.
           assert (B : 1 <= Pages.max_str_digits)
             by (apply Nat.leb_le; vm_compute; reflexivity).
           lia.
        -- apply Nat.ltb_lt in T. change (length (Pages.str 1)) with 1 in T.
           assert (B : 1 <= Pages.max_str_digits)
             by (apply Nat.leb_le; vm_compute; reflexivity).
           lia.
      * now apply Nat.ltb_lt.
    + apply Nat.ltb_ge in T.
      assert (A : Forall (fun ds => length ds <= Pages.max_str_digits)
                         (map Pages.str (List.seq 2 (total_pages - 1)))).
      { apply Forall_forall. intros ds Hd. apply in_map_iff in Hd.
        destruct Hd as (n & <- & Hn). apply in_seq in Hn.
        pose proof (str_length_mono n total_pages ltac:(lia)). lia. }
      destruct (F A) as (F1 & F2 & F3).
      assert (V : map Pages.value (map Pages.str (List.seq 2 (total_pages - 1)))
                  = List.seq 2 (total_pages - 1)).
      { rewrite map_map. rewrite <- (map_id (List.seq 2 (total_pages - 1))) at 2.
        apply map_ext. intro n. apply value_str. }
      rewrite V in *. split; [exact F1|].
      destruct (total_pages - 1) as [|k] eqn:K.
      * rewrite (F2 eq_refl). lia.
      * destruct (F3 ltac:(discriminate)) as [I U].
        apply in_seq in I.
        assert (L : 2 + k <= Pages.get_total_pages (Some (map Some (Pages.page_urls total_pages)))).
        { rewrite <- (value_str (2 + k)). apply U. apply in_map. apply in_seq. lia. }
        lia.
  - intro links. apply Nat.ltb_ge. apply get_total_pages_digits.
Qed.

(** ** Cleaning of the fetched text *)

Lemma string_length_app (a b : string) : length (a ++ b) = length a + length b.
Proof. induction a as [|c a IH]; simpl; congruence. Qed.

Lemma substring_prefix_app (a r : string) : substring 0 (length a) (a ++ r) = a.
Proof.
  induction a as [|c a IH]; simpl.
  - destruct r; reflexivity.
  - now rewrite IH.
Qed.

Lemma substring_drop_app (w t : string) (n : nat) :
  substring (length w) n (w ++ t) = substring 0 n t.
Proof. induction w as [|c w IH]; simpl; [reflexivity | exact IH]. Qed.

Lemma lstrip_length_le (p : ascii -> bool) (s : string) :
  length (lstrip_by p s) <= length s.
Proof. induction s as [|d s IH]; simpl; [lia|]. destruct (p d); simpl; lia. Qed.

Lemma rstrip_length_le (p : ascii -> bool) (s : string) :
  length (rstrip_by p s) <= length s.
Proof.
  induction s as [|c s IH]; cbn [rstrip_by]; [simpl; lia|].
  destruct (rstrip_by p s) as [|d r].
  - destruct (p c); simpl; lia.
  - simpl in *. lia.
Qed.

(** A string is unchanged by [lstrip] exactly when its first character, if
    any, is not stripped. *)
Lemma lstrip_fixed_iff (p : ascii -> bool) (s : string) :
  lstrip_by p s = s <-> (forall c, get 0 s = Some c -> p c = false).
Proof.
  destruct s as [|d s]; simpl.
  - split; [discriminate 2 | reflexivity].
  - destruct (p d) eqn:E.
    + split.
      * intro H. exfalso. pose proof (lstrip_length_le p s) as L.
        rewrite H in L. simpl in L. lia.
      * intro H. specialize (H d eq_refl). congruence.
    + split; [now intros _ c [= <-] | reflexivity].
Qed.

Lemma rstrip_fixed_cons (p : ascii -> bool) (c : ascii) (o : string) :
  rstrip_by p (String c o) = String c o
  <-> (o = "" /\ p c = false) \/ (o <> "" /\ rstrip_by p o = o).
Proof.
  cbn [rstrip_by]. destruct (rstrip_by p o) as [|d r] eqn:E.
  - destruct (p c); split.
    + discriminate.
    + intros [[_ H]|[H1 H2]]; [discriminate | congruence].
    + intros [= <-]. now left.
    + intros [[-> _]|[H1 H2]]; [reflexivity | congruence].
  - split.
    + intros [= <-]. right. split; [discriminate | reflexivity].
    + intros [[-> _]|[_ <-]]; [discriminate E | reflexivity].
Qed.

Lemma rstrip_fixed_suffix (p : ascii -> bool) (a r : string) :
  rstrip_by p (a ++ r) = a ++ r -> r <> "" -> rstrip_by p r = r.
Proof.
  induction a as [|c a IH]; intros H Hr; [exact H|].
  change (String c a ++ r) with (String c (a ++ r)) in H.
  apply rstrip_fixed_cons in H. destruct H as [[H _]|[_ H]].
  - destruct a; simpl in H; congruence.
  - now apply IH.
Qed.

Lemma rstrip_all (p : ascii -> bool) (a : string) :
  lstrip_by p a = "" -> rstrip_by p a = "".
Proof.
  induction a as [|c a IH]; simpl; [reflexivity|].
  destruct (p c) eqn:E; [|discriminate]. intro H. now rewrite (IH H).
Qed.

Lemma lstrip_by_split (p : ascii -> bool) (s : string) :
  exists w, s = w ++ lstrip_by p s /\ lstrip_by p w = ""
            /\ lstrip_by p (lstrip_by p s) = lstrip_by p s.
Proof.
  induction s as [|c s (w & Ew & Hw & Hr)]; simpl.
  - now exists "".
  - destruct (p c) eqn:E.
    + exists (String c w). simpl. rewrite E. now rewrite <- Ew.
    + exists "". simpl. now rewrite E.
Qed.

Lemma blank_is_space (c : ascii) : Fetch.is_blank c = true -> isspace c = true.
Proof. unfold Fetch.is_blank. intro H. apply Ascii.eqb_eq in H. now subst. Qed.

Lemma punct_not_space (c : ascii) : Fetch.is_punct c = true -> isspace c = false.
Proof.
  unfold Fetch.is_punct. cbn [existsb]. rewrite !orb_true_iff.
  intro H. repeat (destruct H as [H|H]; [apply Ascii.eqb_eq in H; now subst|]).
  discriminate.
Qed.

Lemma punct_not_blank (c : ascii) : Fetch.is_punct c = true -> Fetch.is_blank c = false.
Proof.
  intro H. destruct (Fetch.is_blank c) eqn:E; [|reflexivity].
  apply blank_is_space in E. apply punct_not_space in H. congruence.
Qed.

Lemma blanks_spec (s r : string) :
  Fetch.blanks s = Some r -> exists a, s = a ++ r /\ a <> "" /\ Fetch.blank_match a r.
Proof.
  destruct s as [|c s]; [discriminate|]. unfold Fetch.blanks.
  destruct (Fetch.is_blank c) eqn:E; [|discriminate].
  intros [= <-]. destruct (lstrip_by_split Fetch.is_blank s) as (w & Ew & Hw & Hr).
  exists (String c w). split; [simpl; now rewrite <- Ew|].
  split; [discriminate|]. split; [simpl; now rewrite E | exact Hr].
Qed.

Lemma space_punct_spec (s r : string) :
  Fetch.space_punct s = Some r ->
  exists a, s = a ++ r /\ a <> "" /\ Fetch.space_punct_match a r.
Proof.
  destruct s as [|c s]; [discriminate|]. unfold Fetch.space_punct.
  destruct (isspace c) eqn:E; [|discriminate].
  destruct (lstrip_by_split isspace s) as (w & Ew & Hw & _).
  destruct (lstrip_by isspace s) as [|p r'] eqn:El; [discriminate|].
  destruct (Fetch.is_punct p) eqn:Ep; [|discriminate]. intros [= <-].
  exists (String c w ++ String p ""). split.
  - rewrite append_assoc. simpl. now rewrite <- Ew.
  - split; [discriminate|]. exists (String c w), p.
    split; [reflexivity|]. split; [discriminate|]. split; [simpl; now rewrite E | exact Ep].
Qed.

Lemma group1_match (w : string) (p : ascii) :
  Fetch.group1 (w ++ String p "") = String p "".
Proof.
  unfold Fetch.group1. rewrite string_length_app. cbn [length].
  replace (length w + 1 - 1) with (length w) by lia.
  now rewrite substring_drop_app.
Qed.

Section SubWith.

Variables (m : Re.matcher) (repl : string -> string).
Variable Q : string -> string -> Prop.
Hypothesis m_spec :
  forall s r, m s = Some r -> exists a, s = a ++ r /\ a <> "" /\ Q a r.

Lemma sub_with_skip (a r : string) :
  Fetch.sub_with m repl (a ++ r) (length a) = Fetch.sub_with m repl r 0.
Proof. induction a as [|c a IH]; [reflexivity | exact IH]. Qed.

Lemma sub_with_match (a r : string) :
  a <> "" -> m (a ++ r) = Some r ->
  Fetch.sub_with m repl (a ++ r) 0 = repl a ++ Fetch.sub_with m repl r 0.
Proof.
  intros Ha Hm. destruct a as [|c a]; [congruence|].
  change (String c a ++ r) with (String c (a ++ r)) in *.
  cbn [Fetch.sub_with]. rewrite Hm.
  replace (length (String c (a ++ r)) - length r) with (length (String c a))
    by (cbn [length]; rewrite string_length_app; lia).
  change (String c (a ++ r)) with (String c a ++ r).
  rewrite substring_prefix_app. cbn [length].
  replace (S (length a) - 1) with (length a) by lia.
  now rewrite sub_with_skip.
Qed.

(** Induction over the matches of a substitution, from left to right. *)
Lemma sub_with_ind (P : string -> string -> Prop) :
  P "" "" ->
  (forall a r o, a <> "" -> Q a r -> m (a ++ r) = Some r ->
                 P r o -> P (a ++ r) (repl a ++ o)) ->
  (forall c s o, m (String c s) = None -> P s o -> P (String c s) (String c o)) ->
  forall s, P s (Fetch.sub_with m repl s 0).
Proof.
  intros H0 Hm Hn s.
  assert (G : forall n t, length t <= n -> P t (Fetch.sub_with m repl t 0)).
  { induction n as [|n IH]; intros t Ht.
    - destruct t; [exact H0 | simpl in Ht; lia].
    - destruct t as [|c t]; [exact H0|].
      destruct (m (String c t)) as [r|] eqn:E.
      + destruct (m_spec _ _ E) as (a & Ea & Ha & HQ).
        assert (L : length (String c t) = length a + length r)
          by (rewrite Ea; apply string_length_app).
        rewrite Ea in E |- *. rewrite (sub_with_match a r Ha E).
        apply Hm; trivial. apply IH.
        destruct a; [congruence|]. simpl in L, Ht. lia.
      + cbn [Fetch.sub_with]. rewrite E. apply Hn; trivial. apply IH. simpl in Ht. lia. }
  apply (G (length s)). lia.
Qed.

End SubWith.

(** *** Only whitespace is touched *)

Lemma ink_app (a b : string) : Fetch.ink (a ++ b) = Fetch.ink a ++ Fetch.ink b.
Proof.
  induction a as [|c a IH]; simpl; [reflexivity|].
  destruct (isspace c); simpl; now rewrite IH.
Qed.

Lemma ink_stripped_away (p : ascii -> bool) (w : string) :
  (forall c, p c = true -> isspace c = true) -> lstrip_by p w = "" -> Fetch.ink w = "".
Proof.
  intros Hp. induction w as [|c w IH]; simpl; [reflexivity|].
  destruct (p c) eqn:E; [|discriminate]. rewrite (Hp _ E). exact IH.
Qed.

Lemma lstrip_ink (s : string) : Fetch.ink (lstrip_by isspace s) = Fetch.ink s.
Proof.
  induction s as [|c s IH]; simpl; [reflexivity|].
  destruct (isspace c) eqn:E; [exact IH | simpl; now rewrite E].
Qed.

Lemma rstrip_ink (s : string) : Fetch.ink (rstrip_by isspace s) = Fetch.ink s.
Proof.
  induction s as [|c s IH]; [reflexivity|]. cbn [rstrip_by].
  change (Fetch.ink (String c s))
    with (if isspace c then Fetch.ink s else String c (Fetch.ink s)).
  rewrite <- IH. destruct (rstrip_by isspace s) as [|d r].
  - destruct (isspace c) eqn:E; simpl; now rewrite ?E.
  - reflexivity.
Qed.

Lemma strip_ink (s : string) : Fetch.ink (strip s) = Fetch.ink s.
Proof. unfold strip. now rewrite rstrip_ink, lstrip_ink. Qed.

Lemma strip_length_le (s : string) : length (strip s) <= length s.
Proof.
  unfold strip. pose proof (rstrip_length_le isspace (lstrip_by isspace s)).
  pose proof (lstrip_length_le isspace s). lia.
Qed.

Lemma collapse_spaces_ink (s : string) :
  Fetch.ink (Fetch.collapse_spaces s) = Fetch.ink s
  /\ length (Fetch.collapse_spaces s) <= length s.
Proof.
  unfold Fetch.collapse_spaces.
  apply (sub_with_ind Fetch.blanks (fun _ => " ") Fetch.blank_match blanks_spec
           (fun s o => Fetch.ink o = Fetch.ink s /\ length o <= length s)).
  - split; [reflexivity | lia].
  - intros a r o Ha [Hb _] _ [I1 I2]. split.
    + rewrite !ink_app, I1, (ink_stripped_away _ a blank_is_space Hb). reflexivity.
    + rewrite !string_length_app. destruct a; [congruence|]. simpl. lia.
  - intros c t o _ [I1 I2]. split; [simpl; now rewrite I1 | simpl; lia].
Qed.

Lemma tighten_punct_ink (s : string) :
  Fetch.ink (Fetch.tighten_punct s) = Fetch.ink s
  /\ length (Fetch.tighten_punct s) <= length s.
Proof.
  unfold Fetch.tighten_punct.
  apply (sub_with_ind Fetch.space_punct Fetch.group1 Fetch.space_punct_match
           space_punct_spec
           (fun s o => Fetch.ink o = Fetch.ink s /\ length o <= length s)).
  - split; [reflexivity | lia].
  - intros a r o _ (w & p & -> & Hw & Hs & Hp) _ [I1 I2]. rewrite group1_match. split.
    + rewrite !ink_app, I1, (ink_stripped_away _ w (fun c H => H) Hs). reflexivity.
    + rewrite !string_length_app. simpl. lia.
  - intros c t o _ [I1 I2]. split; [simpl; now rewrite I1 | simpl; lia].
Qed.

Lemma clean_line_ink (line : string) :
  Fetch.ink (Fetch.clean_line line) = Fetch.ink line
  /\ length (Fetch.clean_line line) <= length line.
Proof.
  unfold Fetch.clean_line.
  destruct (tighten_punct_ink (Fetch.collapse_spaces (strip line))) as [T1 T2].
  destruct (collapse_spaces_ink (strip line)) as [C1 C2].
  pose proof (strip_length_le line).
  split; [now rewrite T1, C1, strip_ink | lia].
Qed.

Lemma join_cons (sep x : string) (l : list string) :
  l <> [] -> join sep (x :: l) = x ++ sep ++ join sep l.
Proof. destruct l; [congruence | reflexivity]. Qed.

Lemma split_go_not_nil (sep s : string) (skip : nat) (cur : string) :
  split_go sep s skip cur <> [].
Proof.
  pose proof (split_go_nonempty sep s skip cur) as H.
  destruct (split_go sep s skip cur); [simpl in H; lia | discriminate].
Qed.

Lemma prefix_newline (c : ascii) (s : string) :
  prefix NL (String c s) = true -> isspace c = true.
Proof.
  unfold NL, chr. rewrite prefix_cons.
  destruct (ascii_dec (ascii_of_nat 10) c) as [<-|]; [reflexivity | discriminate].
Qed.

(** Splitting at newlines, mapping and joining again keeps what the map
    keeps. *)
Lemma map_lines_ink (g : string -> string) :
  (forall l, Fetch.ink (g l) = Fetch.ink l /\ length (g l) <= length l) ->
  forall s cur,
    Fetch.ink (join NL (map g (split_go NL s 0 cur))) = Fetch.ink cur ++ Fetch.ink s
    /\ length (join NL (map g (split_go NL s 0 cur))) <= length cur + length s.
Proof.
  intros Hg. induction s as [|c s IH]; intro cur.
  - cbn [split_go map join concat]. destruct (Hg cur) as [G1 G2].
    rewrite G1. simpl. rewrite append_nil_r. split; [reflexivity | lia].
  - cbn [split_go]. destruct (prefix NL (String c s)) eqn:E.
    + change (length NL - 1) with 0. cbn [map].
      rewrite join_cons.
      2:{ intro H. apply map_eq_nil in H. exact (split_go_not_nil _ _ _ _ H). }
      destruct (IH "") as [I1 I2]. destruct (Hg cur) as [G1 G2].
      rewrite !ink_app, !string_length_app, I1, G1.
      apply prefix_newline in E. split.
      * simpl. now rewrite E.
      * simpl in *. lia.
    + destruct (IH (cur ++ String c "")) as [I1 I2]. split.
      * rewrite I1, ink_app, append_assoc.
        change (String c s) with (String c "" ++ s). now rewrite ink_app.
      * rewrite string_length_app in I2. simpl in *. lia.
Qed.

(** X25: the clean-up in [fetch_gutenberg_text] touches whitespace only: the
    characters of the cleaned text that are not whitespace are those of the
    text it was given, in the same order, and the cleaned text is never
    longer. *)
Theorem clean_text_changes_whitespace_only (text : string) :
  Fetch.ink (Fetch.clean_text text) = Fetch.ink text
  /\ length (Fetch.clean_text text) <= length text.
Proof.
  unfold Fetch.clean_text. cbv zeta. unfold split.
  destruct (map_lines_ink Fetch.clean_line clean_line_ink
              (Fetch.tighten_punct (Fetch.collapse_spaces text)) "") as [M1 M2].
  destruct (tighten_punct_ink (Fetch.collapse_spaces text)) as [T1 T2].
  destruct (collapse_spaces_ink text) as [C1 C2].
  split.
  - rewrite M1, T1, C1. reflexivity.
  - simpl in M2. lia.
Qed.

(** *** Shape of the cleaned lines *)

Lemma stripped_away_weaken (p q : ascii -> bool) (a : string) :
  (forall c, p c = true -> q c = true) -> lstrip_by p a = "" -> lstrip_by q a = "".
Proof.
  intro Hpq. induction a as [|c a IH]; simpl; [reflexivity|].
  destruct (p c) eqn:E; [|discriminate]. now rewrite (Hpq _ E).
Qed.

Lemma ndb_tail (c : ascii) (s : string) :
  Fetch.no_double_blank (String c s) = true -> Fetch.no_double_blank s = true.
Proof.
  destruct s as [|d s]; [reflexivity|]. cbn [Fetch.no_double_blank].
  intro H. apply andb_true_iff in H. apply H.
Qed.

Lemma ndb_suffix (a r : string) :
  Fetch.no_double_blank (a ++ r) = true -> Fetch.no_double_blank r = true.
Proof.
  induction a as [|c a IH]; intro H; [exact H|].
  apply IH. exact (ndb_tail c _ H).
Qed.

Lemma ndb_cons (c : ascii) (o : string) :
  (forall d, get 0 o = Some d -> Fetch.is_blank c && Fetch.is_blank d = false) ->
  Fetch.no_double_blank o = true -> Fetch.no_double_blank (String c o) = true.
Proof.
  destruct o as [|d o]; [reflexivity|]. intros H N.
  cbn [Fetch.no_double_blank]. rewrite (H d eq_refl). exact N.
Qed.

Lemma nsbp_cons (c : ascii) (o : string) :
  (forall d, get 0 o = Some d -> isspace c && Fetch.is_punct d = false) ->
  Fetch.no_space_before_punct o = true ->
  Fetch.no_space_before_punct (String c o) = true.
Proof.
  destruct o as [|d o]; [reflexivity|]. intros H N.
  cbn [Fetch.no_space_before_punct]. rewrite (H d eq_refl). exact N.
Qed.

Lemma ndb_join (a : string) (c : ascii) (b : string) :
  Fetch.is_blank c = false ->
  Fetch.no_double_blank a = true -> Fetch.no_double_blank b = true ->
  Fetch.no_double_blank (a ++ String c b) = true.
Proof.
  intros Hc Ha Hb. induction a as [|x a IH].
  - apply ndb_cons; [|exact Hb]. intros d _. now rewrite Hc.
  - change (String x a ++ String c b) with (String x (a ++ String c b)).
    apply ndb_cons; [|exact (IH (ndb_tail _ _ Ha))].
    destruct a as [|y a]; intros d [= <-].
    + now rewrite Hc, andb_false_r.
    + cbn [Fetch.no_double_blank] in Ha. apply andb_true_iff in Ha.
      destruct Ha as [Ha _]. now apply negb_true_iff in Ha.
Qed.

Lemma blanks_none (c : ascii) (s : string) :
  Fetch.blanks (String c s) = None -> Fetch.is_blank c = false.
Proof. unfold Fetch.blanks. destruct (Fetch.is_blank c); [discriminate | reflexivity]. Qed.

Lemma space_punct_extend (c : ascii) (s : string) :
  isspace c = true -> Fetch.space_punct s <> None ->
  Fetch.space_punct (String c s) <> None.
Proof.
  intros Ec H. destruct s as [|d s]; [contradiction|].
  unfold Fetch.space_punct in *. rewrite Ec. cbn [lstrip_by].
  destruct (isspace d); [exact H | contradiction].
Qed.

Lemma space_punct_at_punct (c d : ascii) (s : string) :
  isspace c = true -> Fetch.is_punct d = true ->
  Fetch.space_punct (String c (String d s)) <> None.
Proof.
  intros Ec Ed. unfold Fetch.space_punct. rewrite Ec. cbn [lstrip_by].
  rewrite (punct_not_space d Ed), Ed. discriminate.
Qed.

(** What [re.sub(r' +', ' ', s)] keeps and what it establishes. *)
Lemma collapse_spaces_shape (s : string) :
  let o := Fetch.collapse_spaces s in
  get 0 o = get 0 s
  /\ Fetch.no_double_blank o = true
  /\ (s = "" <-> o = "")
  /\ (rstrip_by isspace s = s -> rstrip_by isspace o = o).
Proof.
  unfold Fetch.collapse_spaces. cbv zeta.
  apply (sub_with_ind Fetch.blanks (fun _ => " ") Fetch.blank_match blanks_spec
           (fun s o => get 0 o = get 0 s
                       /\ Fetch.no_double_blank o = true
                       /\ (s = "" <-> o = "")
                       /\ (rstrip_by isspace s = s -> rstrip_by isspace o = o))).
  - repeat split; trivial.
  - intros a r o Ha [Hb Hr] _ (G & N & Z & R).
    change (" " ++ o) with (String " " o).
    destruct a as [|c a]; [congruence|].
    assert (Ec : c = " "%char).
    { simpl in Hb. destruct (Fetch.is_blank c) eqn:E; [|discriminate].
      now apply Ascii.eqb_eq in E. }
    subst c. split; [reflexivity|]. split; [|split].
    + apply ndb_cons; [|exact N]. intros d Hd. rewrite G in Hd.
      apply (proj1 (lstrip_fixed_iff _ _)) with (c := d) in Hr; [|exact Hd].
      now rewrite Hr, andb_false_r.
    + split; discriminate.
    + intro H. apply rstrip_fixed_cons. right.
      assert (Hne : r <> "").
      { intros ->. rewrite append_nil_r in H.
        rewrite (rstrip_all isspace) in H;
          [discriminate | exact (stripped_away_weaken _ _ _ blank_is_space Hb)]. }
      split; [intro Ho; apply Hne, Z, Ho|].
      apply R. exact (rstrip_fixed_suffix _ _ _ H Hne).
  - intros c t o Hn (G & N & Z & R). apply blanks_none in Hn.
    split; [reflexivity|]. split; [|split].
    + apply ndb_cons; [|exact N]. intros d _. now rewrite Hn.
    + split; discriminate.
    + intro H. apply rstrip_fixed_cons in H. apply rstrip_fixed_cons.
      destruct H as [[Ht Hc]|[Ht H]].
      * left. split; [apply Z, Ht | exact Hc].
      * right. split; [intro Ho; apply Ht, Z, Ho | exact (R H)].
Qed.

(** What [re.sub(r'\s+([.,;:!?])', r'\1', s)] keeps and what it establishes. *)
Lemma tighten_punct_shape (s : string) :
  let o := Fetch.tighten_punct s in
  (get 0 o = get 0 s
   \/ exists d, get 0 o = Some d /\ Fetch.is_punct d = true
                /\ Fetch.space_punct s <> None)
  /\ Fetch.no_space_before_punct o = true
  /\ (Fetch.no_double_blank s = true -> Fetch.no_double_blank o = true)
  /\ (s = "" <-> o = "")
  /\ (rstrip_by isspace s = s -> rstrip_by isspace o = o).
Proof.
  unfold Fetch.tighten_punct. cbv zeta.
  apply (sub_with_ind Fetch.space_punct Fetch.group1 Fetch.space_punct_match
           space_punct_spec
           (fun s o =>
              (get 0 o = get 0 s
               \/ exists d, get 0 o = Some d /\ Fetch.is_punct d = true
                            /\ Fetch.space_punct s <> None)
              /\ Fetch.no_space_before_punct o = true
              /\ (Fetch.no_double_blank s = true -> Fetch.no_double_blank o = true)
              /\ (s = "" <-> o = "")
              /\ (rstrip_by isspace s = s -> rstrip_by isspace o = o))).
  - repeat split; trivial. now left.
  - intros a r o Ha (w & p & -> & Hw & Hs & Hp) Hm (G & S & N & Z & R).
    rewrite group1_match. change (String p "" ++ o) with (String p o).
    split; [|split; [|split; [|split]]].
    + right. exists p. split; [reflexivity|]. split; [exact Hp|]. rewrite Hm. discriminate.
    + apply nsbp_cons; [|exact S]. intros d _. now rewrite (punct_not_space p Hp).
    + intro H. apply ndb_cons; [|exact (N (ndb_suffix _ _ H))].
      intros d _. now rewrite (punct_not_blank p Hp).
    + split; [|discriminate]. destruct w; discriminate.
    + intro H. apply rstrip_fixed_cons.
      destruct r as [|c r].
      * left. split; [now apply Z | exact (punct_not_space p Hp)].
      * right. assert (Hne : String c r <> "") by discriminate.
        split; [intro Ho; apply Hne, Z, Ho|].
        apply R. exact (rstrip_fixed_suffix _ _ _ H Hne).
  - intros c t o Hn (G & S & N & Z & R).
    split; [|split; [|split; [|split]]].
    + now left.
    + apply nsbp_cons; [|exact S]. intros d Hd.
      destruct (isspace c) eqn:Ec; [|reflexivity].
      destruct (Fetch.is_punct d) eqn:Ed; [exfalso|reflexivity].
      destruct G as [G|(d' & G & _ & G')].
      * rewrite Hd in G. destruct t as [|d' t]; [discriminate|].
        injection G as <-. exact (space_punct_at_punct c d t Ec Ed Hn).
      * exact (space_punct_extend c t Ec G' Hn).
    + intro H. apply ndb_cons; [|exact (N (ndb_tail _ _ H))].
      intros d Hd. destruct G as [G|(d' & G & Gp & _)].
      * rewrite Hd in G. destruct t as [|d' t]; [discriminate|].
        injection G as <-. cbn [Fetch.no_double_blank] in H.
        apply andb_true_iff in H. destruct H as [H _]. now apply negb_true_iff in H.
      * rewrite Hd in G. injection G as <-.
        now rewrite (punct_not_blank d Gp), andb_false_r.
    + split; discriminate.
    + intro H. apply rstrip_fixed_cons in H. apply rstrip_fixed_cons.
      destruct H as [[Ht Hc]|[Ht H]].
      * left. split; [apply Z, Ht | exact Hc].
      * right. split; [intro Ho; apply Ht, Z, Ho | exact (R H)].
Qed.

Lemma clean_line_shape (line : string) :
  strip (Fetch.clean_line line) = Fetch.clean_line line
  /\ Fetch.no_double_blank (Fetch.clean_line line) = true
  /\ Fetch.no_space_before_punct (Fetch.clean_line line) = true.
Proof.
  unfold Fetch.clean_line.
  set (x := strip line).
  assert (Lx : lstrip_by isspace x = x).
  { unfold x, strip. apply lstrip_rstrip, lstrip_fixed. }
  assert (Rx : rstrip_by isspace x = x).
  { unfold x, strip. apply rstrip_idem. }
  destruct (collapse_spaces_shape x) as (G1 & N1 & _ & R1).
  set (y := Fetch.collapse_spaces x) in *.
  destruct (tighten_punct_shape y) as (G2 & S2 & N2 & _ & R2).
  set (z := Fetch.tighten_punct y) in *.
  assert (Lz : lstrip_by isspace z = z).
  { apply lstrip_fixed_iff. intros c Hc.
    destruct G2 as [G2|(d & G2 & Gp & _)].
    - rewrite G2, G1 in Hc. exact (proj1 (lstrip_fixed_iff _ _) Lx c Hc).
    - rewrite Hc in G2. injection G2 as <-. exact (punct_not_space c Gp). }
  split; [|split].
  - unfold strip. rewrite Lz. exact (R2 (R1 Rx)).
  - exact (N2 N1).
  - exact S2.
Qed.

Lemma ndb_join_lines (l : list string) :
  Forall (fun line => Fetch.no_double_blank line = true) l ->
  Fetch.no_double_blank (join NL l) = true.
Proof.
  induction l as [|x l IH]; intro H; [reflexivity|].
  inversion H as [|? ? Hx Hl]; subst.
  destruct l as [|y l]; [exact Hx|].
  rewrite join_cons by discriminate.
  apply ndb_join; [reflexivity | exact Hx | exact (IH Hl)].
Qed.

(** X27: the text returned by the HTML branch of [fetch_gutenberg_text] never
    has two blanks in a row. *)
Theorem clean_text_no_double_blank (text : string) :
  Fetch.no_double_blank (Fetch.clean_text text) = true.
Proof.
  unfold Fetch.clean_text. cbv zeta. apply ndb_join_lines.
  apply Forall_forall. intros line H. apply in_map_iff in H.
  destruct H as (l & <- & _). apply clean_line_shape.
Qed.

(** *** The lines of the cleaned text *)

Lemma prefix_newline_iff (c : ascii) (s : string) :
  prefix NL (String c s) = true <-> c = ascii_of_nat 10.
Proof.
  unfold NL, chr. rewrite prefix_cons.
  destruct (ascii_dec (ascii_of_nat 10) c) as [<-|N].
  - destruct s; split; reflexivity.
  - split; [discriminate | congruence].
Qed.

Lemma split_go_line (x : string) :
  ~ In (ascii_of_nat 10) (list_ascii_of_string x) ->
  forall cur, split_go NL x 0 cur = [cur ++ x].
Proof.
  induction x as [|c x IH]; intros H cur.
  - cbn [split_go]. now rewrite append_nil_r.
  - cbn [split_go]. destruct (prefix NL (String c x)) eqn:E.
    + apply prefix_newline_iff in E. exfalso. apply H. left. exact E.
    + rewrite IH by (intro K; apply H; right; exact K).
      now rewrite append_assoc.
Qed.

Lemma split_go_line_more (x y : string) :
  ~ In (ascii_of_nat 10) (list_ascii_of_string x) ->
  forall cur,
    split_go NL (x ++ NL ++ y) 0 cur = (cur ++ x) :: split_go NL y 0 "".
Proof.
  induction x as [|c x IH]; intros H cur.
  - change ("" ++ NL ++ y) with (String (ascii_of_nat 10) y). cbn [split_go].
    rewrite (proj2 (prefix_newline_iff _ y) eq_refl).
    change (length NL - 1) with 0. now rewrite append_nil_r.
  - change (String c x ++ NL ++ y) with (String c (x ++ NL ++ y)). cbn [split_go].
    destruct (prefix NL (String c (x ++ NL ++ y))) eqn:E.
    + apply prefix_newline_iff in E. exfalso. apply H. left. exact E.
    + rewrite IH by (intro K; apply H; right; exact K).
      now rewrite append_assoc.
Qed.

(** [split] undoes [join] on lines that hold no newline. *)
Lemma split_join (l : list string) :
  l <> [] ->
  Forall (fun x => ~ In (ascii_of_nat 10) (list_ascii_of_string x)) l ->
  split NL (join NL l) = l.
Proof.
  unfold split. induction l as [|x l IH]; intros Hl H; [congruence|].
  inversion H as [|? ? Hx Hr]; subst.
  destruct l as [|y l].
  - cbn [join concat]. now rewrite split_go_line.
  - rewrite join_cons by discriminate.
    rewrite split_go_line_more by exact Hx.
    rewrite IH; [reflexivity | discriminate | exact Hr].
Qed.

Lemma split_go_lines_no_newline (s : string) :
  forall cur,
    ~ In (ascii_of_nat 10) (list_ascii_of_string cur) ->
    Forall (fun x => ~ In (ascii_of_nat 10) (list_ascii_of_string x))
           (split_go NL s 0 cur).
Proof.
  induction s as [|c s IH]; intros cur H; cbn [split_go].
  - constructor; [exact H | constructor].
  - destruct (prefix NL (String c s)) eqn:E.
    + change (length NL - 1) with 0. constructor; [exact H|].
      apply IH. intros [].
    + apply IH. rewrite chars_app. intro K. apply in_app_or in K.
      destruct K as [K|[K|[]]]; [exact (H K)|].
      assert (T : prefix NL (String c s) = true) by (apply prefix_newline_iff; congruence).
      congruence.
Qed.

Lemma lstrip_chars (p : ascii -> bool) (s : string) (c : ascii) :
  In c (list_ascii_of_string (lstrip_by p s)) -> In c (list_ascii_of_string s).
Proof.
  induction s as [|d s IH]; simpl; [trivial|].
  destruct (p d); [intro H; right; exact (IH H) | trivial].
Qed.

Lemma rstrip_chars (p : ascii -> bool) (s : string) (c : ascii) :
  In c (list_ascii_of_string (rstrip_by p s)) -> In c (list_ascii_of_string s).
Proof.
  induction s as [|d s IH]; cbn [rstrip_by]; [trivial|].
  destruct (rstrip_by p s) as [|e r].
  - destruct (p d); simpl; [intros [] | intros [H|[]]; now left].
  - intros [H|H]; [now left | right; exact (IH H)].
Qed.

Lemma collapse_spaces_chars (s : string) (c : ascii) :
  In c (list_ascii_of_string (Fetch.collapse_spaces s)) ->
  In c (list_ascii_of_string s).
Proof.
  unfold Fetch.collapse_spaces.
  apply (sub_with_ind Fetch.blanks (fun _ => " ") Fetch.blank_match blanks_spec
           (fun s o => In c (list_ascii_of_string o) -> In c (list_ascii_of_string s))).
  - trivial.
  - intros a r o Ha [Hb _] _ IH. rewrite !chars_app. intro H.
    apply in_or_app. apply in_app_or in H. destruct H as [[<-|[]]|H].
    + left. destruct a as [|d a]; [congruence|]. simpl in Hb.
      destruct (Fetch.is_blank d) eqn:E; [|discriminate].
      apply Ascii.eqb_eq in E. subst d. now left.
    + right. exact (IH H).
  - intros d t o _ IH [H|H]; [now left | right; exact (IH H)].
Qed.

Lemma tighten_punct_chars (s : string) (c : ascii) :
  In c (list_ascii_of_string (Fetch.tighten_punct s)) ->
  In c (list_ascii_of_string s).
Proof.
  unfold Fetch.tighten_punct.
  apply (sub_with_ind Fetch.space_punct Fetch.group1 Fetch.space_punct_match
           space_punct_spec
           (fun s o => In c (list_ascii_of_string o) -> In c (list_ascii_of_string s))).
  - trivial.
  - intros a r o _ (w & p & -> & _) _ IH. rewrite group1_match, !chars_app. intro H.
    apply in_or_app. apply in_app_or in H. destruct H as [H|H].
    + left. apply in_or_app. right. exact H.
    + right. exact (IH H).
  - intros d t o _ IH [H|H]; [now left | right; exact (IH H)].
Qed.

Lemma clean_line_chars (line : string) (c : ascii) :
  In c (list_ascii_of_string (Fetch.clean_line line)) ->
  In c (list_ascii_of_string line).
Proof.
  unfold Fetch.clean_line, strip. intro H.
  apply tighten_punct_chars, collapse_spaces_chars, rstrip_chars, lstrip_chars in H.
  exact H.
Qed.

Lemma clean_text_lines (text : string) :
  split NL (Fetch.clean_text text)
  = map Fetch.clean_line
        (split NL (Fetch.tighten_punct (Fetch.collapse_spaces text))).
Proof.
  unfold Fetch.clean_text. cbv zeta. apply split_join.
  - intro H. apply map_eq_nil in H. exact (split_go_not_nil _ _ _ _ H).
  - apply Forall_forall. intros x Hx. apply in_map_iff in Hx.
    destruct Hx as (l & <- & Hl). intro K. apply clean_line_chars in K.
    pose proof (split_go_lines_no_newline
                  (Fetch.tighten_punct (Fetch.collapse_spaces text)) "" (fun F => F)) as F.
    rewrite Forall_forall in F. exact (F l Hl K).
Qed.

(** X26: every line of the text that [fetch_gutenberg_text] returns from its
    HTML branch is tidy: no whitespace at either end, no two blanks in a row,
    no whitespace in front of one of [.,;:!?]. *)
Theorem clean_text_lines_tidy (text : string) :
  Forall (fun line => strip line = line
                      /\ Fetch.no_double_blank line = true
                      /\ Fetch.no_space_before_punct line = true)
         (split NL (Fetch.clean_text text)).
Proof.
  rewrite clean_text_lines.
  apply Forall_forall. intros line H. apply in_map_iff in H.
  destruct H as (l & <- & _). apply clean_line_shape.
Qed.

(** The clean-up on a small text, with the result CPython's [re] gives. *)
Example clean_text_sample :
  Fetch.clean_text
    ("Hello   world ,  this  is ." ++ NL ++ "   a  test ! " ++ NL ++ NL
     ++ " ; x" ++ NL ++ "  " ++ NL ++ "?end  ")
  = "Hello world, this is." ++ NL ++ "a test!; x?end".
Proof. vm_compute. reflexivity. Qed.
